(** * AllNewsAPI Go SDK: the request builder and response decoder of [client.go]

    A shallow embedding of [Client.Search] and [Client.Headlines]
    (src/client.go) together with the parts of the Go standard library they
    call: [strings.Join], [fmt.Sprintf] with the verb d, [url.Values] with
    [Add] and [Encode], [url.QueryEscape], [time.Time.Format] with the
    RFC3339 layout, [io.ReadAll], [fmt.Errorf], [errors.New] and the
    [encoding/json] stream decoder applied to [SearchResponse].

    Go strings and byte slices are sequences of bytes: they are [string]
    here, one [ascii] per byte.  The Go type [int] is [Z].

    What the client only consumes is a parameter, gathered in [Platform]:
    whether [url.Parse] accepts the text of a URL, what [http.Client.Do]
    answers, and how package time parses the text of a timestamp.  A call
    returns its two results and the list of what it did on the network.

    [NewClient] with its options is embedded as well.

    Where the embedding stops:
    - a [Time] carries the offset of its location at its instant, not the
      location;
    - a body is the bytes it delivers and the error that ends it, however
      the reads were cut;
    - a slice is the list of its elements; the JSON decoder, which stores
      a later array under the key articles over the backing array of the
      earlier one, carries what that array holds beyond the length as well,
      and a slice handed to the decoder is taken to hold nothing there;
    - the panic of the JSON decoder on a string literal that its scanner
      should have refused is an error of decoding here. *)

From Stdlib Require Import ZArith Ascii String List Lia DecimalString.
From Stdlib Require Import DecimalPos.
From stdpp Require Import base option list gmap strings sorting.

Local Open Scope Z_scope.

(** ** Bytes *)

Module Byte.

Definition code (c : ascii) : Z := Z.of_N (N_of_ascii c).

Definition of_code (n : Z) : ascii := ascii_of_N (Z.to_N n).

Definition between (lo hi c : ascii) : bool :=
  (code lo <=? code c) && (code c <=? code hi).

Definition isDigit (c : ascii) : bool := between "0" "9" c.

Definition isAlnum (c : ascii) : bool :=
  between "a" "z" c || between "A" "Z" c || between "0" "9" c.

(** The double quote, which cannot be written inside a literal here. *)
Definition dquote : ascii := of_code 34.

End Byte.

(** ** Go strings *)

Module Str.

Definition len (s : string) : Z := Z.of_nat (String.length s).

Definition isEmpty (s : string) : bool :=
  match s with EmptyString => true | String _ _ => false end.

Definition single (c : ascii) : string := String c EmptyString.

Fixpoint mem (c : ascii) (s : string) : bool :=
  match s with
  | EmptyString => false
  | String d s' => Ascii.eqb c d || mem c s'
  end.

(** Writes a text in which every apostrophe stands for a double quote. *)
Fixpoint q (s : string) : string :=
  match s with
  | EmptyString => EmptyString
  | String c s' =>
      String (if Ascii.eqb c "'" then Byte.dquote else c) (q s')
  end.

End Str.

(** ** [strings.Join] *)

Fixpoint strings_Join (elems : list string) (sep : string) : string :=
  match elems with
  | [] => EmptyString
  | x :: rest =>
      match rest with
      | [] => x
      | _ :: _ => x +:+ sep +:+ strings_Join rest sep
      end
  end.

(** ** [strings.Split] with a separator of one byte

    No function of the client calls it: it reads a joined text back, the way
    a server reads a list parameter or the pieces of a query. *)

Fixpoint splitFrom (cur s : string) (sep : ascii) : list string :=
  match s with
  | EmptyString => [cur]
  | String c r =>
      if Ascii.eqb c sep then cur :: splitFrom EmptyString r sep
      else splitFrom (cur +:+ Str.single c) r sep
  end.

Definition strings_Split (s : string) (sep : ascii) : list string :=
  splitFrom EmptyString s sep.

(** ** [fmt.Sprintf] with the single verb d on an [int] *)

Definition Sprintf_d (n : Z) : string := NilZero.string_of_int (Z.to_int n).

(** ** Errors

    [errors.New] builds an [errorString]; [fmt.Errorf] builds an
    [errorString] when its format has no verb w and a [wrapError] holding the
    formatted text and the wrapped error when it has one.  The other
    constructors are the error values of the libraries the client calls. *)

Inductive GoType : Type :=
| T_int | T_string | T_SearchResponse | T_Article | T_Articles | T_Source.

Inductive error : Type :=
| errorString (s : string)
| wrapError (msg : string) (err : error)
| io_EOF
| io_ErrUnexpectedEOF
| json_SyntaxError (msg : string) (Offset : Z)
| json_UnmarshalTypeError (Value : string) (Type_ : GoType) (Struct Field : string)
| foreignError (msg : string).

Definition GoType_String (t : GoType) : string :=
  match t with
  | T_int => "int"
  | T_string => "string"
  | T_SearchResponse => "allnewsapi.SearchResponse"
  | T_Article => "allnewsapi.Article"
  | T_Articles => "[]allnewsapi.Article"
  | T_Source =>
      Str.q "struct { Name string 'json:\'name\''; URL string 'json:\'url\'' }"
  end.

(** The method [Error()]. *)
Definition Error (e : error) : string :=
  match e with
  | errorString s => s
  | wrapError msg _ => msg
  | io_EOF => "EOF"
  | io_ErrUnexpectedEOF => "unexpected EOF"
  | json_SyntaxError msg _ => msg
  | json_UnmarshalTypeError v t s f =>
      if Str.isEmpty s && Str.isEmpty f
      then "json: cannot unmarshal " +:+ v +:+ " into Go value of type "
           +:+ GoType_String t
      else "json: cannot unmarshal " +:+ v +:+ " into Go struct field "
           +:+ s +:+ "." +:+ f +:+ " of type " +:+ GoType_String t
  | foreignError msg => msg
  end.

Definition errors_New (text : string) : error := errorString text.

(** [errors.Unwrap]. *)
Definition Unwrap (e : error) : option error :=
  match e with
  | wrapError _ err => Some err
  | _ => None
  end.

(** ** [time.Time] and [Format(time.RFC3339)]

    A [Time] is an instant, in seconds and nanoseconds since the Unix epoch,
    with the offset east of UTC of its location at that instant. *)

Record Time := mkTime { unixSec : Z; nsec : Z; zoneOffset : Z }.

Module TimeFmt.

(** The proleptic Gregorian date of a day number counted from 1970-01-01. *)
Definition date (days : Z) : Z * Z * Z :=
  let z := days + 719468 in
  let era := z / 146097 in
  let doe := z - era * 146097 in
  let yoe := (doe - doe / 1460 + doe / 36524 - doe / 146096) / 365 in
  let doy := doe - (365 * yoe + yoe / 4 - yoe / 100) in
  let mp := (5 * doy + 2) / 153 in
  let day := doy - (153 * mp + 2) / 5 + 1 in
  let month := if mp <? 10 then mp + 3 else mp - 9 in
  let year := yoe + era * 400 + (if month <=? 2 then 1 else 0) in
  (year, month, day).

Definition clock (secOfDay : Z) : Z * Z * Z :=
  (secOfDay / 3600, secOfDay mod 3600 / 60, secOfDay mod 60).

Fixpoint zeros (n : nat) : string :=
  match n with O => EmptyString | S k => String "0" (zeros k) end.

(** [appendInt(b, x, width)]: the decimal form of [x], padded with zeros to
    [width] digits, after a minus sign when [x] is negative. *)
Definition appendInt (b : string) (x : Z) (width : nat) : string :=
  let digits := NilZero.string_of_uint (N.to_uint (Z.to_N (Z.abs x))) in
  b +:+ (if x <? 0 then "-" else EmptyString)
    +:+ zeros (width - String.length digits) +:+ digits.

(** [t.Format(time.RFC3339)], layout 2006-01-02T15:04:05Z07:00. *)
Definition Format_RFC3339 (t : Time) : string :=
  let offset := zoneOffset t in
  let abs := unixSec t + offset in
  let '(year, month, day) := date (abs / 86400) in
  let b := appendInt EmptyString year 4 in
  let b := b +:+ "-" in
  let b := appendInt b month 2 in
  let b := b +:+ "-" in
  let b := appendInt b day 2 in
  let b := b +:+ "T" in
  let '(hour, min, sec) := clock (abs mod 86400) in
  let b := appendInt b hour 2 in
  let b := b +:+ ":" in
  let b := appendInt b min 2 in
  let b := b +:+ ":" in
  let b := appendInt b sec 2 in
  if offset =? 0 then b +:+ "Z"
  else
    let zone := Z.quot offset 60 in
    let '(b, zone) :=
      if zone <? 0 then (b +:+ "-", - zone) else (b +:+ "+", zone) in
    let b := appendInt b (Z.quot zone 60) 2 in
    let b := b +:+ ":" in
    appendInt b (Z.rem zone 60) 2.

End TimeFmt.

(** ** The date-time of RFC 3339

    No function of the client reads a date: this is what the text of a
    formatted time is measured against. *)

Module RFC3339.

Definition isLeap (year : Z) : bool :=
  ((year mod 4 =? 0) && negb (year mod 100 =? 0)) || (year mod 400 =? 0).

Definition daysIn (year month : Z) : Z :=
  if month =? 2 then (if isLeap year then 29 else 28)
  else if (month =? 4) || (month =? 6) || (month =? 9) || (month =? 11) then 30
  else 31.

Definition digitValue (c : ascii) : Z := Byte.code c - 48.

Definition num2 (a b : ascii) : option Z :=
  if Byte.isDigit a && Byte.isDigit b
  then Some (digitValue a * 10 + digitValue b) else None.

Definition inRange (n : option Z) (lo hi : Z) : bool :=
  match n with
  | Some n => (lo <=? n) && (n <=? hi)
  | None => false
  end.

(** The time offset of RFC 3339: Z, or a sign, two digits of hours up to 23,
    a colon and two digits of minutes up to 59. *)
Definition isOffset (zone : string) : bool :=
  match zone with
  | String z EmptyString => Ascii.eqb z "Z"
  | String sg (String h1 (String h2 (String c (String m1 (String m2 EmptyString))))) =>
      (Ascii.eqb sg "+" || Ascii.eqb sg "-")
      && inRange (num2 h1 h2) 0 23 && Ascii.eqb c ":"
      && inRange (num2 m1 m2) 0 59
  | _ => false
  end.

(** The date-time of RFC 3339, section 5.6, without a fraction of a second:
    a full date of four, two and two digits with a day that its month has in
    its year, the letter T, a time of day of two, two and two digits in their
    ranges, and a time offset. *)
Definition isDateTime (s : string) : bool :=
  match s with
  | String y1 (String y2 (String y3 (String y4 (String d1
      (String m1 (String m2 (String d2
      (String a1 (String a2 (String t
      (String h1 (String h2 (String c1
      (String i1 (String i2 (String c2
      (String s1 (String s2 zone)))))))))))))))))) =>
      match num2 y1 y2, num2 y3 y4, num2 m1 m2, num2 a1 a2 with
      | Some yh, Some yl, Some month, Some day =>
          Ascii.eqb d1 "-" && Ascii.eqb d2 "-" && Ascii.eqb t "T"
          && Ascii.eqb c1 ":" && Ascii.eqb c2 ":"
          && (1 <=? month) && (month <=? 12)
          && (1 <=? day) && (day <=? daysIn (yh * 100 + yl) month)
          && inRange (num2 h1 h2) 0 23
          && inRange (num2 i1 i2) 0 59
          && inRange (num2 s1 s2) 0 60
          && isOffset zone
      | _, _, _, _ => false
      end
  | _ => false
  end.

(** The year of a time in its location. *)
Definition year (t : Time) : Z :=
  fst (fst (TimeFmt.date ((unixSec t + zoneOffset t) / 86400))).

(** Iterating a test over the numbers from [lo], [count] of them. *)
Fixpoint forallZ (P : Z → bool) (lo : Z) (count : nat) : bool :=
  match count with
  | O => true
  | S n => P lo && forallZ P (lo + 1) n
  end.

Definition two (n : Z) : string :=
  String (Byte.of_code (48 + n / 10)) (Str.single (Byte.of_code (48 + n mod 10))).

Definition four (n : Z) : string := two (n / 100) +:+ two (n mod 100).

(** The date of a day of the era of 400 years: the year of the era, the
    month and the day. *)
Definition dateOfEra (doe : Z) : Z * Z * Z :=
  let yoe := (doe - doe / 1460 + doe / 36524 - doe / 146096) / 365 in
  let doy := doe - (365 * yoe + yoe / 4 - yoe / 100) in
  let mp := (5 * doy + 2) / 153 in
  let day := doy - (153 * mp + 2) / 5 + 1 in
  let month := if mp <? 10 then mp + 3 else mp - 9 in
  (yoe + (if month <=? 2 then 1 else 0), month, day).

Definition validDate (ymd : Z * Z * Z) : bool :=
  let '(y, m, d) := ymd in
  (1 <=? m) && (m <=? 12) && (1 <=? d) && (d <=? daysIn y m).

(** *** The instant that a date-time denotes

    The days of the years from the year 0 up to [year], not included: each
    has 365 days and a leap year one more, and among the years from 0 every
    fourth is a leap year, but not every hundredth, and yet every
    four-hundredth. *)
Definition daysBeforeYear (year : Z) : Z :=
  365 * year + (year + 3) / 4 - (year + 99) / 100 + (year + 399) / 400.

(** The days of the months of [year] before [month]. *)
Definition daysBeforeMonth (year month : Z) : Z :=
  fold_right (λ m acc, if m <? month then daysIn year m + acc else acc) 0
    [1; 2; 3; 4; 5; 6; 7; 8; 9; 10; 11].

(** The days from 1970-01-01 to a date. *)
Definition dayNumber (year month day : Z) : Z :=
  daysBeforeYear year + daysBeforeMonth year month + (day - 1)
  - daysBeforeYear 1970.

(** The seconds east of UTC that a time offset stands for. *)
Definition offsetSeconds (zone : string) : option Z :=
  match zone with
  | String z EmptyString => if Ascii.eqb z "Z" then Some 0 else None
  | String sg (String h1 (String h2 (String c (String m1 (String m2 EmptyString))))) =>
      match num2 h1 h2, num2 m1 m2 with
      | Some hours, Some minutes =>
          let seconds := hours * 3600 + minutes * 60 in
          Some (if Ascii.eqb sg "-" then - seconds else seconds)
      | _, _ => None
      end
  | _ => None
  end.

(** What a date-time of RFC 3339 denotes: the instant, in seconds since
    1970-01-01T00:00:00Z, and the offset of its local time, in seconds east
    of UTC.  The date and the time of day are local: the instant is that
    many seconds earlier than what they read. *)
Definition instant (s : string) : option (Z * Z) :=
  if isDateTime s then
    match s with
    | String y1 (String y2 (String y3 (String y4 (String d1
        (String m1 (String m2 (String d2
        (String a1 (String a2 (String t
        (String h1 (String h2 (String c1
        (String i1 (String i2 (String c2
        (String s1 (String s2 zone)))))))))))))))))) =>
        match num2 y1 y2, num2 y3 y4, num2 m1 m2, num2 a1 a2,
              num2 h1 h2, num2 i1 i2, num2 s1 s2, offsetSeconds zone with
        | Some yh, Some yl, Some month, Some day,
          Some hour, Some minute, Some second, Some offset =>
            Some (dayNumber (yh * 100 + yl) month day * 86400
                  + hour * 3600 + minute * 60 + second - offset,
                  offset)
        | _, _, _, _, _, _, _, _ => None
        end
    | _ => None
    end
  else None.

End RFC3339.

(** ** [net/url]: [QueryEscape], [Values], [Add], [Encode] *)

Module url.

(** [shouldEscape(c, encodeQueryComponent)]. *)
Definition shouldEscape (c : ascii) : bool :=
  if Byte.isAlnum c then false
  else if Str.mem c "-_.~" then false
  else true.

Definition upperhex (n : Z) : ascii :=
  if n <? 10 then Byte.of_code (48 + n) else Byte.of_code (55 + n).

Fixpoint QueryEscape (s : string) : string :=
  match s with
  | EmptyString => EmptyString
  | String c s' =>
      if Ascii.eqb c " " then String "+" (QueryEscape s')
      else if shouldEscape c then
        String "%" (String (upperhex (Z.shiftr (Byte.code c) 4))
                      (String (upperhex (Z.land (Byte.code c) 15))
                         (QueryEscape s')))
      else String c (QueryEscape s')
  end.

(** What [QueryEscape] writes for one byte. *)
Definition escapeByte (c : ascii) : string :=
  if Ascii.eqb c " " then "+"%string
  else if shouldEscape c then
    String "%" (String (upperhex (Z.shiftr (Byte.code c) 4))
                  (Str.single (upperhex (Z.land (Byte.code c) 15))))
  else Str.single c.

Definition ishex (c : ascii) : bool :=
  Byte.isDigit c || Byte.between "a" "f" c || Byte.between "A" "F" c.

Definition unhex (c : ascii) : Z :=
  if Byte.isDigit c then Byte.code c - 48
  else if Byte.between "a" "f" c then Byte.code c - 97 + 10
  else if Byte.between "A" "F" c then Byte.code c - 65 + 10
  else 0.

(** [url.QueryUnescape], which the client does not call: the reading of an
    escaped text, failing on a percent sign that two hexadecimal digits do
    not follow. *)
Fixpoint QueryUnescape (s : string) : option string :=
  match s with
  | EmptyString => Some EmptyString
  | String c r =>
      if Ascii.eqb c "%" then
        match r with
        | String h1 (String h2 r') =>
            if ishex h1 && ishex h2
            then String (Byte.of_code (Z.lor (Z.shiftl (unhex h1) 4) (unhex h2)))
                   <$> QueryUnescape r'
            else None
        | _ => None
        end
      else if Ascii.eqb c "+" then String " " <$> QueryUnescape r
      else String c <$> QueryUnescape r
  end.

(** [url.Values] is [map[string][]string]. *)
Abbreviation Values := (gmap string (list string)).

(** [v.Add(key, value)]: [v[key] = append(v[key], value)]. *)
Definition Add (v : Values) (key value : string) : Values :=
  <[key := default [] (v !! key) ++ [value]]> v.

(** [slices.Sort(keys)]: byte-wise lexicographic order. *)
Definition sortKeys (keys : list string) : list string :=
  merge_sort (λ a b, String.leb a b) keys.

(** One pass of the inner loop of [Encode], over the values of a key. *)
Definition encodeKey (v : Values) (buf : string) (k : string) : string :=
  let vs := default [] (v !! k) in
  let keyEscaped := QueryEscape k in
  fold_left
    (λ buf x,
       let buf := if 0 <? Str.len buf then buf +:+ "&" else buf in
       buf +:+ keyEscaped +:+ "=" +:+ QueryEscape x)
    vs buf.

(** [v.Encode()]. *)
Definition Encode (v : Values) : string :=
  if decide (size v = 0%nat) then EmptyString
  else
    let keys := sortKeys (elements (dom v)) in
    fold_left (encodeKey v) keys EmptyString.

End url.

(** ** [io]: the body of a response as a reader

    A reader delivers the bytes of [content] and then ends with the error
    [final]: [io_EOF] when the body is complete, another error when reading
    fails after [content]. *)

Record Reader := mkReader { content : string; final : error }.

Definition isEOF (e : error) : bool :=
  match e with io_EOF => true | _ => false end.

(** [io.ReadAll]: the data read until an error or EOF, and the error unless
    it is EOF. *)
Definition io_ReadAll (r : Reader) : string * option error :=
  (content r, if isEOF (final r) then None else Some (final r)).

(** ** [encoding/json]: the scanner *)

Module json.

#[warnings="-register-all"]
Inductive value : Type :=
| JNull
| JTrue
| JFalse
| JNumber (lit : string)
| JString (raw : string)
| JArray (elems : list value)
| JObject (members : list (string * value)).

(** The parse stack.  Strings are kept as the bytes between their quotes;
    members and elements are accumulated in reverse. *)
Inductive frame : Type :=
| parseObjectKey (ms : list (string * value))
| parseObjectColon (ms : list (string * value)) (key : string)
| parseObjectValue (ms : list (string * value)) (key : string)
| parseObjectNext (ms : list (string * value))
| parseArrayValue (es : list value).

Inductive state : Type :=
| stateBeginValueOrEmpty
| stateBeginValue
| stateBeginStringOrEmpty
| stateBeginString
| stateEndValue
| stateInString (acc : string)
| stateInStringEsc (acc : string)
| stateInStringEscU (seen : nat) (acc : string)
| stateNeg (acc : string)
| state1 (acc : string)
| state0 (acc : string)
| stateDot (acc : string)
| stateDot0 (acc : string)
| stateE (acc : string)
| stateESign (acc : string)
| stateE0 (acc : string)
| stateLit (expect : string) (v : value) (name : string).

(** What a step of the scanner yields: a new state and stack, the end of
    the top-level value, or a syntax error with its context. *)
Inductive res : Type :=
| Cont (st : state) (ps : list frame)
| End (v : value)
| Err (context : string).

Definition maxNestingDepth : Z := 10000.

Definition phasePanicMsg : string :=
  "JSON decoder out of sync - data changing underfoot?".

Definition isSpace (c : ascii) : bool :=
  Ascii.eqb c " " || (Byte.code c =? 9) || (Byte.code c =? 13)
  || (Byte.code c =? 10).

Definition isHex (c : ascii) : bool :=
  Byte.isDigit c || Byte.between "a" "f" c || Byte.between "A" "F" c.

Definition snoc (acc : string) (c : ascii) : string := acc +:+ Str.single c.

Definition pushParseState (f : frame) (ps : list frame) (st : state) : res :=
  if Z.of_nat (length (f :: ps)) <=? maxNestingDepth
  then Cont st (f :: ps)
  else Err "exceeded max depth".

(** A value has been read in the context [ps]. *)
Definition complete (v : value) (ps : list frame) : res :=
  match ps with
  | [] => End v
  | parseObjectKey ms :: r =>
      match v with
      | JString k => Cont stateEndValue (parseObjectColon ms k :: r)
      | _ => Err phasePanicMsg
      end
  | parseObjectValue ms k :: r =>
      Cont stateEndValue (parseObjectNext ((k, v) :: ms) :: r)
  | parseArrayValue es :: r =>
      Cont stateEndValue (parseArrayValue (v :: es) :: r)
  | parseObjectColon _ _ :: _ | parseObjectNext _ :: _ => Err phasePanicMsg
  end.

Definition stepEndValue (ps : list frame) (c : ascii) : res :=
  if isSpace c then Cont stateEndValue ps
  else
    match ps with
    | parseObjectColon ms k :: r =>
        if Ascii.eqb c ":" then Cont stateBeginValue (parseObjectValue ms k :: r)
        else Err "after object key"
    | parseObjectNext ms :: r =>
        if Ascii.eqb c "," then Cont stateBeginString (parseObjectKey ms :: r)
        else if Ascii.eqb c "}" then complete (JObject (rev ms)) r
        else Err "after object key:value pair"
    | parseArrayValue es :: r =>
        if Ascii.eqb c "," then Cont stateBeginValue (parseArrayValue es :: r)
        else if Ascii.eqb c "]" then complete (JArray (rev es)) r
        else Err "after array element"
    | _ => Err phasePanicMsg
    end.

(** A number ends before [c]: the value is complete and [c] is scanned as
    what follows a value. *)
Definition endNumber (acc : string) (ps : list frame) (c : ascii) : res :=
  match complete (JNumber acc) ps with
  | Cont _ ps' => stepEndValue ps' c
  | r => r
  end.

Definition stepBeginValue (ps : list frame) (c : ascii) : res :=
  if Ascii.eqb c "{" then
    pushParseState (parseObjectKey []) ps stateBeginStringOrEmpty
  else if Ascii.eqb c "[" then
    pushParseState (parseArrayValue []) ps stateBeginValueOrEmpty
  else if Ascii.eqb c Byte.dquote then Cont (stateInString EmptyString) ps
  else if Ascii.eqb c "-" then Cont (stateNeg "-") ps
  else if Ascii.eqb c "0" then Cont (state0 "0") ps
  else if Ascii.eqb c "t" then Cont (stateLit "rue" JTrue "true") ps
  else if Ascii.eqb c "f" then Cont (stateLit "alse" JFalse "false") ps
  else if Ascii.eqb c "n" then Cont (stateLit "ull" JNull "null") ps
  else if Byte.between "1" "9" c then Cont (state1 (Str.single c)) ps
  else Err "looking for beginning of value".

Definition stepBeginString (ps : list frame) (c : ascii) : res :=
  if Ascii.eqb c Byte.dquote then Cont (stateInString EmptyString) ps
  else Err "looking for beginning of object key string".

Definition state0_step (acc : string) (ps : list frame) (c : ascii) : res :=
  if Ascii.eqb c "." then Cont (stateDot (snoc acc c)) ps
  else if Ascii.eqb c "e" || Ascii.eqb c "E" then Cont (stateE (snoc acc c)) ps
  else endNumber acc ps c.

Definition stateESign_step (acc : string) (ps : list frame) (c : ascii) : res :=
  if Byte.isDigit c then Cont (stateE0 (snoc acc c)) ps
  else Err "in exponent of numeric literal".

(** [s.step(s, c)]. *)
Definition step (st : state) (ps : list frame) (c : ascii) : res :=
  match st with
  | stateBeginValueOrEmpty =>
      if isSpace c then Cont st ps
      else if Ascii.eqb c "]" then
        match ps with
        | parseArrayValue es :: r => complete (JArray (rev es)) r
        | _ => Err phasePanicMsg
        end
      else stepBeginValue ps c
  | stateBeginValue =>
      if isSpace c then Cont st ps else stepBeginValue ps c
  | stateBeginStringOrEmpty =>
      if isSpace c then Cont st ps
      else if Ascii.eqb c "}" then
        match ps with
        | parseObjectKey ms :: r => complete (JObject (rev ms)) r
        | _ => Err phasePanicMsg
        end
      else stepBeginString ps c
  | stateBeginString =>
      if isSpace c then Cont st ps else stepBeginString ps c
  | stateEndValue => stepEndValue ps c
  | stateInString acc =>
      if Ascii.eqb c Byte.dquote then complete (JString acc) ps
      else if Ascii.eqb c "\" then Cont (stateInStringEsc (snoc acc c)) ps
      else if Byte.code c <? 32 then Err "in string literal"
      else Cont (stateInString (snoc acc c)) ps
  | stateInStringEsc acc =>
      if Str.mem c "bfnrt\/" || Ascii.eqb c Byte.dquote
      then Cont (stateInString (snoc acc c)) ps
      else if Ascii.eqb c "u" then Cont (stateInStringEscU 0 (snoc acc c)) ps
      else Err "in string escape code"
  | stateInStringEscU seen acc =>
      if isHex c then
        match seen with
        | 3%nat => Cont (stateInString (snoc acc c)) ps
        | _ => Cont (stateInStringEscU (S seen) (snoc acc c)) ps
        end
      else Err "in \u hexadecimal character escape"
  | stateNeg acc =>
      if Ascii.eqb c "0" then Cont (state0 (snoc acc c)) ps
      else if Byte.between "1" "9" c then Cont (state1 (snoc acc c)) ps
      else Err "in numeric literal"
  | state1 acc =>
      if Byte.isDigit c then Cont (state1 (snoc acc c)) ps
      else state0_step acc ps c
  | state0 acc => state0_step acc ps c
  | stateDot acc =>
      if Byte.isDigit c then Cont (stateDot0 (snoc acc c)) ps
      else Err "after decimal point in numeric literal"
  | stateDot0 acc =>
      if Byte.isDigit c then Cont (stateDot0 (snoc acc c)) ps
      else if Ascii.eqb c "e" || Ascii.eqb c "E"
      then Cont (stateE (snoc acc c)) ps
      else endNumber acc ps c
  | stateE acc =>
      if Ascii.eqb c "+" || Ascii.eqb c "-" then Cont (stateESign (snoc acc c)) ps
      else stateESign_step acc ps c
  | stateESign acc => stateESign_step acc ps c
  | stateE0 acc =>
      if Byte.isDigit c then Cont (stateE0 (snoc acc c)) ps
      else endNumber acc ps c
  | stateLit expect v name =>
      match expect with
      | String e rest =>
          if Ascii.eqb c e then
            match rest with
            | EmptyString => complete v ps
            | _ => Cont (stateLit rest v name) ps
            end
          else Err ("in literal " +:+ name +:+ " (expecting '"
                    +:+ Str.single e +:+ "')")
      | EmptyString => Err phasePanicMsg
      end
  end.

(** [quoteChar]: how a syntax error shows the offending byte. *)
Definition lowerhex (n : Z) : ascii :=
  if n <? 10 then Byte.of_code (48 + n) else Byte.of_code (87 + n).

Definition isPrintLatin1 (r : Z) : bool :=
  ((32 <=? r) && (r <=? 126))
  || ((161 <=? r) && (r <=? 255) && negb (r =? 173)).

Definition quoteRune (r : Z) : string :=
  if (r =? 34) || (r =? 92) then String "\" (Str.single (Byte.of_code r))
  else if isPrintLatin1 r then
    if r <? 128 then Str.single (Byte.of_code r)
    else String (Byte.of_code (Z.lor 192 (Z.shiftr r 6)))
           (Str.single (Byte.of_code (Z.lor 128 (Z.land r 63))))
  else if r =? 7 then "\a"
  else if r =? 8 then "\b"
  else if r =? 12 then "\f"
  else if r =? 10 then "\n"
  else if r =? 13 then "\r"
  else if r =? 9 then "\t"
  else if r =? 11 then "\v"
  else if (r <? 32) || (r =? 127) then
    "\x" +:+ String (lowerhex (Z.shiftr r 4)) (Str.single (lowerhex (Z.land r 15)))
  else
    "\u00" +:+ String (lowerhex (Z.shiftr r 4)) (Str.single (lowerhex (Z.land r 15))).

Definition quoteChar (c : ascii) : string :=
  if Ascii.eqb c "'" then "'\''"
  else if Ascii.eqb c Byte.dquote then String "'" (String Byte.dquote "'")
  else "'" +:+ quoteRune (Byte.code c) +:+ "'".

(** [s.error(c, context)], with the count of bytes scanned so far. *)
Definition syntaxError (c : ascii) (context : string) (bytes : Z) : error :=
  json_SyntaxError
    ("invalid character " +:+ quoteChar c +:+ " " +:+ context) bytes.

(** The scan of [Decoder.readValue] over the bytes delivered so far: the
    first value with the bytes that follow it, a syntax error, or the state
    in which the bytes ran out. *)
Inductive scanned : Type :=
| Value (v : value) (rest : string)
| Invalid (e : error)
| Pending (st : state) (ps : list frame).

(** The states inside a number that may be its last: a number has no byte
    that closes it, it ends at the first byte that cannot continue it. *)
Definition inNumber (st : state) : bool :=
  match st with
  | state1 _ | state0 _ | stateDot0 _ | stateE0 _ => true
  | _ => false
  end.

(** The byte that ends a number at the top level is not part of it: it
    stays among the bytes that follow the value. *)
Fixpoint scanBytes (st : state) (ps : list frame) (bytes : Z) (input : string)
  : scanned :=
  match input with
  | EmptyString => Pending st ps
  | String c rest =>
      match step st ps c with
      | Cont st' ps' => scanBytes st' ps' (bytes + 1) rest
      | End v =>
          Value v (match ps with
                   | [] => if inNumber st then input else rest
                   | _ :: _ => rest
                   end)
      | Err context => Invalid (syntaxError c context (bytes + 1))
      end
  end.

Fixpoint nonSpace (b : string) : bool :=
  match b with
  | EmptyString => false
  | String c rest => negb (isSpace c) || nonSpace rest
  end.

(** An object and an array end at their closing byte: there the decoder
    invents the space that ends the value.  A string and a literal end at
    the byte after their last one, or at the end of the input. *)
Definition closesItself (v : value) : bool :=
  match v with
  | JObject _ | JArray _ => true
  | _ => false
  end.

(** [dec.readValue()]: the first JSON value of the stream.  What follows it
    is left unread.  The error of the read is looked at when the bytes
    delivered are used up and the value has not ended: so also after the
    last byte of a string or a literal that nothing follows. *)
Definition readValue (r : Reader) : error + value :=
  match scanBytes stateBeginValue [] 0 (content r) with
  | Value v rest =>
      if closesItself v || negb (Str.isEmpty rest) || isEOF (final r)
      then inr v
      else inl (final r)
  | Invalid e => inl e
  | Pending st ps =>
      if isEOF (final r) then
        match step st ps " " with
        | End v => inr v
        | _ => if nonSpace (content r) then inl io_ErrUnexpectedEOF
               else inl io_EOF
        end
      else inl (final r)
  end.

(** [json.Valid]: the text is one JSON value, with white space at most
    before and after it. *)
Definition Valid (data : string) : bool :=
  match scanBytes stateBeginValue [] 0 data with
  | Value _ rest => negb (nonSpace rest)
  | Invalid _ => false
  | Pending st ps =>
      match step st ps " " with
      | End _ => true
      | _ => false
      end
  end.

(** *** Unquoting a string literal

    [unquote] resolves the escapes of the bytes between the quotes and
    coerces the result to well-formed UTF-8: a byte that starts no valid
    sequence, and a surrogate half without its other half, become U+FFFD.  It
    fails on what the scanner does not let through. *)

Definition replacementChar : Z := 65533.

Definition bytes2 (a b : Z) : string :=
  String (Byte.of_code a) (Str.single (Byte.of_code b)).

(** [utf8.EncodeRune]. *)
Definition encodeRune (r : Z) : string :=
  let tail n := Z.lor 128 (Z.land n 63) in
  let replacement := String (Byte.of_code 239) (bytes2 191 189) in
  if r <? 0 then replacement
  else if r <? 128 then Str.single (Byte.of_code r)
  else if r <? 2048 then bytes2 (Z.lor 192 (Z.shiftr r 6)) (tail r)
  else if ((55296 <=? r) && (r <=? 57343)) || (1114111 <? r) then replacement
  else if r <? 65536 then
    String (Byte.of_code (Z.lor 224 (Z.shiftr r 12)))
      (bytes2 (tail (Z.shiftr r 6)) (tail r))
  else
    bytes2 (Z.lor 240 (Z.shiftr r 18)) (tail (Z.shiftr r 12))
    +:+ bytes2 (tail (Z.shiftr r 6)) (tail r).

Definition inRange (lo hi : Z) (c : ascii) : bool :=
  (lo <=? Byte.code c) && (Byte.code c <=? hi).

(** For a string that starts with a byte above 127: the number of bytes
    that follow the first one in the sequence it starts, when that sequence
    is valid UTF-8. *)
Definition validTail (s : string) : option nat :=
  match s with
  | String c0 r =>
      let b0 := Byte.code c0 in
      if (194 <=? b0) && (b0 <=? 223) then
        match r with
        | String c1 _ => if inRange 128 191 c1 then Some 1%nat else None
        | _ => None
        end
      else if (224 <=? b0) && (b0 <=? 239) then
        match r with
        | String c1 (String c2 _) =>
            let lo := if b0 =? 224 then 160 else 128 in
            let hi := if b0 =? 237 then 159 else 191 in
            if inRange lo hi c1 && inRange 128 191 c2 then Some 2%nat else None
        | _ => None
        end
      else if (240 <=? b0) && (b0 <=? 244) then
        match r with
        | String c1 (String c2 (String c3 _)) =>
            let lo := if b0 =? 240 then 144 else 128 in
            let hi := if b0 =? 244 then 143 else 191 in
            if inRange lo hi c1 && inRange 128 191 c2 && inRange 128 191 c3
            then Some 3%nat else None
        | _ => None
        end
      else None
  | EmptyString => None
  end.

Definition hexVal (c : ascii) : Z :=
  if Byte.isDigit c then Byte.code c - 48
  else if Byte.between "a" "f" c then Byte.code c - 87
  else if Byte.between "A" "F" c then Byte.code c - 55
  else -1.

(** [getu4]: the code unit of an escape of the form backslash, u and four
    hexadecimal digits at the start of [s], or -1. *)
Definition getu4 (s : string) : Z :=
  match s with
  | String b (String u (String h1 (String h2 (String h3 (String h4 _))))) =>
      if Ascii.eqb b "\" && Ascii.eqb u "u"
         && isHex h1 && isHex h2 && isHex h3 && isHex h4
      then ((hexVal h1 * 16 + hexVal h2) * 16 + hexVal h3) * 16 + hexVal h4
      else -1
  | _ => -1
  end.

Definition isSurrogate (r : Z) : bool := (55296 <=? r) && (r <? 57344).

(** [utf16.DecodeRune]. *)
Definition decodeSurrogates (r1 r2 : Z) : Z :=
  if (55296 <=? r1) && (r1 <? 56320) && (56320 <=? r2) && (r2 <? 57344)
  then Z.lor (Z.shiftl (r1 - 55296) 10) (r2 - 56320) + 65536
  else replacementChar.

Definition escapeByte (e : ascii) : option ascii :=
  if Ascii.eqb e Byte.dquote || Ascii.eqb e "\" || Ascii.eqb e "/"
     || Ascii.eqb e "'" then Some e
  else if Ascii.eqb e "b" then Some (Byte.of_code 8)
  else if Ascii.eqb e "f" then Some (Byte.of_code 12)
  else if Ascii.eqb e "n" then Some (Byte.of_code 10)
  else if Ascii.eqb e "r" then Some (Byte.of_code 13)
  else if Ascii.eqb e "t" then Some (Byte.of_code 9)
  else None.

(** [copy] counts the bytes still to take over from a multi-byte sequence
    already found valid. *)
Fixpoint unquoteFrom (copy : nat) (s : string) : option string :=
  match s with
  | EmptyString => Some EmptyString
  | String c r =>
      match copy with
      | S k => String c <$> unquoteFrom k r
      | O =>
          if Ascii.eqb c "\" then
            match r with
            | EmptyString => None
            | String e r1 =>
                if Ascii.eqb e "u" then
                  let rr := getu4 s in
                  match r1 with
                  | String _ (String _ (String _ (String _ r4))) =>
                      if rr <? 0 then None
                      else if isSurrogate rr then
                        let dec := decodeSurrogates rr (getu4 r4) in
                        match r4 with
                        | String _ (String _ (String _
                            (String _ (String _ (String _ r10))))) =>
                            if dec =? replacementChar
                            then String.append (encodeRune replacementChar)
                                   <$> unquoteFrom 0 r4
                            else String.append (encodeRune dec)
                                   <$> unquoteFrom 0 r10
                        | _ => String.append (encodeRune replacementChar)
                                 <$> unquoteFrom 0 r4
                        end
                      else String.append (encodeRune rr) <$> unquoteFrom 0 r4
                  | _ => None
                  end
                else
                  match escapeByte e with
                  | Some b => String b <$> unquoteFrom 0 r1
                  | None => None
                  end
            end
          else if Ascii.eqb c Byte.dquote || (Byte.code c <? 32) then None
          else if Byte.code c <? 128 then String c <$> unquoteFrom 0 r
          else
            match validTail s with
            | Some k => String c <$> unquoteFrom k r
            | None => String.append (encodeRune replacementChar)
                        <$> unquoteFrom 0 r
            end
      end
  end.

Definition unquote (raw : string) : option string := unquoteFrom 0 raw.

(** *** [strconv.ParseInt(s, 10, 64)] on the text of a JSON number *)

Fixpoint allDigits (s : string) : bool :=
  match s with
  | EmptyString => true
  | String c r => Byte.isDigit c && allDigits r
  end.

Fixpoint digitsValue (acc : Z) (s : string) : Z :=
  match s with
  | EmptyString => acc
  | String c r => digitsValue (acc * 10 + (Byte.code c - 48)) r
  end.

Definition ParseInt (s : string) : option Z :=
  let '(neg, digits) :=
    match s with
    | String c r => if Ascii.eqb c "-" then (true, r) else (false, s)
    | EmptyString => (false, s)
    end in
  if Str.isEmpty digits || negb (allDigits digits) then None
  else
    let n := digitsValue 0 digits in
    let n := if neg then - n else n in
    if (- 2 ^ 63 <=? n) && (n <=? 2 ^ 63 - 1) then Some n else None.

(** *** Matching a key with the name of a field

    A key selects the field whose name it equals, or else the field whose
    name it equals under simple case folding ([bytes.EqualFold]).  The names
    of the fields are ASCII, and the only runes outside ASCII that fold to
    an ASCII letter are U+017F, to s, and U+212A, to k; other runes are kept
    as they are, which changes no comparison with an ASCII name. *)

Fixpoint foldName (s : string) : string :=
  match s with
  | EmptyString => EmptyString
  | String c r =>
      if Byte.between "a" "z" c
      then String (Byte.of_code (Byte.code c - 32)) (foldName r)
      else
        match r with
        | String d r' =>
            if (Byte.code c =? 197) && (Byte.code d =? 191)
            then String "S" (foldName r')
            else
              match r' with
              | String e r'' =>
                  if (Byte.code c =? 226) && (Byte.code d =? 132)
                     && (Byte.code e =? 170)
                  then String "K" (foldName r'')
                  else String c (foldName r)
              | EmptyString => String c (foldName r)
              end
        | EmptyString => String c (foldName r)
        end
  end.

Definition findField {F : Type} (fields : list (string * F)) (key : string)
  : option (string * F) :=
  match List.find (λ f, String.eqb (fst f) key) fields with
  | Some f => Some f
  | None =>
      List.find (λ f, String.eqb (foldName (fst f)) (foldName key)) fields
  end.

End json.

(** ** The data model of client.go *)

(** The zero [time.Time]: January 1 of the year 1, 00:00:00 UTC. *)
Definition zeroTime : Time := mkTime (-62135596800) 0 0.

Module Source.
Record t := mk { Name : string; URL : string }.
Definition zero : t := mk EmptyString EmptyString.
End Source.

Module Article.
Record t := mk {
  Title : string;
  Description : string;
  Category : string;
  Content : string;
  Country : string;
  Region : string;
  Lang : string;
  Sentiment : string;
  URL : string;
  Image : string;
  PublishedAt : Time;
  Source : Source.t
}.
Definition zero : t :=
  mk EmptyString EmptyString EmptyString EmptyString EmptyString EmptyString
     EmptyString EmptyString EmptyString EmptyString zeroTime Source.zero.
End Article.

Module SearchResponse.
Record t := mk {
  TotalArticles : Z;
  CurrentPage : Z;
  NextPage : option Z;
  Articles : list Article.t
}.
Definition zero : t := mk 0 0 None [].
End SearchResponse.

(** ** [encoding/json]: storing a scanned value into [SearchResponse] *)

Module unmarshal.

Import json.

(** [d.errorContext]: the struct type whose field is being decoded and the
    path of field names that leads to it. *)
Record errorContext := mkContext { Struct : option string; FieldStack : list string }.

Definition noContext : errorContext := mkContext None [].

Definition enter (ctx : errorContext) (structName field : string) : errorContext :=
  mkContext (Some structName) (FieldStack ctx ++ [field]).

(** The [UnmarshalTypeError] of a value that does not fit its target, after
    [d.addErrorContext]. *)
Definition typeError (ctx : errorContext) (v : string) (t : GoType) : error :=
  match Struct ctx, FieldStack ctx with
  | None, [] => json_UnmarshalTypeError v t EmptyString EmptyString
  | s, fs =>
      json_UnmarshalTypeError v t (default EmptyString s) (strings_Join fs ".")
  end.

(** The target after a store, the first type error met so far, which
    [d.saveError] keeps while decoding goes on, and the error that stopped
    decoding, if one did. *)
Record stored (A : Type) :=
  mkStored { val : A; savedError : option error; failure : option error }.
Arguments mkStored {A}.
Arguments val {A}.
Arguments savedError {A}.
Arguments failure {A}.

Definition ok {A} (a : A) (saved : option error) : stored A :=
  mkStored a saved None.

Definition saveError (saved : option error) (e : error) : option error :=
  match saved with
  | None => Some e
  | Some _ => saved
  end.

Definition mapStored {A B} (f : A → B) (r : stored A) : stored B :=
  mkStored (f (val r)) (savedError r) (failure r).

Definition panic {A} (a : A) (saved : option error) : stored A :=
  mkStored a saved (Some (errorString phasePanicMsg)).

Definition kindName (j : value) : string :=
  match j with
  | JNull => "null"
  | JTrue | JFalse => "bool"
  | JNumber _ => "number"
  | JString _ => "string"
  | JArray _ => "array"
  | JObject _ => "object"
  end.

Definition store_string (ctx : errorContext) (j : value) (cur : string)
    (saved : option error) : stored string :=
  match j with
  | JNull => ok cur saved
  | JString raw =>
      match unquote raw with
      | Some s => ok s saved
      | None => panic cur saved
      end
  | _ => ok cur (saveError saved (typeError ctx (kindName j) T_string))
  end.

Definition store_int (ctx : errorContext) (j : value) (cur : Z)
    (saved : option error) : stored Z :=
  match j with
  | JNull => ok cur saved
  | JNumber lit =>
      match ParseInt lit with
      | Some n => ok n saved
      | None => ok cur (saveError saved (typeError ctx ("number " +:+ lit) T_int))
      end
  | _ => ok cur (saveError saved (typeError ctx (kindName j) T_int))
  end.

(** A field of type [*int]: null makes it nil, any other value is stored
    into the pointed integer, allocated when the pointer was nil. *)
Definition store_ptr_int (ctx : errorContext) (j : value) (cur : option Z)
    (saved : option error) : stored (option Z) :=
  match j with
  | JNull => ok None saved
  | _ => mapStored Some (store_int ctx j (default 0 cur) saved)
  end.

(** Folds the members of an object into a struct, in their order: a key
    that names no field is skipped with its value. *)
Fixpoint storeMembers {A F : Type} (fields : list (string * F))
    (storeField : A → F → string → value → option error → stored A)
    (ms : list (string * value)) (cur : A) (saved : option error) : stored A :=
  match ms with
  | [] => ok cur saved
  | (rawkey, v) :: rest =>
      match unquote rawkey with
      | None => panic cur saved
      | Some key =>
          match findField fields key with
          | None => storeMembers fields storeField rest cur saved
          | Some (name, f) =>
              let r := storeField cur f name v saved in
              match failure r with
              | Some _ => r
              | None =>
                  storeMembers fields storeField rest (val r) (savedError r)
              end
          end
      end
  end.

Section WithTime.

(** [parseStrictRFC3339] of package time, applied by [Time.UnmarshalJSON] to
    the bytes between the quotes of a JSON string. *)
Variable parseStrictRFC3339 : string → error + Time.

(** A field of type [time.Time] decodes through [Time.UnmarshalJSON]. *)
Definition store_Time (j : value) (cur : Time) (saved : option error)
  : stored Time :=
  match j with
  | JNull => ok cur saved
  | JString raw =>
      match parseStrictRFC3339 raw with
      | inr t => ok t saved
      | inl e => mkStored cur saved (Some e)
      end
  | _ =>
      mkStored cur saved
        (Some (errors_New "Time.UnmarshalJSON: input is not a JSON string"))
  end.

Inductive SourceField := fName | fSourceURL.

Definition Source_fields : list (string * SourceField) :=
  [("name", fName); ("url", fSourceURL)].

Definition store_Source (ctx : errorContext) (j : value) (cur : Source.t)
    (saved : option error) : stored Source.t :=
  match j with
  | JNull => ok cur saved
  | JObject ms =>
      storeMembers Source_fields
        (λ s f name v saved,
           let ctx := enter ctx EmptyString name in
           match f with
           | fName =>
               mapStored (λ x, Source.mk x (Source.URL s))
                 (store_string ctx v (Source.Name s) saved)
           | fSourceURL =>
               mapStored (λ x, Source.mk (Source.Name s) x)
                 (store_string ctx v (Source.URL s) saved)
           end)
        ms cur saved
  | _ => ok cur (saveError saved (typeError ctx (kindName j) T_Source))
  end.

Inductive ArticleField :=
| fTitle | fDescription | fCategory | fContent | fCountry | fRegion | fLang
| fSentiment | fURL | fImage | fPublishedAt | fSource.

Definition Article_fields : list (string * ArticleField) :=
  [("title", fTitle); ("description", fDescription); ("category", fCategory);
   ("content", fContent); ("country", fCountry); ("region", fRegion);
   ("lang", fLang); ("sentiment", fSentiment); ("url", fURL);
   ("image", fImage); ("publishedAt", fPublishedAt); ("source", fSource)].

Definition store_Article_field (ctx : errorContext) (a : Article.t)
    (f : ArticleField) (name : string) (v : value) (saved : option error)
  : stored Article.t :=
  let ctx := enter ctx "Article" name in
  let '(Article.mk title description category content country region lang
          sentiment url image publishedAt source) := a in
  let str cur set := mapStored set (store_string ctx v cur saved) in
  match f with
  | fTitle =>
      str title (λ x, Article.mk x description category content country
                        region lang sentiment url image publishedAt source)
  | fDescription =>
      str description (λ x, Article.mk title x category content country
                              region lang sentiment url image publishedAt source)
  | fCategory =>
      str category (λ x, Article.mk title description x content country
                           region lang sentiment url image publishedAt source)
  | fContent =>
      str content (λ x, Article.mk title description category x country
                          region lang sentiment url image publishedAt source)
  | fCountry =>
      str country (λ x, Article.mk title description category content x
                          region lang sentiment url image publishedAt source)
  | fRegion =>
      str region (λ x, Article.mk title description category content country
                         x lang sentiment url image publishedAt source)
  | fLang =>
      str lang (λ x, Article.mk title description category content country
                       region x sentiment url image publishedAt source)
  | fSentiment =>
      str sentiment (λ x, Article.mk title description category content country
                            region lang x url image publishedAt source)
  | fURL =>
      str url (λ x, Article.mk title description category content country
                      region lang sentiment x image publishedAt source)
  | fImage =>
      str image (λ x, Article.mk title description category content country
                        region lang sentiment url x publishedAt source)
  | fPublishedAt =>
      mapStored
        (λ x, Article.mk title description category content country
                region lang sentiment url image x source)
        (store_Time v publishedAt saved)
  | fSource =>
      mapStored
        (λ x, Article.mk title description category content country
                region lang sentiment url image publishedAt x)
        (store_Source ctx v source saved)
  end.

Definition store_Article (ctx : errorContext) (j : value) (cur : Article.t)
    (saved : option error) : stored Article.t :=
  match j with
  | JNull => ok cur saved
  | JObject ms =>
      storeMembers Article_fields (store_Article_field ctx) ms cur saved
  | _ => ok cur (saveError saved (typeError ctx (kindName j) T_Article))
  end.

(** The elements of an array, stored one by one into the elements of the
    backing array of the slice, [slots]: into the one it has at that index
    when it has one, into a zero [Article] otherwise, which is what a grown
    array holds there.  The result is the elements stored into, up to the
    last of the array or the one at which decoding stopped. *)
Fixpoint store_elems (ctx : errorContext) (es : list value)
    (slots : list Article.t) (saved : option error) : stored (list Article.t) :=
  match es with
  | [] => ok [] saved
  | e :: es' =>
      let r := store_Article ctx e (default Article.zero (head slots)) saved in
      match failure r with
      | Some _ => mapStored (λ a, [a]) r
      | None =>
          mapStored (cons (val r))
            (store_elems ctx es' (tail slots) (savedError r))
      end
  end.

(** The slice once elements have been stored over its backing array
    [cur ++ spare]: at the end of the array its length is set to their
    count; when decoding stopped inside the array, the elements of [cur]
    that were not reached are still in the slice.  What the backing array
    holds beyond the length stays there. *)
Definition setLength (cur spare : list Article.t)
    (r : stored (list Article.t)) : stored (list Article.t * list Article.t) :=
  let live :=
    match failure r with
    | Some _ => val r ++ drop (length (val r)) cur
    | None => val r
    end in
  mapStored (λ _, (live, drop (length live) (cur ++ spare))) r.

(** [d.array] and [d.literalStore] on the slice [Articles].  The slice is
    its elements [cur] and the articles [spare] that its backing array holds
    beyond its length: setting the length does not erase them, and the array
    is only replaced when an element is stored at its capacity, where none is
    left.  An array with elements is stored over [cur ++ spare].  The empty
    array gives a new empty slice and null the nil slice, both without a
    backing array.  Any other value is an error saved, and the slice is not
    touched. *)
Definition store_Articles (ctx : errorContext) (j : value)
    (cur spare : list Article.t) (saved : option error)
  : stored (list Article.t * list Article.t) :=
  match j with
  | JNull => ok ([], []) saved
  | JArray [] => ok ([], []) saved
  | JArray es => setLength cur spare (store_elems ctx es (cur ++ spare) saved)
  | _ =>
      ok (cur, spare) (saveError saved (typeError ctx (kindName j) T_Articles))
  end.

Inductive ResponseField :=
| fTotalArticles | fCurrentPage | fNextPage | fArticles.

Definition SearchResponse_fields : list (string * ResponseField) :=
  [("totalArticles", fTotalArticles); ("currentPage", fCurrentPage);
   ("nextPage", fNextPage); ("articles", fArticles)].

(** A member of the response, stored into the struct; [spare] is what the
    backing array of [Articles] holds beyond its length. *)
Definition store_SearchResponse_field (ctx : errorContext)
    (rs : SearchResponse.t * list Article.t) (f : ResponseField)
    (name : string) (v : value) (saved : option error)
  : stored (SearchResponse.t * list Article.t) :=
  let ctx := enter ctx "SearchResponse" name in
  let '(SearchResponse.mk total current next articles, spare) := rs in
  match f with
  | fTotalArticles =>
      mapStored (λ x, (SearchResponse.mk x current next articles, spare))
        (store_int ctx v total saved)
  | fCurrentPage =>
      mapStored (λ x, (SearchResponse.mk total x next articles, spare))
        (store_int ctx v current saved)
  | fNextPage =>
      mapStored (λ x, (SearchResponse.mk total current x articles, spare))
        (store_ptr_int ctx v next saved)
  | fArticles =>
      mapStored (λ x, (SearchResponse.mk total current next (fst x), snd x))
        (store_Articles ctx v articles spare saved)
  end.

(** The struct given to the decoder has a slice [Articles] with nothing
    beyond its length: so has the zero response that [Search] and
    [Headlines] declare. *)
Definition store_SearchResponse (ctx : errorContext) (j : value)
    (cur : SearchResponse.t) (saved : option error) : stored SearchResponse.t :=
  match j with
  | JNull => ok cur saved
  | JObject ms =>
      mapStored fst
        (storeMembers SearchResponse_fields (store_SearchResponse_field ctx)
           ms (cur, []) saved)
  | _ => ok cur (saveError saved (typeError ctx (kindName j) T_SearchResponse))
  end.

(** [d.unmarshal(v)] on a pointer to [cur]: the struct as decoding leaves it
    and the error returned, the one that stopped decoding or else the first
    one saved. *)
Definition unmarshalValue (j : value) (cur : SearchResponse.t)
  : SearchResponse.t * option error :=
  let r := store_SearchResponse noContext j cur None in
  (val r, match failure r with Some e => Some e | None => savedError r end).

(** [json.NewDecoder(body).Decode(&cur)]. *)
Definition Decode (body : Reader) (cur : SearchResponse.t)
  : SearchResponse.t * option error :=
  match readValue body with
  | inl e => (cur, Some e)
  | inr j => unmarshalValue j cur
  end.

End WithTime.

End unmarshal.

(** ** The shape of [SearchResponse]

    What a JSON value has to be for the decoder to store it without an
    error.  No function of the client tests it: it is what the outcome of
    decoding is measured against.  Null fits everywhere, and so does a member
    whose key names no field. *)

Module Shape.

Import json.

Definition text (j : value) : bool :=
  match j with
  | JNull => true
  | JString raw => match unquote raw with Some _ => true | None => false end
  | _ => false
  end.

(** A number fits an [int] when it is written as an integer of 64 bits. *)
Definition integer (j : value) : bool :=
  match j with
  | JNull => true
  | JNumber lit => match ParseInt lit with Some _ => true | None => false end
  | _ => false
  end.

Definition time (parse : string → error + Time) (j : value) : bool :=
  match j with
  | JNull => true
  | JString raw => match parse raw with inr _ => true | inl _ => false end
  | _ => false
  end.

Definition members {F : Type} (fields : list (string * F))
    (field : F → value → bool) (ms : list (string * value)) : bool :=
  forallb
    (λ m, match unquote (fst m) with
          | None => false
          | Some key =>
              match findField fields key with
              | None => true
              | Some (_, f) => field f (snd m)
              end
          end) ms.

Definition object {F : Type} (fields : list (string * F))
    (field : F → value → bool) (j : value) : bool :=
  match j with
  | JNull => true
  | JObject ms => members fields field ms
  | _ => false
  end.

Definition source : value → bool :=
  object unmarshal.Source_fields (λ _ v, text v).

Definition article (parse : string → error + Time) : value → bool :=
  object unmarshal.Article_fields
    (λ f v, match f with
            | unmarshal.fPublishedAt => time parse v
            | unmarshal.fSource => source v
            | _ => text v
            end).

Definition articles (parse : string → error + Time) (j : value) : bool :=
  match j with
  | JNull => true
  | JArray es => forallb (article parse) es
  | _ => false
  end.

Definition response (parse : string → error + Time) : value → bool :=
  object unmarshal.SearchResponse_fields
    (λ f v, match f with
            | unmarshal.fArticles => articles parse v
            | _ => integer v
            end).

(** A store that met no error: none that it saved, none that stopped it. *)
Definition clean {A : Type} (r : unmarshal.stored A) : Prop :=
  unmarshal.failure r = None ∧ unmarshal.savedError r = None.

End Shape.

(** A byte that can begin a JSON value. *)
Definition beginsValue (c : ascii) : bool :=
  Str.mem c "{[-0123456789tfn" || Ascii.eqb c Byte.dquote.

(** The bytes that a literal still expects hold no space: so it is of every
    state that the scanner reaches. *)
Definition expectsNoSpace (st : json.state) : Prop :=
  match st with
  | json.stateLit expect _ _ => Str.mem " " expect = false
  | _ => True
  end.

(** ** The client *)

(** A value of type [interface{}], as the date options hold it: nil, a
    string, a [time.Time], or a value of another dynamic type. *)
Inductive any : Type :=
| any_nil
| any_string (s : string)
| any_Time (t : Time)
| any_int (n : Z)
| any_bool (b : bool)
| any_bytes (b : string)
| any_ptr_string (p : option string)
| any_ptr_Time (p : option Time)
| any_defined_string (typeName : string) (s : string).

Module SearchOptions.
Record t := mk {
  Query : string;
  StartDate : any;
  EndDate : any;
  Content : option bool;
  Lang : list string;
  Country : list string;
  Region : list string;
  Category : list string;
  Max : Z;
  Attributes : list string;
  Page : Z;
  SortBy : string;
  Publisher : list string;
  Format : string
}.
(** The zero value [SearchOptions{}]. *)
Definition zero : t :=
  mk EmptyString any_nil any_nil None [] [] [] [] 0 [] 0 EmptyString []
     EmptyString.
End SearchOptions.

(** [http.Client], of which the client sets the timeout, a [time.Duration]
    in nanoseconds. *)
Record http_Client := mkHttpClient { Timeout : Z }.

Record Client := mkClient {
  apiKey : string;
  baseURL : string;
  httpClient : http_Client
}.

Definition ClientOption : Type := Client → Client.

Definition WithBaseURL (baseURL : string) : ClientOption :=
  λ c, mkClient (apiKey c) baseURL (httpClient c).

Definition WithTimeout (timeout : Z) : ClientOption :=
  λ c, mkClient (apiKey c) (baseURL c) (mkHttpClient timeout).

Definition Second : Z := 1000000000.

Definition NewClient (apiKey : string) (options : list ClientOption)
  : option Client * option error :=
  if Str.isEmpty apiKey then (None, Some (errors_New "API key is required"))
  else
    let client :=
      mkClient apiKey "https://api.allnewsapi.com" (mkHttpClient (30 * Second)) in
    let client := fold_left (λ client option, option client) options client in
    (Some client, None).

(** *** What the client consumes: the HTTP stack and the parser of time *)

Record Request := mkRequest { Method : string; URL : string }.

Record Response := mkResponse { StatusCode : Z; Body : Reader }.

Record Platform := mkPlatform {
  (** the failure of [url.Parse] on the text of a URL, if it fails *)
  url_Parse : string → option error;
  (** the method [Do] of [http.Client]: the response received, or the
      transport error *)
  Do : http_Client → Request → error + Response;
  (** [parseStrictRFC3339] of package time *)
  parseStrictRFC3339 : string → error + Time
}.

(** [http.NewRequest(method, url, nil)] with a valid method. *)
Definition http_NewRequest (P : Platform) (method url : string) : error + Request :=
  match url_Parse P url with
  | Some err => inl err
  | None => inr (mkRequest method url)
  end.

Definition StatusOK : Z := 200.

(** [fmt.Errorf(prefix + verb w, err)]. *)
Definition Errorf_w (prefix : string) (err : error) : error :=
  wrapError (prefix +:+ Error err) err.

(** What a call does on the network, in order. *)
Inductive Event : Type :=
| evDo (hc : http_Client) (req : Request)
| evClose.

(** What a call returns, a pointer to a response and an error, with the
    events of the call. *)
Definition Outcome : Type := (option SearchResponse.t * option error) * list Event.

Local Notation "'try' x := e 'in' k" :=
  (match e with inl err => inl err | inr x => k end)
  (at level 10, x name, e at level 100, k at level 200, only parsing).

Import SearchOptions.

(** The switch on the dynamic type of a date option. *)
Definition startDate_of (v : any) : error + string :=
  match v with
  | any_string v => inr v
  | any_Time v => inr (TimeFmt.Format_RFC3339 v)
  | _ => inl (errors_New "startDate must be string or time.Time")
  end.

Definition endDate_of (v : any) : error + string :=
  match v with
  | any_string v => inr v
  | any_Time v => inr (TimeFmt.Format_RFC3339 v)
  | _ => inl (errors_New "endDate must be string or time.Time")
  end.

Definition isNil (v : any) : bool :=
  match v with any_nil => true | _ => false end.

Definition len {A} (l : list A) : Z := Z.of_nat (length l).

(** [Search], from its first line to the last parameter added. *)
Definition Search_params (c : Client) (options : option SearchOptions.t)
  : error + url.Values :=
  let params : url.Values := ∅ in
  let params := url.Add params "apikey" (apiKey c) in
  match options with
  | Some options =>
      let params :=
        if negb (Str.isEmpty (Query options))
        then url.Add params "q" (Query options) else params in
      try params :=
        if negb (isNil (StartDate options)) then
          try startDate := startDate_of (StartDate options) in
          inr (url.Add params "startDate" startDate)
        else inr params in
      try params :=
        if negb (isNil (EndDate options)) then
          try endDate := endDate_of (EndDate options) in
          inr (url.Add params "endDate" endDate)
        else inr params in
      let params :=
        match Content options with
        | Some b =>
            if b then url.Add params "content" "true"
            else url.Add params "content" "false"
        | None => params
        end in
      let params :=
        if 0 <? len (Lang options)
        then url.Add params "lang" (strings_Join (Lang options) ",")
        else params in
      let params :=
        if 0 <? len (Country options)
        then url.Add params "country" (strings_Join (Country options) ",")
        else params in
      let params :=
        if 0 <? len (Region options)
        then url.Add params "region" (strings_Join (Region options) ",")
        else params in
      let params :=
        if 0 <? len (Category options)
        then url.Add params "category" (strings_Join (Category options) ",")
        else params in
      let params :=
        if 0 <? len (Attributes options)
        then url.Add params "attributes" (strings_Join (Attributes options) ",")
        else params in
      let params :=
        if 0 <? len (Publisher options)
        then url.Add params "publisher" (strings_Join (Publisher options) ",")
        else params in
      let params :=
        if 0 <? Max options
        then url.Add params "max" (Sprintf_d (Max options)) else params in
      let params :=
        if 0 <? Page options
        then url.Add params "page" (Sprintf_d (Page options)) else params in
      let params :=
        if negb (Str.isEmpty (SortBy options))
        then url.Add params "sortby" (SortBy options) else params in
      let params :=
        if negb (Str.isEmpty (Format options))
        then url.Add params "format" (Format options) else params in
      inr params
  | None => inr params
  end.

(** [Headlines], from its first line to the last parameter added. *)
Definition Headlines_params (c : Client) (options : option SearchOptions.t)
  : error + url.Values :=
  let params : url.Values := ∅ in
  let params := url.Add params "apikey" (apiKey c) in
  match options with
  | Some options =>
      let params :=
        if negb (Str.isEmpty (Query options))
        then url.Add params "q" (Query options) else params in
      try params :=
        if negb (isNil (StartDate options)) then
          try startDate := startDate_of (StartDate options) in
          inr (url.Add params "startDate" startDate)
        else inr params in
      try params :=
        if negb (isNil (EndDate options)) then
          try endDate := endDate_of (EndDate options) in
          inr (url.Add params "endDate" endDate)
        else inr params in
      let params :=
        match Content options with
        | Some b =>
            if b then url.Add params "content" "true"
            else url.Add params "content" "false"
        | None => params
        end in
      let params :=
        if 0 <? len (Lang options)
        then url.Add params "lang" (strings_Join (Lang options) ",")
        else params in
      let params :=
        if 0 <? len (Country options)
        then url.Add params "country" (strings_Join (Country options) ",")
        else params in
      let params :=
        if 0 <? len (Region options)
        then url.Add params "region" (strings_Join (Region options) ",")
        else params in
      let params :=
        if 0 <? len (Category options)
        then url.Add params "category" (strings_Join (Category options) ",")
        else params in
      let params :=
        if 0 <? len (Attributes options)
        then url.Add params "attributes" (strings_Join (Attributes options) ",")
        else params in
      let params :=
        if 0 <? len (Publisher options)
        then url.Add params "publisher" (strings_Join (Publisher options) ",")
        else params in
      let params :=
        if 0 <? Max options
        then url.Add params "max" (Sprintf_d (Max options)) else params in
      let params :=
        if 0 <? Page options
        then url.Add params "page" (Sprintf_d (Page options)) else params in
      let params :=
        if negb (Str.isEmpty (SortBy options))
        then url.Add params "sortby" (SortBy options) else params in
      let params :=
        if negb (Str.isEmpty (Format options))
        then url.Add params "format" (Format options) else params in
      inr params
  | None => inr params
  end.

(** [fmt.Sprintf] of the request URL. *)
Definition Search_url (c : Client) (params : url.Values) : string :=
  baseURL c +:+ "/v1/search?" +:+ url.Encode params.

Definition Headlines_url (c : Client) (params : url.Values) : string :=
  baseURL c +:+ "/v1/headlines?" +:+ url.Encode params.

(** [Search], from the request to the result. *)
Definition Search_request (P : Platform) (c : Client) (searchURL : string)
  : Outcome :=
  match http_NewRequest P "GET" searchURL with
  | inl err => ((None, Some (Errorf_w "error creating request: " err)), [])
  | inr req =>
      match Do P (httpClient c) req with
      | inl err =>
          ((None, Some (Errorf_w "error making request: " err)),
           [evDo (httpClient c) req])
      | inr resp =>
          let events := [evDo (httpClient c) req; evClose] in
          if negb (StatusCode resp =? StatusOK) then
            let '(body, _) := io_ReadAll (Body resp) in
            ((None,
              Some (errors_New ("API error (status "
                                +:+ Sprintf_d (StatusCode resp) +:+ "): "
                                +:+ body))),
             events)
          else
            let '(searchResponse, err) :=
              unmarshal.Decode (parseStrictRFC3339 P) (Body resp)
                SearchResponse.zero in
            match err with
            | Some err =>
                ((None, Some (Errorf_w "error parsing response: " err)), events)
            | None => ((Some searchResponse, None), events)
            end
      end
  end.

(** [Headlines], from the request to the result. *)
Definition Headlines_request (P : Platform) (c : Client) (headlinesURL : string)
  : Outcome :=
  match http_NewRequest P "GET" headlinesURL with
  | inl err => ((None, Some (Errorf_w "error creating request: " err)), [])
  | inr req =>
      match Do P (httpClient c) req with
      | inl err =>
          ((None, Some (Errorf_w "error making request: " err)),
           [evDo (httpClient c) req])
      | inr resp =>
          let events := [evDo (httpClient c) req; evClose] in
          if negb (StatusCode resp =? StatusOK) then
            let '(body, _) := io_ReadAll (Body resp) in
            ((None,
              Some (errors_New ("API error (status "
                                +:+ Sprintf_d (StatusCode resp) +:+ "): "
                                +:+ body))),
             events)
          else
            let '(searchResponse, err) :=
              unmarshal.Decode (parseStrictRFC3339 P) (Body resp)
                SearchResponse.zero in
            match err with
            | Some err =>
                ((None, Some (Errorf_w "error parsing response: " err)), events)
            | None => ((Some searchResponse, None), events)
            end
      end
  end.

(** The method [Search] of [Client]. *)
Definition Search (P : Platform) (c : Client) (options : option SearchOptions.t)
  : Outcome :=
  match Search_params c options with
  | inl err => ((None, Some err), [])
  | inr params => Search_request P c (Search_url c params)
  end.

(** The method [Headlines] of [Client]. *)
Definition Headlines (P : Platform) (c : Client)
    (options : option SearchOptions.t) : Outcome :=
  match Headlines_params c options with
  | inl err => ((None, Some err), [])
  | inr params => Headlines_request P c (Headlines_url c params)
  end.

(** ** A mocked endpoint and sample values *)

(** Every URL parses, every request gets the same response, and a time is
    parsed as the given function tells. *)
Definition mock (status : Z) (body : Reader) : Platform :=
  mkPlatform (λ _, None) (λ _ _, inr (mkResponse status body))
    (λ raw, inl (foreignError ("parsing time " +:+ raw))).

Definition demoClient : Client :=
  mkClient "KEY" "https://api.allnewsapi.com" (mkHttpClient (30 * Second)).

Definition datedOptions : SearchOptions.t :=
  SearchOptions.mk "bit coin" (any_string "2024-01-01")
    (any_Time (mkTime 1709296200 0 19800)) (Some false)
    ["en"; " fr"; "en"]%string [] [] ["tech"]%string 5 [] 0 "relevance" []
    EmptyString.

Definition misusedOptions : SearchOptions.t :=
  SearchOptions.mk EmptyString (any_int 20240101) any_nil None
    [] [] [] [] 0 [] 0 EmptyString [] EmptyString.

(** The parameters of [datedOptions] for [demoClient]. *)
Definition datedParams : url.Values :=
  list_to_map
    [("apikey", ["KEY"]); ("q", ["bit coin"]); ("startDate", ["2024-01-01"]);
     ("endDate", ["2024-03-01T18:00:00+05:30"]); ("content", ["false"]);
     ("lang", ["en, fr,en"]); ("category", ["tech"]); ("max", ["5"]);
     ("sortby", ["relevance"])]%string.

(** The parameters of a call of [demoClient] without options. *)
Definition keyParams : url.Values := {[ "apikey"%string := ["KEY"%string] ]}.

(** A body whose read fails after eight bytes. *)
Definition cutBody : Reader := mkReader "rate lim" io_ErrUnexpectedEOF.

(** A body that ends inside its JSON object. *)
Definition truncatedBody : Reader :=
  mkReader (Str.q "{'totalArticles':2,'currentPage':1,'articles':[{'title':'A'")
    io_EOF.

(** A body with bytes after its JSON object. *)
Definition trailingBody : Reader :=
  mkReader (Str.q "{'totalArticles':2} and more") io_EOF.

(** The request for [u] goes out and is answered by [resp]. *)
Definition answered (P : Platform) (c : Client) (u : string) (resp : Response)
  : Prop :=
  url_Parse P u = None ∧ Do P (httpClient c) (mkRequest "GET" u) = inr resp.

(** The events of a call whose request for [u] was answered. *)
Definition exchange (c : Client) (u : string) : list Event :=
  [evDo (httpClient c) (mkRequest "GET" u); evClose].

(** What C8 says of a call whose response could not be decoded for the
    reason [cause]: both calls, when theirs is the request answered, return
    no response, the error of parsing that wraps [cause], and have made
    their one request. *)
Definition parseFailure (P : Platform) (c : Client)
    (options : option SearchOptions.t) (params : url.Values) (resp : Response)
    (cause : error) : Prop :=
  (answered P c (Search_url c params) resp →
   Search P c options
   = (None,
      Some (wrapError ("error parsing response: " +:+ Error cause) cause),
      exchange c (Search_url c params)))
  ∧ (answered P c (Headlines_url c params) resp →
     Headlines P c options
     = (None,
        Some (wrapError ("error parsing response: " +:+ Error cause) cause),
        exchange c (Headlines_url c params))).

(** The error for a response that is not 200: its status code and the bytes
    read from its body. *)
Definition apiError (resp : Response) : error :=
  errors_New ("API error (status " +:+ Sprintf_d (StatusCode resp) +:+ "): "
              +:+ content (Body resp)).

Definition sampleBody : string :=
  Str.q "{'totalArticles':2,'currentPage':1,'nextPage':null,'articles':[{'title':'A','source':{'name':'S'}}]}".

Definition sampleArticle : Article.t :=
  Article.mk "A" EmptyString EmptyString EmptyString EmptyString EmptyString
    EmptyString EmptyString EmptyString EmptyString zeroTime
    (Source.mk "S" EmptyString).

Definition sampleResponse : SearchResponse.t :=
  SearchResponse.mk 2 1 None [sampleArticle].

(** ** The parameters as a table

    What the options put in the query, entry by entry: a key and, when the
    option is given, its text. *)

Module Table.

Definition dateText (field : string) (v : any) : error + option string :=
  match v with
  | any_nil => inr None
  | any_string s => inr (Some s)
  | any_Time t => inr (Some (TimeFmt.Format_RFC3339 t))
  | _ => inl (errors_New (field +:+ " must be string or time.Time"))
  end.

Definition nonEmpty (s : string) : option string :=
  if Str.isEmpty s then None else Some s.

Definition flagText (b : option bool) : option string :=
  match b with
  | None => None
  | Some true => Some "true"%string
  | Some false => Some "false"%string
  end.

Definition listText (l : list string) : option string :=
  match l with
  | [] => None
  | _ :: _ => Some (strings_Join l ",")
  end.

Definition positive (n : Z) : option string :=
  if 0 <? n then Some (Sprintf_d n) else None.

Definition entries (c : Client) (o : SearchOptions.t) (sd ed : option string)
  : list (string * option string) :=
  [("apikey", Some (apiKey c));
   ("q", nonEmpty (Query o));
   ("startDate", sd);
   ("endDate", ed);
   ("content", flagText (Content o));
   ("lang", listText (Lang o));
   ("country", listText (Country o));
   ("region", listText (Region o));
   ("category", listText (Category o));
   ("attributes", listText (Attributes o));
   ("publisher", listText (Publisher o));
   ("max", positive (Max o));
   ("page", positive (Page o));
   ("sortby", nonEmpty (SortBy o));
   ("format", nonEmpty (Format o))]%string.

Definition addOpt (p : url.Values) (k : string) (ov : option string) : url.Values :=
  match ov with
  | Some v => url.Add p k v
  | None => p
  end.

Definition addAll (l : list (string * option string)) (p : url.Values) : url.Values :=
  fold_left (λ p e, addOpt p (fst e) (snd e)) l p.

(** The text of the first entry of a key. *)
Fixpoint entry (k : string) (l : list (string * option string)) : option string :=
  match l with
  | [] => None
  | (k', ov) :: r => if String.eqb k k' then ov else entry k r
  end.

Definition dateOption (v : any) : option string :=
  match v with
  | any_string s => Some s
  | any_Time t => Some (TimeFmt.Format_RFC3339 t)
  | _ => None
  end.

(** The parameters of an options value, or the error of a date. *)
Definition params (c : Client) (o : SearchOptions.t) : error + url.Values :=
  match dateText "startDate" (StartDate o) with
  | inl e => inl e
  | inr sd =>
      match dateText "endDate" (EndDate o) with
      | inl e => inl e
      | inr ed => inr (addAll (entries c o sd ed) ∅)
      end
  end.

End Table.

(** ** What the claims say of a parameter *)

(** A date option holds a value that is neither nil, nor a string, nor a
    [time.Time]. *)
Definition otherType (v : any) : bool :=
  match v with
  | any_nil | any_string _ | any_Time _ => false
  | _ => true
  end.

(** The parameter of a date option: the string itself, or the time in the
    RFC3339 layout. *)
Definition dateParam (v : any) : option (list string) :=
  match v with
  | any_string s => Some [s]
  | any_Time t => Some [TimeFmt.Format_RFC3339 t]
  | _ => None
  end.

(** The parameter of a list filter: none for an empty list, else the
    elements joined by commas. *)
Definition joined (l : list string) : option (list string) :=
  match l with
  | [] => None
  | _ :: _ => Some [strings_Join l ","]
  end.

(** ** The encoded query, piece by piece *)

Module Wire.

(** The keys of the parameters in the order of [Encode]. *)
Definition sortedKeys : list string :=
  ["apikey"; "attributes"; "category"; "content"; "country"; "endDate";
   "format"; "lang"; "max"; "page"; "publisher"; "q"; "region"; "sortby";
   "startDate"]%string.

(** A piece of a query: the escaped key, an equals sign, the escaped text. *)
Definition pair (k v : string) : string :=
  url.QueryEscape k +:+ "=" +:+ url.QueryEscape v.

(** The pieces of the query of a table: one for each key that has a text,
    in the order of the keys. *)
Definition pairs (l : list (string * option string)) : list string :=
  omap (λ k, pair k <$> Table.entry k l) sortedKeys.

(** The pieces of an encoded query. *)
Definition pieces (query : string) : list string := strings_Split query "&".

(** The buffer of [Encode] after more pieces. *)
Definition joinAmp (buf : string) (l : list string) : string :=
  fold_left
    (λ buf x, (if 0 <? Str.len buf then buf +:+ "&" else buf) +:+ x) l buf.

Definition piecesOf (m : url.Values) (keys : list string) : list string :=
  flat_map (λ k, map (pair k) (default [] (m !! k))) keys.

(** The order of [slices.Sort] on keys. *)
Definition keyLe : relation string := λ a b, String.leb a b.

End Wire.

(** ** The rest of the package *)

(** ** The options of a client, as values

    What an option of the package sets: [WithBaseURL] the base URL,
    [WithTimeout] the timeout of the HTTP client. *)
Inductive Setting : Type :=
| setBaseURL (baseURL : string)
| setTimeout (timeout : Z).

Definition option_of (s : Setting) : ClientOption :=
  match s with
  | setBaseURL baseURL => WithBaseURL baseURL
  | setTimeout timeout => WithTimeout timeout
  end.

(** The base URL that the last [setBaseURL] of a list gives, or [start]. *)
Fixpoint lastBaseURL (start : string) (l : list Setting) : string :=
  match l with
  | [] => start
  | setBaseURL u :: r => lastBaseURL u r
  | setTimeout _ :: r => lastBaseURL start r
  end.

(** The timeout that the last [setTimeout] of a list gives, or [start]. *)
Fixpoint lastTimeout (start : Z) (l : list Setting) : Z :=
  match l with
  | [] => start
  | setBaseURL _ :: r => lastTimeout start r
  | setTimeout d :: r => lastTimeout d r
  end.

(** The base URL that [NewClient] starts from. *)
Definition defaultBaseURL : string := "https://api.allnewsapi.com".

(** The parameter of a text option: none for the empty text. *)
Definition given (s : string) : option (list string) :=
  if Str.isEmpty s then None else Some [s].

(** The piece of a key in the encoded query, when it has one text. *)
Definition pieceOf (params : url.Values) (k : string) : option string :=
  match params !! k with
  | Some [v] => Some (Wire.pair k v)
  | _ => None
  end.

(** A byte that [QueryEscape] writes: a letter, a digit, one of the four
    marks it leaves alone, the percent sign of an escape or the plus sign of
    a space. *)
Definition wireByte (c : ascii) : bool :=
  Byte.isAlnum c || Str.mem c "-_.~%+".

(** Every byte of a text passes the test. *)
Fixpoint allBytes (p : ascii → bool) (s : string) : bool :=
  match s with
  | EmptyString => true
  | String c r => p c && allBytes p r
  end.

(** A platform on which the text of no URL parses. *)
Definition noParse (err : error) : Platform :=
  mkPlatform (λ _, Some err) (λ _ _, inl (foreignError "unreachable"))
    (λ raw, inl (foreignError ("parsing time " +:+ raw))).

(** A platform on which every request fails in transport. *)
Definition noRoute (err : error) : Platform :=
  mkPlatform (λ _, None) (λ _ _, inl err)
    (λ raw, inl (foreignError ("parsing time " +:+ raw))).

(** The request of a call for the URL [u]. *)
Definition requestFor (u : string) : Request := mkRequest "GET" u.

(** A JSON value that is an object or an array. *)
Definition isContainer (j : json.value) : bool :=
  match j with
  | json.JObject _ | json.JArray _ => true
  | _ => false
  end.

(** A JSON value that is neither an object nor null. *)
Definition misfit (j : json.value) : bool :=
  match j with
  | json.JNull | json.JObject _ => false
  | _ => true
  end.

(** The error of a JSON value that does not fit [SearchResponse]. *)
Definition misfitError (j : json.value) : error :=
  json_UnmarshalTypeError (unmarshal.kindName j) T_SearchResponse
    EmptyString EmptyString.

(** A body of white space only. *)
Definition blankBody : Reader :=
  mkReader (String " " (String (Byte.of_code 10) EmptyString)) io_EOF.

(** A body that holds a JSON array. *)
Definition arrayBody : Reader := mkReader "[1, 2]" io_EOF.

(** A body whose object gives a text where the response has a count. *)
Definition misshapenBody : Reader :=
  mkReader (Str.q "{'totalArticles': 'two'}") io_EOF.

(** Options whose start date is the first second of the year 10000, and
    their parameters for [demoClient]. *)
Definition farOptions : SearchOptions.t :=
  SearchOptions.mk EmptyString (any_Time (mkTime 253402300800 0 0)) any_nil None
    [] [] [] [] 0 [] 0 EmptyString [] EmptyString.

Definition farParams : url.Values :=
  list_to_map
    [("apikey", ["KEY"]); ("startDate", ["10000-01-01T00:00:00Z"])]%string.

(** A byte of an encoded query: a byte that [QueryEscape] writes, the
    ampersand between two pieces or the equals sign inside a piece. *)
Definition queryByte (c : ascii) : bool :=
  wireByte c || Ascii.eqb c "&" || Ascii.eqb c "=".

(** Two names of the same field of the response. *)
Definition sameField (a b : unmarshal.ResponseField) : bool :=
  match a, b with
  | unmarshal.fTotalArticles, unmarshal.fTotalArticles
  | unmarshal.fCurrentPage, unmarshal.fCurrentPage
  | unmarshal.fNextPage, unmarshal.fNextPage
  | unmarshal.fArticles, unmarshal.fArticles => true
  | _, _ => false
  end.

(** A member of the object has a key that selects the field [f] of the
    response. *)
Definition namesField (ms : list (string * json.value))
    (f : unmarshal.ResponseField) : bool :=
  existsb
    (λ m, match json.unquote (fst m) with
          | Some key =>
              match json.findField unmarshal.SearchResponse_fields key with
              | Some (_, f') => sameField f' f
              | None => false
              end
          | None => false
          end)
    ms.

(** ** Sample values for the properties of the client *)

(** Settings in which both kinds come, the timeout twice. *)
Definition localSettings : list Setting :=
  [setTimeout (5 * Second); setBaseURL "http://localhost:8080";
   setTimeout (10 * Second)].

(** The client that [NewClient] makes of the key KEY and [localSettings]. *)
Definition localClient : Client :=
  mkClient "KEY" "http://localhost:8080" (mkHttpClient (10 * Second)).

(** An error of [url.Parse]. *)
Definition refused : error :=
  foreignError "net/url: invalid control character in URL".

(** An error of the transport. *)
Definition unreachableHost : error :=
  foreignError "dial tcp 127.0.0.1:8080: connect: connection refused".

(** A parser of time that accepts no text. *)
Definition noTime : string → error + Time :=
  λ raw, inl (foreignError ("parsing time " +:+ raw)).

(** The members of an object that names a field of the response. *)
Definition knownMembers : list (string * json.value) :=
  [("totalArticles"%string, json.JNumber "2")].

(** An array of an article and a null. *)
Definition twoElements : list json.value :=
  [json.JObject [("title"%string, json.JString "A")]; json.JNull].

(** An article within the length of a slice, and one that its backing array
    holds beyond the length. *)
Definition keptArticle : Article.t :=
  Article.mk "A" "d" EmptyString EmptyString EmptyString EmptyString
    EmptyString EmptyString EmptyString EmptyString zeroTime Source.zero.

Definition staleArticle : Article.t :=
  Article.mk "B" EmptyString EmptyString EmptyString EmptyString EmptyString
    EmptyString EmptyString "u" EmptyString zeroTime Source.zero.

(** A body in which the key articles comes three times: two articles, then
    one, then two again. *)
Definition repeatedKeyBody : Reader :=
  mkReader
    (Str.q ("{'articles': [{'title': 'A'}, {'title': 'B', 'url': 'u'}],"
            +:+ " 'articles': [{'description': 'd'}],"
            +:+ " 'articles': [{}, {'lang': 'en'}]}"))
    io_EOF.

(** * Properties *)

Example Join_three : strings_Join ["en"; " fr"; "en"] "," = "en, fr,en"%string.
Proof. reflexivity. Qed.

Example Format_utc :
  TimeFmt.Format_RFC3339 (mkTime 1709296200 0 0) = "2024-03-01T12:30:00Z"%string.
Proof. vm_compute. reflexivity. Qed.

Example Format_east :
  TimeFmt.Format_RFC3339 (mkTime 1709296200 0 19800)
  = "2024-03-01T18:00:00+05:30"%string.
Proof. vm_compute. reflexivity. Qed.

Example Format_west :
  TimeFmt.Format_RFC3339 (mkTime (-1) 0 (-18000))
  = "1969-12-31T18:59:59-05:00"%string.
Proof. vm_compute. reflexivity. Qed.

Example QueryEscape_date :
  url.QueryEscape "2024-03-01T18:00:00+05:30 a,b"
  = "2024-03-01T18%3A00%3A00%2B05%3A30+a%2Cb"%string.
Proof. vm_compute. reflexivity. Qed.

Example Encode_sorted :
  url.Encode (url.Add (url.Add (url.Add ∅ "q" "x y") "apikey" "K") "max" "5")
  = "apikey=K&max=5&q=x+y"%string.
Proof. vm_compute. reflexivity. Qed.

Example readValue_nested :
  json.readValue (mkReader (Str.q "{'a': [1, 2.5e3, true, null, 'x\ny'], 'b': {}}") io_EOF)
  = inr (json.JObject
           [("a"%string,
             json.JArray [json.JNumber "1"; json.JNumber "2.5e3"; json.JTrue;
                          json.JNull; json.JString "x\ny"]);
            ("b"%string, json.JObject [])]).
Proof. vm_compute. reflexivity. Qed.

Example readValue_bad_key :
  json.readValue (mkReader (Str.q "{'a' 1}") io_EOF)
  = inl (json_SyntaxError "invalid character '1' after object key" 6).
Proof. vm_compute. reflexivity. Qed.

Example readValue_empty : json.readValue (mkReader "  " io_EOF) = inl io_EOF.
Proof. vm_compute. reflexivity. Qed.

(** A string and a literal end at the byte after their last one, or at the
    end of the input: a read that fails right after them fails the value.
    An object ends at its closing byte. *)
Example readValue_delayed_end :
  json.readValue (mkReader "true" io_ErrUnexpectedEOF)
  = inl io_ErrUnexpectedEOF
  ∧ json.readValue (mkReader "true " io_ErrUnexpectedEOF) = inr json.JTrue
  ∧ json.readValue (mkReader "true" io_EOF) = inr json.JTrue
  ∧ json.readValue (mkReader "12" io_ErrUnexpectedEOF)
    = inl io_ErrUnexpectedEOF
  ∧ json.readValue (mkReader "12," io_ErrUnexpectedEOF)
    = inr (json.JNumber "12")
  ∧ json.readValue (mkReader "{}" io_ErrUnexpectedEOF) = inr (json.JObject []).
Proof. repeat split; vm_compute; reflexivity. Qed.

(** The byte that ends a number is not lost: what follows a number makes
    the text invalid as it does after any other value. *)
Example Valid_after_number :
  json.Valid "01" = false ∧ json.Valid "1x" = false ∧ json.Valid "1]" = false
  ∧ json.Valid "[1]x" = false ∧ json.Valid "truex" = false
  ∧ json.Valid "1 " = true ∧ json.Valid "1" = true ∧ json.Valid "-1.5e3" = true
  ∧ json.Valid "[1, 2]" = true.
Proof. repeat split; vm_compute; reflexivity. Qed.

(** The key articles three times: the second element of the last array is
    stored over the second article of the first, which the shorter array in
    between left in the backing array. *)
Example repeated_key_reuses_element :
  unmarshal.Decode noTime repeatedKeyBody SearchResponse.zero
  = (SearchResponse.mk 0 0 None
       [keptArticle;
        Article.mk "B" EmptyString EmptyString EmptyString EmptyString
          EmptyString "en" EmptyString "u" EmptyString zeroTime Source.zero],
     None).
Proof. vm_compute. reflexivity. Qed.

Example Valid_sample : json.Valid sampleBody = true.
Proof. vm_compute. reflexivity. Qed.

Example unquote_escapes :
  json.unquote "a\nA\/" = Some (String "a" (String (Byte.of_code 10) "A/")).
Proof. vm_compute. reflexivity. Qed.

(** A key matches its field whatever its case; a key that names no field
    is skipped; a number with a fraction does not fit an [int], and the
    first such error is the one reported. *)
Example Decode_folds_and_skips :
  unmarshal.Decode (parseStrictRFC3339 (mock 200 cutBody))
    (mkReader (Str.q "{'TOTALARTICLES':7,'other':[1,{}],'nextPage':3}") io_EOF)
    SearchResponse.zero
  = (SearchResponse.mk 7 0 (Some 3) [], None).
Proof. vm_compute. reflexivity. Qed.

Example Decode_type_error :
  unmarshal.Decode (parseStrictRFC3339 (mock 200 cutBody))
    (mkReader (Str.q "{'totalArticles':2.5,'currentPage':'x'}") io_EOF)
    SearchResponse.zero
  = (SearchResponse.zero,
     Some (json_UnmarshalTypeError "number 2.5" T_int "SearchResponse"
             "totalArticles")).
Proof. vm_compute. reflexivity. Qed.


Section Lookups.

Implicit Types (p : url.Values) (k v : string).

Lemma lookup_Add_eq p k v : p !! k = None → url.Add p k v !! k = Some [v].
Proof.
  intros Hk. unfold url.Add. rewrite Hk. apply lookup_insert_eq.
Qed.

Lemma lookup_Add_ne p k k' v : k ≠ k' → url.Add p k v !! k' = p !! k'.
Proof.
  intros Hne. unfold url.Add. by rewrite lookup_insert_ne.
Qed.

Lemma lookup_addOpt_ne p k k' ov : k ≠ k' → Table.addOpt p k ov !! k' = p !! k'.
Proof.
  intros Hne. destruct ov; simpl; [by apply lookup_Add_ne | done].
Qed.

Lemma entry_absent k l : k ∉ l.*1 → Table.entry k l = None.
Proof.
  induction l as [|[k' ov] r IH]; [done|].
  rewrite fmap_cons. cbn [fst Table.entry].
  intros Hk. apply not_elem_of_cons in Hk as [Hne Hr].
  destruct (String.eqb_spec k k'); [done | by apply IH].
Qed.

(** With distinct keys, the parameters hold for each key the text of its
    entry, once, and nothing for the other keys. *)
Lemma lookup_addAll l : ∀ p k,
  NoDup l.*1 → (∀ k', k' ∈ l.*1 → p !! k' = None) →
  Table.addAll l p !! k =
    match Table.entry k l with
    | Some v => Some [v]
    | None => p !! k
    end.
Proof.
  induction l as [|[k' ov] r IH]; intros p k Hnd Hfresh; [done|].
  rewrite fmap_cons in Hnd, Hfresh. cbn [fst] in Hnd, Hfresh.
  apply NoDup_cons in Hnd as [Hk' Hnd].
  assert (Hp : p !! k' = None) by (apply Hfresh, elem_of_cons; by left).
  assert (Hfresh' : ∀ k'', k'' ∈ r.*1 → Table.addOpt p k' ov !! k'' = None).
  { intros k'' Hin. rewrite lookup_addOpt_ne.
    - apply Hfresh, elem_of_cons. by right.
    - by intros ->. }
  change (Table.addAll ((k', ov) :: r) p)
    with (Table.addAll r (Table.addOpt p k' ov)).
  rewrite (IH _ k Hnd Hfresh'). cbn [Table.entry].
  destruct (String.eqb_spec k k') as [->|Hne].
  - rewrite (entry_absent _ _ Hk'). destruct ov as [v|]; simpl.
    + by apply lookup_Add_eq.
    + done.
  - destruct (Table.entry k r); [done|]. by apply lookup_addOpt_ne.
Qed.

Lemma step_some p p' k v : p = p' → url.Add p k v = Table.addOpt p' k (Some v).
Proof. by intros ->. Qed.

Lemma step_nonEmpty p p' k s :
  p = p' →
  (if negb (Str.isEmpty s) then url.Add p k s else p)
  = Table.addOpt p' k (Table.nonEmpty s).
Proof. intros ->. unfold Table.nonEmpty. by destruct (Str.isEmpty s). Qed.

Lemma step_flag p p' k (b : option bool) :
  p = p' →
  match b with
  | Some b => if b then url.Add p k "true" else url.Add p k "false"
  | None => p
  end = Table.addOpt p' k (Table.flagText b).
Proof. intros ->. by destruct b as [[]|]. Qed.

Lemma step_list p p' k (l : list string) :
  p = p' →
  (if 0 <? len l then url.Add p k (strings_Join l ",") else p)
  = Table.addOpt p' k (Table.listText l).
Proof. intros ->. by destruct l. Qed.

Lemma step_positive p p' k n :
  p = p' →
  (if 0 <? n then url.Add p k (Sprintf_d n) else p)
  = Table.addOpt p' k (Table.positive n).
Proof. intros ->. unfold Table.positive. by destruct (0 <? n). Qed.

(** A [let] of the source read as one more entry of the table. *)
Lemma let_eq {A T : Type} (E E' : A) (B : A → T) (R : T) :
  E = E' → B E' = R → (let x := E in B x) = R.
Proof. by intros -> <-. Qed.

Lemma start_eq {T : Type} p (v : any) (B : url.Values → error + T) (R : error + T) :
  match Table.dateText "startDate" v with
  | inl e => inl e
  | inr sd => B (Table.addOpt p "startDate" sd)
  end = R →
  match
    (if negb (isNil v) then
       match startDate_of v with
       | inl err => inl err
       | inr startDate => inr (url.Add p "startDate" startDate)
       end
     else inr p)
  with
  | inl err => inl err
  | inr params => B params
  end = R.
Proof. intros <-. by destruct v. Qed.

Lemma end_eq {T : Type} p (v : any) (B : url.Values → error + T) (R : error + T) :
  match Table.dateText "endDate" v with
  | inl e => inl e
  | inr ed => B (Table.addOpt p "endDate" ed)
  end = R →
  match
    (if negb (isNil v) then
       match endDate_of v with
       | inl err => inl err
       | inr endDate => inr (url.Add p "endDate" endDate)
       end
     else inr p)
  with
  | inl err => inl err
  | inr params => B params
  end = R.
Proof. intros <-. by destruct v. Qed.

End Lookups.

Ltac let_step :=
  lazymatch goal with
  | |- (let x := ?E in @?B x) = ?R => refine (let_eq E _ B R _ _)
  end;
  [ first
      [ apply step_nonEmpty; reflexivity
      | apply step_flag; reflexivity
      | apply step_list; reflexivity
      | apply step_positive; reflexivity
      | apply step_some; reflexivity
      | exact eq_refl ]
  | cbv beta ].

Ltac date_step lem :=
  lazymatch goal with
  | |- match (if negb (isNil ?v) then _ else inr ?p) with
       | inl _ => _
       | inr params => @?B params
       end = ?R =>
      refine (lem _ p v B R _)
  end;
  lazymatch goal with
  | |- match ?d with inl _ => _ | inr _ => _ end = _ =>
      destruct d; [reflexivity|]
  end;
  cbv beta iota.

Ltac params_table :=
  do 2 let_step; cbv beta iota; let_step;
  date_step @start_eq; date_step @end_eq;
  repeat let_step; reflexivity.

(** [Search] builds its parameters as the table tells. *)
Lemma Search_params_table c o : Search_params c (Some o) = Table.params c o.
Proof. cbv beta delta [Search_params Table.params]. params_table. Qed.

Lemma Headlines_params_table c o : Headlines_params c (Some o) = Table.params c o.
Proof. cbv beta delta [Headlines_params Table.params]. params_table. Qed.

Lemma entries_NoDup c o sd ed : NoDup (Table.entries c o sd ed).*1.
Proof. apply (bool_decide_unpack _). by vm_compute. Qed.

(** The parameters of the table, key by key. *)
Lemma lookup_table c o sd ed k :
  Table.addAll (Table.entries c o sd ed) ∅ !! k
  = (λ v, [v]) <$> Table.entry k (Table.entries c o sd ed).
Proof.
  rewrite lookup_addAll.
  - by destruct (Table.entry k _).
  - apply entries_NoDup.
  - intros; apply lookup_empty.
Qed.

Lemma dateText_accepted field v :
  otherType v = false →
  Table.dateText field v = inr (Table.dateOption v).
Proof. by destruct v. Qed.

Lemma dateText_rejected field v :
  otherType v = true →
  Table.dateText field v
  = inl (errors_New (field +:+ " must be string or time.Time")).
Proof. by destruct v. Qed.

(** The two calls build their parameters alike, with or without options. *)
Lemma params_alike c options : Headlines_params c options = Search_params c options.
Proof. reflexivity. Qed.

Lemma params_built c o params :
  Search_params c (Some o) = inr params →
  ∃ sd ed,
    Table.dateText "startDate" (StartDate o) = inr sd
    ∧ Table.dateText "endDate" (EndDate o) = inr ed
    ∧ params = Table.addAll (Table.entries c o sd ed) ∅.
Proof.
  rewrite Search_params_table. unfold Table.params.
  destruct (Table.dateText "startDate" _) as [|sd]; [done|].
  destruct (Table.dateText "endDate" _) as [|ed]; [done|].
  intros [= <-]. by exists sd, ed.
Qed.

(** ** Strings *)

Section Strings.

Lemma append_cons c (a b : string) : String c a +:+ b = String c (a +:+ b).
Proof. reflexivity. Qed.

Lemma append_nil_l (b : string) : EmptyString +:+ b = b.
Proof. reflexivity. Qed.

Lemma append_assoc (a b c : string) : (a +:+ b) +:+ c = a +:+ (b +:+ c).
Proof.
  induction a as [|x a IH]; [done|]. rewrite !append_cons. by f_equal.
Qed.

Lemma append_nil_r (a : string) : a +:+ EmptyString = a.
Proof.
  induction a as [|x a IH]; [done|]. rewrite append_cons. by f_equal.
Qed.

Lemma mem_append c a b : Str.mem c (a +:+ b) = Str.mem c a || Str.mem c b.
Proof.
  induction a as [|x a IH]; [done|]. rewrite append_cons. cbn [Str.mem].
  rewrite IH. by rewrite orb_assoc.
Qed.

(** [strings.Join] is the concatenation with separators of the library. *)
Lemma Join_concat l sep : strings_Join l sep = String.concat sep l.
Proof.
  induction l as [|x [|y r] IH]; [done..|].
  cbn [strings_Join String.concat] in *. by rewrite IH.
Qed.

Lemma splitFrom_append cur x rest sep :
  Str.mem sep x = false →
  splitFrom cur (x +:+ rest) sep = splitFrom (cur +:+ x) rest sep.
Proof.
  revert cur. induction x as [|c x IH]; intros cur Hx.
  - by rewrite append_nil_l, append_nil_r.
  - cbn [Str.mem] in Hx. apply orb_false_iff in Hx as [Hc Hx].
    rewrite append_cons. cbn [splitFrom].
    rewrite Ascii.eqb_sym, Hc. rewrite (IH _ Hx).
    by rewrite append_assoc.
Qed.

(** Splitting at the separator what was joined with it gives back the
    elements, as many and in their order, when none holds the separator. *)
Lemma Split_Join (l : list string) (sep : ascii) :
  l ≠ [] → Forall (λ x, Str.mem sep x = false) l →
  strings_Split (strings_Join l (Str.single sep)) sep = l.
Proof.
  unfold strings_Split. intros Hne Hall.
  induction Hall as [|x r Hx Hr IH]; [done|]. clear Hne.
  destruct r as [|y r].
  - cbn [strings_Join]. rewrite <- (append_nil_r x) at 1.
    by rewrite (splitFrom_append _ _ _ _ Hx).
  - change (strings_Join (x :: y :: r) (Str.single sep))
      with (x +:+ String sep (strings_Join (y :: r) (Str.single sep))).
    rewrite (splitFrom_append _ _ _ _ Hx). cbn [splitFrom].
    rewrite Ascii.eqb_refl, append_nil_l. by rewrite IH.
Qed.

(** Two texts cut at their first equals sign are equal part by part. *)
Lemma cut_at_eq (a a' b b' : string) :
  Str.mem "=" a = false → Str.mem "=" a' = false →
  a +:+ "=" +:+ b = a' +:+ "=" +:+ b' → a = a' ∧ b = b'.
Proof.
  revert a'. induction a as [|x a IH]; intros [|y a'] Ha Ha' Heq.
  - rewrite !append_nil_l in Heq. by injection Heq.
  - rewrite append_nil_l, !append_cons in Heq. injection Heq as <- _.
    by cbn in Ha'.
  - rewrite append_nil_l, !append_cons in Heq. injection Heq as -> _.
    by cbn in Ha.
  - rewrite !append_cons in Heq. injection Heq as -> Heq.
    cbn [Str.mem] in Ha, Ha'.
    apply orb_false_iff in Ha as [_ Ha]. apply orb_false_iff in Ha' as [_ Ha'].
    destruct (IH _ Ha Ha' Heq) as [-> ->]. done.
Qed.

End Strings.

(** ** The shape of [Encode] *)

Section EncodeShape.

Implicit Types (m : url.Values) (buf k : string).

Lemma encodeKey_pieces m buf k :
  url.encodeKey m buf k
  = Wire.joinAmp buf (map (Wire.pair k) (default [] (m !! k))).
Proof.
  unfold url.encodeKey, Wire.joinAmp. revert buf.
  induction (default [] (m !! k)) as [|x vs IH]; intros buf; [done|].
  cbn [fold_left map]. by rewrite IH.
Qed.

Lemma fold_encodeKey m keys buf :
  fold_left (url.encodeKey m) keys buf
  = Wire.joinAmp buf (Wire.piecesOf m keys).
Proof.
  revert buf. induction keys as [|k keys IH]; intros buf; [done|].
  cbn [fold_left Wire.piecesOf flat_map]. rewrite IH, encodeKey_pieces.
  unfold Wire.joinAmp. by rewrite fold_left_app.
Qed.

Lemma len_append_pos a b : a ≠ EmptyString → (0 <? Str.len (a +:+ b)) = true.
Proof.
  destruct a as [|c a]; [done|]. intros _. rewrite append_cons.
  apply Z.ltb_lt. unfold Str.len. cbn [String.length]. lia.
Qed.

Lemma joinAmp_from buf l :
  buf ≠ EmptyString →
  Wire.joinAmp buf l
  = buf +:+ String.concat EmptyString (map (append "&") l).
Proof.
  revert buf. induction l as [|x l IH]; intros buf Hbuf.
  - cbn. by rewrite append_nil_r.
  - change (Wire.joinAmp buf (x :: l))
      with (Wire.joinAmp
              ((if 0 <? Str.len buf then buf +:+ "&" else buf) +:+ x) l).
    rewrite <- (append_nil_r buf) at 1. rewrite (len_append_pos _ _ Hbuf).
    rewrite IH.
    + rewrite !append_assoc. f_equal.
      destruct l as [|y l]; cbn [map String.concat].
      * by rewrite append_nil_r.
      * by rewrite append_nil_l, !append_assoc.
    + destruct buf; [done|]. by rewrite !append_cons.
Qed.

Lemma Join_from x l sep :
  strings_Join (x :: l) sep
  = x +:+ String.concat EmptyString (map (append sep) l).
Proof.
  revert x. induction l as [|y l IH]; intros x.
  - cbn. by rewrite append_nil_r.
  - change (strings_Join (x :: y :: l) sep)
      with (x +:+ sep +:+ strings_Join (y :: l) sep).
    rewrite IH. f_equal.
    destruct l as [|z l]; cbn [map String.concat].
    + by rewrite !append_nil_r.
    + by rewrite append_nil_l, !append_assoc.
Qed.

Lemma joinAmp_Join l :
  Forall (λ x, x ≠ EmptyString) l →
  Wire.joinAmp EmptyString l = strings_Join l "&".
Proof.
  intros Hl. destruct Hl as [|x l Hx Hl]; [done|].
  change (Wire.joinAmp EmptyString (x :: l))
    with (Wire.joinAmp (EmptyString +:+ x) l).
  rewrite append_nil_l, (joinAmp_from _ _ Hx). by rewrite Join_from.
Qed.

Lemma pair_nonempty k v : Wire.pair k v ≠ EmptyString.
Proof.
  unfold Wire.pair. destruct (url.QueryEscape k); [done|].
  by rewrite append_cons.
Qed.

Lemma piecesOf_nonempty m keys :
  Forall (λ x, x ≠ EmptyString) (Wire.piecesOf m keys).
Proof.
  apply Forall_forall. intros x Hx. unfold Wire.piecesOf in Hx.
  apply list_elem_of_In, in_flat_map in Hx as (k & _ & Hx).
  apply in_map_iff in Hx as (v & <- & _). apply pair_nonempty.
Qed.

(** [Encode] joins with ampersands the pieces of the keys in byte order. *)
Lemma Encode_Join m :
  url.Encode m
  = strings_Join (Wire.piecesOf m (url.sortKeys (elements (dom m)))) "&".
Proof.
  unfold url.Encode. destruct (decide (size m = 0%nat)) as [Hz|_].
  - apply map_size_empty_inv in Hz as ->.
    by rewrite dom_empty_L, elements_empty.
  - rewrite fold_encodeKey. apply joinAmp_Join, piecesOf_nonempty.
Qed.

End EncodeShape.

(** ** The order of the keys *)

Section KeyOrder.

Lemma compare_trans_le (a b c : string) :
  String.compare a b ≠ Gt → String.compare b c ≠ Gt → String.compare a c ≠ Gt.
Proof.
  revert b c. induction a as [|x a IH]; intros [|y b] [|z c]; cbn; try done.
  unfold Ascii.compare.
  destruct (N.compare_spec (N_of_ascii x) (N_of_ascii y)) as [Hxy|Hxy|Hxy];
    destruct (N.compare_spec (N_of_ascii y) (N_of_ascii z)) as [Hyz|Hyz|Hyz];
    try done.
  - rewrite Hxy, Hyz, N.compare_refl. apply IH.
  - intros _ _. rewrite Hxy. by apply N.compare_lt_iff in Hyz as ->.
  - intros _ _. rewrite <- Hyz. by apply N.compare_lt_iff in Hxy as ->.
  - intros _ _.
    assert (H : (N_of_ascii x < N_of_ascii z)%N) by lia.
    by apply N.compare_lt_iff in H as ->.
Qed.

Lemma leb_not_Gt a b : String.leb a b = true ↔ String.compare a b ≠ Gt.
Proof. unfold String.leb. by destruct (String.compare a b). Qed.

#[local] Instance keyLe_trans : Transitive Wire.keyLe.
Proof.
  intros a b c Hab Hbc. apply Is_true_true, leb_not_Gt.
  apply Is_true_true, leb_not_Gt in Hab. apply Is_true_true, leb_not_Gt in Hbc.
  by apply (compare_trans_le a b c).
Qed.

#[local] Instance keyLe_total : Total Wire.keyLe.
Proof.
  intros a b. unfold Wire.keyLe.
  destruct (String.leb_total a b) as [H|H]; rewrite H; [by left | by right].
Qed.

#[local] Instance keyLe_antisym : AntiSymm (=) Wire.keyLe.
Proof.
  intros a b Hab Hba. apply Is_true_true in Hab, Hba.
  by apply String.leb_antisym.
Qed.

Lemma sortKeys_sorted keys : StronglySorted Wire.keyLe (url.sortKeys keys).
Proof. apply StronglySorted_merge_sort; apply _. Qed.

Lemma sortKeys_perm keys : url.sortKeys keys ≡ₚ keys.
Proof. apply merge_sort_Permutation. Qed.

Lemma StronglySorted_filter {A} (R : relation A) (P : A → Prop)
    `{∀ x, Decision (P x)} (l : list A) :
  StronglySorted R l → StronglySorted R (filter P l).
Proof.
  induction 1 as [|x l Hl IH Hx]; [constructor|].
  rewrite filter_cons. destruct (decide (P x)); [|done].
  constructor; [done|].
  apply Forall_forall. intros y Hy. apply list_elem_of_filter in Hy as [_ Hy].
  by apply (proj1 (Forall_forall _ _) Hx).
Qed.

Lemma sortedKeys_sorted : StronglySorted Wire.keyLe Wire.sortedKeys.
Proof. apply (bool_decide_unpack _). by vm_compute. Qed.

Lemma sortedKeys_NoDup : NoDup Wire.sortedKeys.
Proof. apply (bool_decide_unpack _). by vm_compute. Qed.

Lemma sortedKeys_keys c o sd ed k :
  k ∈ (Table.entries c o sd ed).*1 ↔ k ∈ Wire.sortedKeys.
Proof.
  cbn [Table.entries fmap list_fmap fst]. unfold Wire.sortedKeys.
  rewrite !elem_of_cons, !elem_of_nil. tauto.
Qed.

Lemma entry_present k l : is_Some (Table.entry k l) → k ∈ l.*1.
Proof.
  intros Hk. destruct (decide (k ∈ l.*1)) as [|Hn]; [done|].
  rewrite (entry_absent _ _ Hn) in Hk. by destruct Hk.
Qed.

(** The keys that [Encode] sorts are the keys of the table that have a
    text, in the order of [Wire.sortedKeys]. *)
Lemma table_keys_sorted c o sd ed :
  url.sortKeys (elements (dom (Table.addAll (Table.entries c o sd ed) ∅)))
  = filter (λ k, is_Some (Table.entry k (Table.entries c o sd ed)))
      Wire.sortedKeys.
Proof.
  apply (StronglySorted_unique Wire.keyLe).
  - apply sortKeys_sorted.
  - apply StronglySorted_filter, sortedKeys_sorted.
  - rewrite sortKeys_perm. apply NoDup_Permutation.
    + apply NoDup_elements.
    + apply NoDup_filter, sortedKeys_NoDup.
    + intros k. rewrite elem_of_elements, elem_of_dom, lookup_table.
      rewrite list_elem_of_filter, fmap_is_Some.
      split; [|tauto]. intros Hk. split; [done|].
      by apply (sortedKeys_keys c o sd ed), entry_present.
Qed.

End KeyOrder.

(** ** The pieces of the query *)

Section QueryShape.

Lemma pieces_of_table (m : url.Values) (l : list (string * option string))
    (keys : list string) :
  (∀ k, m !! k = (λ v, [v]) <$> Table.entry k l) →
  Wire.piecesOf m (filter (λ k, is_Some (Table.entry k l)) keys)
  = omap (λ k, Wire.pair k <$> Table.entry k l) keys.
Proof.
  intros Hm. induction keys as [|k keys IH]; [done|].
  rewrite filter_cons. cbn [omap list_omap]. fold (@omap list _ string string).
  destruct (Table.entry k l) as [v|] eqn:Hk.
  - destruct (decide (is_Some (Some v))) as [_|Hn]; [|by destruct Hn].
    cbn [Wire.piecesOf flat_map]. rewrite Hm, Hk.
    cbn [fmap option_fmap option_map default map app]. f_equal. exact IH.
  - destruct (decide (is_Some (@None string))) as [Hs|_]; [by destruct Hs|].
    exact IH.
Qed.

(** The encoded query of a table: its pieces joined by ampersands. *)
Lemma Encode_table c o sd ed :
  url.Encode (Table.addAll (Table.entries c o sd ed) ∅)
  = strings_Join (Wire.pairs (Table.entries c o sd ed)) "&".
Proof.
  rewrite Encode_Join, table_keys_sorted. unfold Wire.pairs.
  by rewrite (pieces_of_table _ _ _ (lookup_table c o sd ed)).
Qed.

Lemma QueryEscape_cons c s :
  url.QueryEscape (String c s) = url.escapeByte c +:+ url.QueryEscape s.
Proof.
  cbn [url.QueryEscape]. unfold url.escapeByte.
  destruct (Ascii.eqb c " "); [done|]. by destruct (url.shouldEscape c).
Qed.

Lemma escapeByte_no_amp c : Str.mem "&" (url.escapeByte c) = false.
Proof. destruct c as [[] [] [] [] [] [] [] []]; reflexivity. Qed.

Lemma escapeByte_no_eq c : Str.mem "=" (url.escapeByte c) = false.
Proof. destruct c as [[] [] [] [] [] [] [] []]; reflexivity. Qed.

Lemma QueryEscape_no_amp s : Str.mem "&" (url.QueryEscape s) = false.
Proof.
  induction s as [|c s IH]; [done|].
  by rewrite QueryEscape_cons, mem_append, escapeByte_no_amp, IH.
Qed.

Lemma QueryEscape_no_eq s : Str.mem "=" (url.QueryEscape s) = false.
Proof.
  induction s as [|c s IH]; [done|].
  by rewrite QueryEscape_cons, mem_append, escapeByte_no_eq, IH.
Qed.

Lemma escapeByte_unescape c rest :
  url.QueryUnescape (url.escapeByte c +:+ rest)
  = String c <$> url.QueryUnescape rest.
Proof. destruct c as [[] [] [] [] [] [] [] []]; reflexivity. Qed.

(** Unescaping gives back what was escaped. *)
Lemma QueryUnescape_QueryEscape s :
  url.QueryUnescape (url.QueryEscape s) = Some s.
Proof.
  induction s as [|c s IH]; [done|].
  by rewrite QueryEscape_cons, escapeByte_unescape, IH.
Qed.

Lemma QueryEscape_inj s s' : url.QueryEscape s = url.QueryEscape s' → s = s'.
Proof.
  intros H. apply (f_equal url.QueryUnescape) in H.
  rewrite !QueryUnescape_QueryEscape in H. by injection H.
Qed.

Lemma pair_no_amp k v : Str.mem "&" (Wire.pair k v) = false.
Proof.
  unfold Wire.pair. by rewrite !mem_append, !QueryEscape_no_amp.
Qed.

(** A piece tells its key and its text. *)
Lemma pair_inj k v k' v' : Wire.pair k v = Wire.pair k' v' → k = k' ∧ v = v'.
Proof.
  unfold Wire.pair. intros H.
  apply cut_at_eq in H as [Hk Hv]; [|apply QueryEscape_no_eq..].
  by apply QueryEscape_inj in Hk, Hv.
Qed.

(** The query of a table, split at the ampersands, is the list of its
    pieces. *)
Lemma pieces_Encode_table c o sd ed :
  Wire.pieces (url.Encode (Table.addAll (Table.entries c o sd ed) ∅))
  = Wire.pairs (Table.entries c o sd ed).
Proof.
  unfold Wire.pieces. rewrite Encode_table. apply (Split_Join _ "&").
  - done.
  - apply Forall_forall. intros x Hx. unfold Wire.pairs in Hx.
    apply list_elem_of_omap in Hx as (k & _ & Hx).
    destruct (Table.entry k _) as [v|]; [|done].
    injection Hx as <-. apply pair_no_amp.
Qed.

Lemma pair_in_pairs c o sd ed k v :
  Wire.pair k v ∈ Wire.pairs (Table.entries c o sd ed)
  ↔ Table.entry k (Table.entries c o sd ed) = Some v.
Proof.
  unfold Wire.pairs. rewrite list_elem_of_omap. split.
  - intros (k' & _ & Hk').
    destruct (Table.entry k' _) as [v'|] eqn:He; [|done].
    injection Hk' as Hk'. by apply pair_inj in Hk' as [-> ->].
  - intros He. exists k. rewrite He. split; [|done].
    apply (sortedKeys_keys c o sd ed), entry_present. by rewrite He.
Qed.

(** The bridge from the parameters to the wire: a key and a text make a
    piece of the encoded query exactly when the parameter of that key is
    that text. *)
Lemma piece_iff_param c o params k v :
  Search_params c (Some o) = inr params →
  Wire.pair k v ∈ Wire.pieces (url.Encode params) ↔ params !! k = Some [v].
Proof.
  intros Hp. apply params_built in Hp as (sd & ed & _ & _ & ->).
  rewrite pieces_Encode_table, pair_in_pairs, lookup_table.
  destruct (Table.entry k _) as [v'|]; cbn; [|done].
  split; by intros [= ->].
Qed.

End QueryShape.

(** ** The layout of a formatted time *)

Section Dates.

Import RFC3339.

Lemma forallZ_spec P lo count :
  forallZ P lo count = true →
  ∀ k, lo <= k < lo + Z.of_nat count → P k = true.
Proof.
  revert lo. induction count as [|n IH]; intros lo H k Hk; [lia|].
  cbn [forallZ] in H. apply andb_true_iff in H as [H0 H].
  destruct (decide (k = lo)) as [->|Hne]; [done|].
  apply (IH (lo + 1) H). lia.
Qed.

Lemma era_checked :
  forallZ (λ k, validDate (dateOfEra k)) 0 (Z.to_nat 146097) = true.
Proof. vm_compute. reflexivity. Qed.

Lemma dateOfEra_valid doe :
  0 <= doe < 146097 → validDate (dateOfEra doe) = true.
Proof.
  intros H. apply (forallZ_spec _ _ _ era_checked). lia.
Qed.

Lemma date_era days :
  TimeFmt.date days =
    let era := (days + 719468) / 146097 in
    let '(y, m, d) := dateOfEra ((days + 719468) - era * 146097) in
    (y + era * 400, m, d).
Proof.
  unfold TimeFmt.date, dateOfEra. cbv zeta. f_equal. f_equal. lia.
Qed.

Lemma isLeap_era y era : isLeap (y + era * 400) = isLeap y.
Proof.
  unfold isLeap.
  replace (y + era * 400) with (y + (era * 100) * 4) at 1 by lia.
  replace (y + era * 400) with (y + (era * 4) * 100) at 1 by lia.
  by rewrite !Z.mod_add by lia.
Qed.

(** Every day number has a date that exists. *)
Lemma date_valid days : validDate (TimeFmt.date days) = true.
Proof.
  rewrite date_era. cbv zeta.
  pose proof (dateOfEra_valid ((days + 719468)
      - (days + 719468) / 146097 * 146097)) as Hv.
  destruct (dateOfEra _) as [[y m] d].
  unfold validDate in *. unfold daysIn in *. rewrite isLeap_era.
  apply Hv. pose proof (Z.mod_pos_bound (days + 719468) 146097).
  rewrite Z.mod_eq in H by lia. lia.
Qed.

End Dates.

Section Layout.

Import RFC3339.

Lemma num2_checked :
  forallZ
    (λ n, match num2 (Byte.of_code (48 + n / 10))
                  (Byte.of_code (48 + n mod 10)) with
          | Some m => m =? n
          | None => false
          end) 0 (Z.to_nat 100) = true.
Proof. vm_compute. reflexivity. Qed.

Lemma two_checked :
  forallZ (λ n, String.eqb (TimeFmt.appendInt EmptyString n 2) (two n))
    0 (Z.to_nat 100) = true.
Proof. vm_compute. reflexivity. Qed.

Lemma four_checked :
  forallZ (λ n, String.eqb (TimeFmt.appendInt EmptyString n 4) (four n))
    0 (Z.to_nat 10000) = true.
Proof. vm_compute. reflexivity. Qed.

Lemma num2_two n :
  0 <= n <= 99 →
  num2 (Byte.of_code (48 + n / 10)) (Byte.of_code (48 + n mod 10)) = Some n.
Proof.
  intros H. pose proof (forallZ_spec _ _ _ num2_checked n ltac:(lia)) as Hn.
  cbv beta in Hn. destruct (num2 _ _) as [m|]; [|done].
  by apply Z.eqb_eq in Hn as ->.
Qed.

Lemma appendInt_two b n :
  0 <= n <= 99 → TimeFmt.appendInt b n 2 = b +:+ two n.
Proof.
  intros H. rewrite <- (proj1 (String.eqb_eq _ _)
    (forallZ_spec _ _ _ two_checked n ltac:(lia))).
  reflexivity.
Qed.

Lemma appendInt_four b n :
  0 <= n <= 9999 → TimeFmt.appendInt b n 4 = b +:+ four n.
Proof.
  intros H. rewrite <- (proj1 (String.eqb_eq _ _)
    (forallZ_spec _ _ _ four_checked n ltac:(lia))).
  reflexivity.
Qed.

Lemma isOffset_numeric sg hh mm :
  sg = "+"%char ∨ sg = "-"%char → 0 <= hh <= 23 → 0 <= mm <= 59 →
  isOffset (String sg (two hh +:+ ":" +:+ two mm)) = true.
Proof.
  intros Hsg Hh Hm. cbv [append two Str.single]. cbn [isOffset].
  rewrite !num2_two by lia. cbn [inRange].
  repeat (apply andb_true_iff; split); try (apply Z.leb_le; lia); try done.
  destruct Hsg as [->| ->]; reflexivity.
Qed.

Lemma isDateTime_assembled y m d h i s zone :
  0 <= y <= 9999 → 1 <= m <= 12 → 1 <= d <= daysIn y m →
  0 <= h <= 23 → 0 <= i <= 59 → 0 <= s <= 60 → isOffset zone = true →
  isDateTime
    (four y +:+ "-" +:+ two m +:+ "-" +:+ two d +:+ "T" +:+ two h +:+ ":"
     +:+ two i +:+ ":" +:+ two s +:+ zone) = true.
Proof.
  intros Hy Hm Hd Hh Hi Hs Hz.
  assert (Hd31 : d <= 31).
  { unfold daysIn in Hd. repeat case_match; lia. }
  cbv [append four two Str.single]. cbn [isDateTime].
  rewrite !num2_two by (try lia; Z.div_mod_to_equations; lia).
  replace (y / 100 * 100 + y mod 100) with y
    by (Z.div_mod_to_equations; lia).
  cbn [inRange]. rewrite Hz.
  repeat (apply andb_true_iff; split); try (apply Z.leb_le; lia); done.
Qed.

End Layout.

Section Format.

Import RFC3339.

(** The text of [Format(time.RFC3339)] is a date-time of RFC 3339, for a
    time whose year has four digits and whose offset is within a day. *)
Lemma Format_isDateTime t :
  0 <= year t <= 9999 → -86400 < zoneOffset t < 86400 →
  isDateTime (TimeFmt.Format_RFC3339 t) = true.
Proof.
  intros Hy Hz. unfold TimeFmt.Format_RFC3339, year in *.
  set (abs := unixSec t + zoneOffset t) in *.
  pose proof (date_valid (abs / 86400)) as Hv.
  destruct (TimeFmt.date (abs / 86400)) as [[y m] d]. cbn [fst] in Hy.
  unfold validDate in Hv.
  apply andb_true_iff in Hv as [Hv Hd2]. apply andb_true_iff in Hv as [Hv Hd1].
  apply andb_true_iff in Hv as [Hm1 Hm2].
  apply Z.leb_le in Hm1, Hm2, Hd1, Hd2.
  assert (Hd31 : d <= 31).
  { unfold daysIn in Hd2. repeat case_match; lia. }
  pose proof (Z.mod_pos_bound abs 86400 ltac:(lia)) as Hs.
  set (sod := abs mod 86400) in *.
  cbv beta iota zeta delta [TimeFmt.clock].
  rewrite appendInt_four by lia.
  rewrite !appendInt_two by (try lia; Z.div_mod_to_equations; lia).
  destruct (zoneOffset t =? 0).
  - rewrite !append_assoc, append_nil_l.
    apply isDateTime_assembled; try lia; try done;
      Z.div_mod_to_equations; lia.
  - set (zone := Z.quot (zoneOffset t) 60).
    assert (Hzone : -1440 < zone < 1440)
      by (unfold zone; Z.quot_rem_to_equations; lia).
    destruct (zone <? 0) eqn:Hneg; cbv beta iota.
    + apply Z.ltb_lt in Hneg.
      rewrite !appendInt_two by (Z.quot_rem_to_equations; lia).
      rewrite !append_assoc, append_nil_l.
      apply isDateTime_assembled; try lia; try done;
        try (Z.div_mod_to_equations; lia).
      apply (isOffset_numeric "-"); [by right | |];
        Z.quot_rem_to_equations; lia.
    + apply Z.ltb_ge in Hneg.
      rewrite !appendInt_two by (Z.quot_rem_to_equations; lia).
      rewrite !append_assoc, append_nil_l.
      apply isDateTime_assembled; try lia; try done;
        try (Z.div_mod_to_equations; lia).
      apply (isOffset_numeric "+"); [by left | |];
        Z.quot_rem_to_equations; lia.
Qed.

End Format.

Section Instants.

Import RFC3339.

Example dayNumber_epoch : dayNumber 1970 1 1 = 0.
Proof. reflexivity. Qed.

Example instant_sample :
  instant "2024-02-29T12:30:05+05:30" = Some (1709190005, 19800).
Proof. vm_compute. reflexivity. Qed.

(** The count of the days before a year follows the rule of the leap years,
    year after year from the year 0. *)
Lemma daysBeforeYear_next y :
  daysBeforeYear (y + 1) = daysBeforeYear y + (if isLeap y then 366 else 365).
Proof.
  unfold daysBeforeYear, isLeap.
  destruct (y mod 4 =? 0) eqn:H4; destruct (y mod 100 =? 0) eqn:H100;
    destruct (y mod 400 =? 0) eqn:H400; cbn [andb orb negb];
    rewrite ?Z.eqb_eq, ?Z.eqb_neq in *;
    Z.div_mod_to_equations; lia.
Qed.

Lemma daysBeforeYear_era y era :
  daysBeforeYear (y + era * 400) = daysBeforeYear y + era * 146097.
Proof. unfold daysBeforeYear. Z.div_mod_to_equations. lia. Qed.

Lemma daysBeforeMonth_era y era m :
  daysBeforeMonth (y + era * 400) m = daysBeforeMonth y m.
Proof.
  unfold daysBeforeMonth. cbn [fold_right]. unfold daysIn.
  by rewrite !isLeap_era.
Qed.

Lemma dayNumber_checked :
  forallZ (λ doe, let '(y, m, d) := dateOfEra doe in
                  dayNumber y m d =? doe - 719468)
    0 (Z.to_nat 146097) = true.
Proof. vm_compute. reflexivity. Qed.

(** The date of a day number is the date that many days after
    1970-01-01. *)
Lemma dayNumber_date days :
  let '(y, m, d) := TimeFmt.date days in dayNumber y m d = days.
Proof.
  rewrite date_era. cbv zeta.
  set (era := (days + 719468) / 146097).
  assert (Hdoe : 0 <= days + 719468 - era * 146097 < 146097).
  { unfold era. Z.div_mod_to_equations. lia. }
  pose proof (forallZ_spec _ _ _ dayNumber_checked
                (days + 719468 - era * 146097) ltac:(lia)) as H.
  cbv beta in H.
  destruct (dateOfEra _) as [[y m] d].
  apply Z.eqb_eq in H. unfold dayNumber in *.
  rewrite daysBeforeYear_era, daysBeforeMonth_era. lia.
Qed.

Lemma offsetSeconds_numeric sg hh mm :
  0 <= hh <= 99 → 0 <= mm <= 99 →
  offsetSeconds (String sg (two hh +:+ ":" +:+ two mm))
  = Some (if Ascii.eqb sg "-" then - (hh * 3600 + mm * 60)
          else hh * 3600 + mm * 60).
Proof.
  intros Hh Hm. cbv [append two Str.single]. cbn [offsetSeconds].
  by rewrite !num2_two by lia.
Qed.

Lemma instant_assembled y m d h i s zone off :
  0 <= y <= 9999 → 1 <= m <= 12 → 1 <= d <= daysIn y m →
  0 <= h <= 23 → 0 <= i <= 59 → 0 <= s <= 60 → isOffset zone = true →
  offsetSeconds zone = Some off →
  instant
    (four y +:+ "-" +:+ two m +:+ "-" +:+ two d +:+ "T" +:+ two h +:+ ":"
     +:+ two i +:+ ":" +:+ two s +:+ zone)
  = Some (dayNumber y m d * 86400 + h * 3600 + i * 60 + s - off, off).
Proof.
  intros Hy Hm Hd Hh Hi Hs Hz Hoff.
  assert (Hd31 : d <= 31).
  { unfold daysIn in Hd. repeat case_match; lia. }
  unfold instant. rewrite isDateTime_assembled by done.
  cbv [append four two Str.single]. cbv iota.
  rewrite !num2_two by (try lia; Z.div_mod_to_equations; lia).
  replace (y / 100 * 100 + y mod 100) with y
    by (Z.div_mod_to_equations; lia).
  by rewrite Hoff.
Qed.

(** The text of [Format(time.RFC3339)] denotes the instant of the time at
    its offset, up to the seconds of the offset, which the layout has no
    place for: they are cut from the offset and stay in the time of day. *)
Lemma Format_instant t :
  0 <= year t <= 9999 → -86400 < zoneOffset t < 86400 →
  instant (TimeFmt.Format_RFC3339 t)
  = Some (unixSec t + Z.rem (zoneOffset t) 60,
          zoneOffset t - Z.rem (zoneOffset t) 60).
Proof.
  intros Hy Hz. unfold TimeFmt.Format_RFC3339, year in *.
  set (abs := unixSec t + zoneOffset t) in *.
  pose proof (date_valid (abs / 86400)) as Hv.
  pose proof (dayNumber_date (abs / 86400)) as Hn.
  destruct (TimeFmt.date (abs / 86400)) as [[y m] d]. cbn [fst] in Hy.
  unfold validDate in Hv.
  apply andb_true_iff in Hv as [Hv Hd2]. apply andb_true_iff in Hv as [Hv Hd1].
  apply andb_true_iff in Hv as [Hm1 Hm2].
  apply Z.leb_le in Hm1, Hm2, Hd1, Hd2.
  assert (Hd31 : d <= 31).
  { unfold daysIn in Hd2. repeat case_match; lia. }
  pose proof (Z.mod_pos_bound abs 86400 ltac:(lia)) as Hs.
  assert (Habs : abs = abs / 86400 * 86400 + abs mod 86400)
    by (Z.div_mod_to_equations; lia).
  set (sod := abs mod 86400) in *.
  assert (Hsod : sod / 3600 * 3600 + sod mod 3600 / 60 * 60 + sod mod 60 = sod)
    by (Z.div_mod_to_equations; lia).
  cbv beta iota zeta delta [TimeFmt.clock].
  rewrite appendInt_four by lia.
  rewrite !appendInt_two by (try lia; Z.div_mod_to_equations; lia).
  destruct (zoneOffset t =? 0) eqn:Hzero.
  - apply Z.eqb_eq in Hzero.
    rewrite !append_assoc, append_nil_l.
    rewrite (instant_assembled _ _ _ _ _ _ "Z" 0); try lia; try done;
      try (Z.div_mod_to_equations; lia).
    rewrite Hn, Hzero. change (Z.rem 0 60) with 0. f_equal. f_equal; lia.
  - set (zone := Z.quot (zoneOffset t) 60).
    assert (Hzone : -1440 < zone < 1440)
      by (unfold zone; Z.quot_rem_to_equations; lia).
    assert (Hcut : zoneOffset t - Z.rem (zoneOffset t) 60 = zone * 60)
      by (unfold zone; Z.quot_rem_to_equations; lia).
    destruct (zone <? 0) eqn:Hneg; cbv beta iota.
    + apply Z.ltb_lt in Hneg.
      assert (Hq : Z.quot (- zone) 60 * 3600 + Z.rem (- zone) 60 * 60
                   = - zone * 60) by (Z.quot_rem_to_equations; lia).
      rewrite !appendInt_two by (Z.quot_rem_to_equations; lia).
      rewrite !append_assoc, append_nil_l.
      rewrite (instant_assembled _ _ _ _ _ _ _ (zone * 60)); try lia; try done;
        try (Z.div_mod_to_equations; lia).
      * rewrite Hn, Hcut. f_equal. f_equal. lia.
      * apply (isOffset_numeric "-"); [by right | |];
          Z.quot_rem_to_equations; lia.
      * etrans; [apply (offsetSeconds_numeric "-");
                 Z.quot_rem_to_equations; lia|].
        cbn [Ascii.eqb Bool.eqb]. f_equal. lia.
    + apply Z.ltb_ge in Hneg.
      assert (Hq : Z.quot zone 60 * 3600 + Z.rem zone 60 * 60
                   = zone * 60) by (Z.quot_rem_to_equations; lia).
      rewrite !appendInt_two by (Z.quot_rem_to_equations; lia).
      rewrite !append_assoc, append_nil_l.
      rewrite (instant_assembled _ _ _ _ _ _ _ (zone * 60)); try lia; try done;
        try (Z.div_mod_to_equations; lia).
      * rewrite Hn, Hcut. f_equal. f_equal. lia.
      * apply (isOffset_numeric "+"); [by left | |];
          Z.quot_rem_to_equations; lia.
      * etrans; [apply (offsetSeconds_numeric "+");
                 Z.quot_rem_to_equations; lia|].
        cbn [Ascii.eqb Bool.eqb]. f_equal. lia.
Qed.

End Instants.

(** C1.  A date option that holds a string reaches the query unchanged, one
    that holds a [time.Time] reaches it formatted as RFC3339, under the keys
    startDate and endDate, and the pieces of the encoded query are the
    parameters, escaped; when a date option holds a value of another type,
    [Search] and [Headlines] return the error of the misuse and no response
    without any request.  When the year of a time, at its offset, has four
    digits and the offset is within a day, the formatted text is a date-time
    of RFC 3339, and the date-time denotes the instant of the time at its
    offset: to the second when the offset is a whole number of minutes;
    otherwise the seconds of the offset are cut from the offset of the text
    and the instant that the text denotes is later by as many. *)
Theorem date_options (P : Platform) (c : Client) (o : SearchOptions.t) :
  (otherType (StartDate o) = false → otherType (EndDate o) = false →
   ∃ params,
     Search_params c (Some o) = inr params
     ∧ Headlines_params c (Some o) = inr params
     ∧ params !! "startDate" = dateParam (StartDate o)
     ∧ params !! "endDate" = dateParam (EndDate o)
     ∧ (∀ k v, Wire.pair k v ∈ Wire.pieces (url.Encode params)
               ↔ params !! k = Some [v])
     ∧ Search P c (Some o) = Search_request P c (Search_url c params)
     ∧ Headlines P c (Some o) = Headlines_request P c (Headlines_url c params))
  ∧ (otherType (StartDate o) = true ∨ otherType (EndDate o) = true →
     ∃ msg,
       msg = (if otherType (StartDate o)
              then "startDate must be string or time.Time"
              else "endDate must be string or time.Time")%string
       ∧ Search P c (Some o) = (None, Some (errors_New msg), [])
       ∧ Headlines P c (Some o) = (None, Some (errors_New msg), []))
  ∧ (∀ t, 0 <= RFC3339.year t <= 9999 → -86400 < zoneOffset t < 86400 →
          RFC3339.isDateTime (TimeFmt.Format_RFC3339 t) = true
          ∧ RFC3339.instant (TimeFmt.Format_RFC3339 t)
            = Some (unixSec t + Z.rem (zoneOffset t) 60,
                    zoneOffset t - Z.rem (zoneOffset t) 60)
          ∧ (Z.rem (zoneOffset t) 60 = 0 →
             RFC3339.instant (TimeFmt.Format_RFC3339 t)
             = Some (unixSec t, zoneOffset t))).
Proof.
  split; [|split].
  3:{ intros t Hy Hz. split; [by apply Format_isDateTime|].
      split; [by apply Format_instant|].
      intros Hrem. rewrite (Format_instant t Hy Hz), Hrem.
      f_equal. f_equal; lia. }
  - intros Hs He.
    exists (Table.addAll
              (Table.entries c o (Table.dateOption (StartDate o))
                 (Table.dateOption (EndDate o))) ∅).
    assert (Hp : Search_params c (Some o) = inr
              (Table.addAll
                 (Table.entries c o (Table.dateOption (StartDate o))
                    (Table.dateOption (EndDate o))) ∅)).
    { rewrite Search_params_table. unfold Table.params.
      by rewrite (dateText_accepted _ _ Hs), (dateText_accepted _ _ He). }
    unfold Search, Headlines. change Headlines_params with Search_params.
    rewrite Hp.
    split; [done|]. split; [done|]. split; [|split; [|split; [|done]]].
    + rewrite lookup_table; cbn. by destruct (StartDate o).
    + rewrite lookup_table; cbn. by destruct (EndDate o).
    + intros k v. apply (piece_iff_param c o _ k v Hp).
  - intros Hother. unfold Search, Headlines.
    change Headlines_params with Search_params.
    rewrite Search_params_table. unfold Table.params.
    destruct (otherType (StartDate o)) eqn:Hs.
    + rewrite (dateText_rejected _ _ Hs). by eexists.
    + destruct Hother as [|He]; [done|].
      rewrite (dateText_accepted _ _ Hs), (dateText_rejected _ _ He).
      by eexists.
Qed.

(** C2.  [Search] and [Headlines] build the same parameters from the same
    client and options, and run the same exchange on the URL they are given;
    their URLs are the base URL, the path /v1/search or /v1/headlines, a
    question mark and the same encoded parameters. *)
Theorem endpoints_differ_in_path (P : Platform) (c : Client)
    (options : option SearchOptions.t) :
  Search_params c options = Headlines_params c options
  ∧ (∀ u, Search_request P c u = Headlines_request P c u)
  ∧ match Search_params c options with
    | inl err =>
        Search P c options = (None, Some err, [])
        ∧ Headlines P c options = (None, Some err, [])
    | inr params =>
        Search P c options
        = Search_request P c
            (baseURL c +:+ "/v1/search" +:+ "?" +:+ url.Encode params)
        ∧ Headlines P c options
          = Search_request P c
              (baseURL c +:+ "/v1/headlines" +:+ "?" +:+ url.Encode params)
    end.
Proof.
  split; [reflexivity|]. split; [reflexivity|].
  unfold Search, Headlines. change Headlines_params with Search_params.
  destruct (Search_params c options); split; reflexivity.
Qed.

Lemma Add_empty k v : url.Add ∅ k v = {[ k := [v] ]}.
Proof. unfold url.Add. rewrite lookup_empty. apply insert_empty. Qed.

Lemma Encode_apikey key :
  url.Encode {[ "apikey"%string := [key] ]} = ("apikey=" +:+ url.QueryEscape key)%string.
Proof.
  unfold url.Encode. rewrite map_size_singleton.
  destruct (decide (1%nat = 0%nat)) as [|_]; [done|].
  rewrite dom_singleton_L, elements_singleton.
  change (url.sortKeys ["apikey"%string]) with ["apikey"%string].
  cbn [fold_left]. unfold url.encodeKey. rewrite lookup_singleton_eq.
  reflexivity.
Qed.

Lemma zero_params c :
  Search_params c (Some SearchOptions.zero)
  = inr {[ "apikey"%string := [apiKey c] ]}.
Proof.
  rewrite Search_params_table.
  change (Table.params c SearchOptions.zero)
    with (inr (url.Add ∅ "apikey" (apiKey c)) : error + url.Values).
  by rewrite Add_empty.
Qed.

Lemma no_options_params c :
  Search_params c None = inr {[ "apikey"%string := [apiKey c] ]}.
Proof.
  change (Search_params c None)
    with (inr (url.Add ∅ "apikey" (apiKey c)) : error + url.Values).
  by rewrite Add_empty.
Qed.

(** C3.  With the zero options, whose lists are empty and whose scalars are
    zero, empty or nil, the only parameter is the API key, and the encoded
    query has the one piece of that key. *)
Theorem zero_options_only_apikey (c : Client) :
  Search_params c (Some SearchOptions.zero) = inr {[ "apikey"%string := [apiKey c] ]}
  ∧ Headlines_params c (Some SearchOptions.zero)
    = inr {[ "apikey"%string := [apiKey c] ]}
  ∧ size ({[ "apikey"%string := [apiKey c] ]} : url.Values) = 1%nat
  ∧ url.Encode {[ "apikey"%string := [apiKey c] ]}
    = ("apikey=" +:+ url.QueryEscape (apiKey c))%string
  ∧ Wire.pieces (url.Encode {[ "apikey"%string := [apiKey c] ]})
    = [("apikey=" +:+ url.QueryEscape (apiKey c))%string].
Proof.
  split; [apply zero_params|]. split; [apply zero_params|].
  split; [apply map_size_singleton|]. split; [apply Encode_apikey|].
  rewrite Encode_apikey. apply (Split_Join [_] "&"); [done|].
  apply Forall_singleton. simpl. apply QueryEscape_no_amp.
Qed.

(** The parameters read off the table, for the keys of the claims. *)
Lemma params_of_options c o params :
  Search_params c (Some o) = inr params ∨ Headlines_params c (Some o) = inr params →
  Search_params c (Some o) = inr params
  ∧ ∀ k, k ∈ Wire.sortedKeys → k ≠ "startDate"%string → k ≠ "endDate"%string →
         params !! k
         = (λ v, [v]) <$> Table.entry k (Table.entries c o None None).
Proof.
  change Headlines_params with Search_params. intros H.
  assert (Hp : Search_params c (Some o) = inr params) by (by destruct H).
  split; [done|].
  apply params_built in Hp as (sd & ed & _ & _ & ->).
  intros k Hk Hs He. rewrite lookup_table. f_equal.
  unfold Wire.sortedKeys in Hk. rewrite !elem_of_cons, elem_of_nil in Hk.
  destruct Hk as [->|[->|[->|[->|[->|[->|[->|[->|[->|[->|[->|[->|[->|[->|[->|[]]]]]]]]]]]]]]]];
    done.
Qed.

Ltac key_side :=
  first [ done | apply (bool_decide_unpack _); by vm_compute ].

(** C4.  Each list filter is left out when its list is empty and otherwise
    is the one text of its elements joined by commas; that text is a piece of
    the encoded query under its key, and cut at its commas it gives back the
    elements, as many and in their order, when none holds a comma. *)
Theorem list_filters (c : Client) (o : SearchOptions.t) (params : url.Values) :
  Search_params c (Some o) = inr params ∨ Headlines_params c (Some o) = inr params →
  params !! "lang" = joined (Lang o)
  ∧ params !! "country" = joined (Country o)
  ∧ params !! "region" = joined (Region o)
  ∧ params !! "category" = joined (Category o)
  ∧ params !! "attributes" = joined (Attributes o)
  ∧ params !! "publisher" = joined (Publisher o)
  ∧ (∀ k v, Wire.pair k v ∈ Wire.pieces (url.Encode params)
            ↔ params !! k = Some [v])
  ∧ (∀ l : list string,
       l ≠ [] → Forall (λ x, Str.mem "," x = false) l →
       strings_Split (strings_Join l ",") "," = l).
Proof.
  intros H. apply params_of_options in H as [Hp Hk].
  split_and!.
  1-6: rewrite Hk by key_side; cbn;
       match goal with |- context [Table.listText ?l] => by destruct l end.
  - intros k v. apply (piece_iff_param c o _ k v Hp).
  - intros l. apply (Split_Join l ",").
Qed.

(** C5.  The content flag has three states: unset it adds nothing, true it
    adds content=true, false it adds content=false, in the parameters and in
    the pieces of the encoded query. *)
Theorem content_flag (c : Client) (o : SearchOptions.t) (params : url.Values) :
  Search_params c (Some o) = inr params ∨ Headlines_params c (Some o) = inr params →
  params !! "content" =
    match Content o with
    | None => None
    | Some true => Some ["true"%string]
    | Some false => Some ["false"%string]
    end
  ∧ ("content=true"%string ∈ Wire.pieces (url.Encode params)
     ↔ Content o = Some true)
  ∧ ("content=false"%string ∈ Wire.pieces (url.Encode params)
     ↔ Content o = Some false)
  ∧ (Content o = None →
     ∀ v, Wire.pair "content" v ∉ Wire.pieces (url.Encode params)).
Proof.
  intros H. apply params_of_options in H as [Hp Hk].
  assert (Hc : params !! "content" =
    match Content o with
    | None => None
    | Some true => Some ["true"%string]
    | Some false => Some ["false"%string]
    end).
  { rewrite Hk by key_side; cbn.
    by destruct (Content o) as [[]|]. }
  split; [exact Hc|].
  change "content=true"%string with (Wire.pair "content" "true").
  change "content=false"%string with (Wire.pair "content" "false").
  split_and!.
  - rewrite (piece_iff_param _ _ _ _ _ Hp), Hc.
    destruct (Content o) as [[]|]; split; by intros [=].
  - rewrite (piece_iff_param _ _ _ _ _ Hp), Hc.
    destruct (Content o) as [[]|]; split; by intros [=].
  - intros Hn v. rewrite (piece_iff_param _ _ _ _ _ Hp), Hc, Hn. done.
Qed.

(** C6.  Max and Page are in the query exactly when they are positive, as
    their decimal text; zero and the negative numbers leave the key out of
    the encoded query, and Max of 5 gives the piece max=5. *)
Theorem numeric_filters (c : Client) (o : SearchOptions.t) (params : url.Values) :
  Search_params c (Some o) = inr params ∨ Headlines_params c (Some o) = inr params →
  (is_Some (params !! "max") ↔ 0 < Max o)
  ∧ (is_Some (params !! "page") ↔ 0 < Page o)
  ∧ (0 < Max o → params !! "max" = Some [Sprintf_d (Max o)])
  ∧ (0 < Page o → params !! "page" = Some [Sprintf_d (Page o)])
  ∧ (Max o = 5 → params !! "max" = Some ["5"%string])
  ∧ (Max o = 5 → "max=5"%string ∈ Wire.pieces (url.Encode params))
  ∧ (Max o ≤ 0 → ∀ v, Wire.pair "max" v ∉ Wire.pieces (url.Encode params))
  ∧ (Page o ≤ 0 → ∀ v, Wire.pair "page" v ∉ Wire.pieces (url.Encode params)).
Proof.
  intros H. apply params_of_options in H as [Hp Hk].
  assert (Hm : params !! "max" = (λ v, [v]) <$> Table.positive (Max o))
    by (rewrite Hk by key_side; done).
  assert (Hg : params !! "page" = (λ v, [v]) <$> Table.positive (Page o))
    by (rewrite Hk by key_side; done).
  change "max=5"%string with (Wire.pair "max" "5").
  setoid_rewrite (piece_iff_param _ _ _ _ _ Hp). rewrite Hm, Hg.
  unfold Table.positive.
  destruct (Z.ltb_spec 0 (Max o)) as [Hmax|Hmax],
           (Z.ltb_spec 0 (Page o)) as [Hpage|Hpage]; cbn.
  all: split_and!; try split.
  all: try (intros [? [=]]); try (intros; lia); try (intros; by eexists).
  all: try (by intros ->); try done.
Qed.

(** C10.  A call without options dereferences nothing: it does what a call
    with the zero options does, and its only parameter is the API key. *)
Theorem nil_options (P : Platform) (c : Client) :
  Search P c None = Search P c (Some SearchOptions.zero)
  ∧ Headlines P c None = Headlines P c (Some SearchOptions.zero)
  ∧ Search_params c None = inr {[ "apikey"%string := [apiKey c] ]}
  ∧ Headlines_params c None = inr {[ "apikey"%string := [apiKey c] ]}
  ∧ Search P c None
    = Search_request P c
        (baseURL c +:+ "/v1/search?apikey=" +:+ url.QueryEscape (apiKey c))
  ∧ Headlines P c None
    = Headlines_request P c
        (baseURL c +:+ "/v1/headlines?apikey=" +:+ url.QueryEscape (apiKey c)).
Proof.
  unfold Search, Headlines. change Headlines_params with Search_params.
  rewrite zero_params, no_options_params.
  unfold Search_url, Headlines_url. rewrite Encode_apikey.
  repeat split.
Qed.

(** ** From the request to the result *)

(** What a call returns once its request has been answered. *)
Lemma request_answered P c u resp :
  answered P c u resp →
  Search_request P c u
  = if negb (StatusCode resp =? StatusOK) then
      (None, Some (apiError resp), exchange c u)
    else
      match unmarshal.Decode (parseStrictRFC3339 P) (Body resp)
              SearchResponse.zero with
      | (_, Some err) =>
          (None, Some (Errorf_w "error parsing response: " err), exchange c u)
      | (searchResponse, None) => (Some searchResponse, None, exchange c u)
      end.
Proof.
  intros [Hparse Hdo]. unfold Search_request, http_NewRequest.
  rewrite Hparse, Hdo. unfold apiError, io_ReadAll.
  destruct (negb (StatusCode resp =? StatusOK)); [done|].
  by destruct (unmarshal.Decode _ _ _) as [r [e|]].
Qed.

Lemma Search_answered P c options params resp :
  Search_params c options = inr params →
  answered P c (Search_url c params) resp →
  Search P c options = Search_request P c (Search_url c params).
Proof. intros Hp _. unfold Search. by rewrite Hp. Qed.

Lemma Headlines_answered P c options params resp :
  Search_params c options = inr params →
  answered P c (Headlines_url c params) resp →
  Headlines P c options = Search_request P c (Headlines_url c params).
Proof.
  intros Hp _. unfold Headlines. change Headlines_params with Search_params.
  by rewrite Hp.
Qed.

Lemma mock_answered status body c u :
  answered (mock status body) c u (mkResponse status body).
Proof. by split. Qed.

(** C7, as the code has it.  A response whose status is not 200 makes
    [Search] and [Headlines] fail with the API error that carries the status
    code and the bytes read from the body, whatever they are and however the
    read ended: all of the body when the read succeeds, the bytes read
    before the failure when it fails.  No response is returned.  A mocked
    429 with the body rate limited gives the error with 429 and that text. *)
Theorem api_error (P : Platform) (c : Client) (options : option SearchOptions.t)
    (params : url.Values) (resp : Response) :
  Search_params c options = inr params →
  StatusCode resp ≠ StatusOK →
  (answered P c (Search_url c params) resp →
   Search P c options
   = (None, Some (apiError resp), exchange c (Search_url c params)))
  ∧ (answered P c (Headlines_url c params) resp →
     Headlines P c options
     = (None, Some (apiError resp), exchange c (Headlines_url c params)))
  ∧ (StatusCode resp = 429 → content (Body resp) = "rate limited"%string →
     apiError resp = errors_New "API error (status 429): rate limited").
Proof.
  intros Hp Hstatus.
  assert (Hne : negb (StatusCode resp =? StatusOK) = true).
  { apply negb_true_iff, Z.eqb_neq, Hstatus. }
  split; [|split].
  - intros Ha. rewrite (Search_answered _ _ _ _ _ Hp Ha).
    by rewrite (request_answered _ _ _ _ Ha), Hne.
  - intros Ha. rewrite (Headlines_answered _ _ _ _ _ Hp Ha).
    by rewrite (request_answered _ _ _ _ Ha), Hne.
  - intros Hs Hb. unfold apiError. by rewrite Hs, Hb.
Qed.

(** *** When decoding fails before any value is stored *)

Lemma spaces_pending s ps n :
  json.nonSpace s = false →
  json.scanBytes json.stateBeginValue ps n s
  = json.Pending json.stateBeginValue ps.
Proof.
  revert n. induction s as [|c s IH]; intros n Hs; [done|].
  cbn [json.nonSpace] in Hs. apply orb_false_iff in Hs as [Hc Hs].
  apply negb_false_iff in Hc.
  cbn [json.scanBytes json.step]. rewrite Hc. by apply IH.
Qed.

(** Bytes that run out with an object or an array open hold more than
    white space. *)
Lemma open_nonSpace s st ps :
  json.scanBytes json.stateBeginValue [] 0 s = json.Pending st ps →
  ps ≠ [] → json.nonSpace s = true.
Proof.
  intros Hscan Hps. destruct (json.nonSpace s) eqn:Hs; [done|].
  rewrite (spaces_pending _ _ _ Hs) in Hscan. by injection Hscan as _ <-.
Qed.

Lemma complete_open v f ps w : json.complete v (f :: ps) ≠ json.End w.
Proof. destruct f; cbn; try done. by destruct v. Qed.

Lemma stepEndValue_space ps w : json.stepEndValue ps " " ≠ json.End w.
Proof. done. Qed.

Lemma endNumber_open acc f ps w : json.endNumber acc (f :: ps) " " ≠ json.End w.
Proof.
  unfold json.endNumber.
  pose proof (complete_open (json.JNumber acc) f ps) as Hc.
  destruct (json.complete (json.JNumber acc) (f :: ps)) as [st' ps'| |];
    [apply stepEndValue_space | apply Hc | done].
Qed.

(** With an object or an array open, the end of the bytes ends no value. *)
Lemma step_space_open st f ps w : json.step st (f :: ps) " " ≠ json.End w.
Proof.
  destruct st; try done.
  - apply endNumber_open.
  - apply endNumber_open.
  - apply endNumber_open.
  - apply endNumber_open.
  - cbn [json.step]. destruct expect as [|e rest]; [done|].
    destruct (Ascii.eqb " " e); [|done].
    destruct rest; [apply complete_open | done].
Qed.

Section DecodeFails.

Variable parse : string → error + Time.

(** A body without a well-formed value at its start fails with the error of
    the scanner, and nothing is stored. *)
Lemma Decode_unreadable body cur e :
  json.readValue body = inl e →
  unmarshal.Decode parse body cur = (cur, Some e).
Proof. intros H. unfold unmarshal.Decode. by rewrite H. Qed.

(** A body that ends inside an object or an array fails with the error of
    an unexpected end. *)
Lemma Decode_truncated body cur st ps :
  json.scanBytes json.stateBeginValue [] 0 (content body) = json.Pending st ps →
  ps ≠ [] → final body = io_EOF →
  unmarshal.Decode parse body cur = (cur, Some io_ErrUnexpectedEOF).
Proof.
  intros Hscan Hps Hfinal. apply Decode_unreadable.
  unfold json.readValue. rewrite Hscan, Hfinal. cbn [isEOF].
  rewrite (open_nonSpace _ _ _ Hscan Hps).
  destruct ps as [|f ps]; [done|].
  pose proof (step_space_open st f ps) as Hstep.
  destruct (json.step st (f :: ps) " ") as [| w |]; [done | by destruct (Hstep w) | done].
Qed.

End DecodeFails.

(** *** What fits the response *)

Section MembersFit.

Import json unmarshal.

Context {A F : Type} (fields : list (string * F)).
Context (storeField : A → F → string → value → option error → stored A).
Context (field : F → value → bool).

Hypothesis Hmono : ∀ a f name v saved,
  is_Some saved → is_Some (savedError (storeField a f name v saved)).
Hypothesis Hfit : ∀ a f name v,
  Shape.clean (storeField a f name v None) ↔ field f v = true.

Lemma members_mono ms :
  ∀ cur saved,
    is_Some saved →
    is_Some (savedError (storeMembers fields storeField ms cur saved)).
Proof.
  induction ms as [|[k v] ms IH]; intros cur saved Hs; [done|].
  cbn [storeMembers]. destruct (unquote k) as [key|]; [|done].
  destruct (findField fields key) as [[name f]|]; [|by apply IH].
  cbv zeta. pose proof (Hmono cur f name v saved Hs) as Hm.
  destruct (failure _); [done|]. by apply IH.
Qed.

Lemma members_fit ms :
  ∀ cur,
    Shape.clean (storeMembers fields storeField ms cur None)
    ↔ Shape.members fields field ms = true.
Proof.
  induction ms as [|[k v] ms IH]; intros cur; [done|].
  cbn [storeMembers Shape.members forallb fst snd].
  destruct (unquote k) as [key|].
  2:{ cbn [andb]. split; [by intros [[=] _]|done]. }
  destruct (findField fields key) as [[name f]|]; [|cbn [andb]; apply IH].
  cbv zeta. rewrite andb_true_iff, <- (Hfit cur f name v).
  fold (Shape.members fields field ms). unfold Shape.clean in *.
  destruct (failure (storeField cur f name v None)) as [e|] eqn:Hf.
  { split; [intros [H _]; congruence|by intros [[H _] _]]. }
  destruct (savedError (storeField cur f name v None)) as [e|] eqn:Hsv.
  - split; [|by intros [[_ [=]] _]].
    intros [_ H].
    destruct (members_mono ms (val (storeField cur f name v None)) (Some e))
      as [e' He']; [by eexists|].
    by rewrite He' in H.
  - rewrite IH. split; [intros H; by repeat split|by intros [_ H]].
Qed.

End MembersFit.

Section Fits.

Import json unmarshal.

Variable parse : string → error + Time.

Lemma saveError_some saved e : is_Some (saveError saved e).
Proof. by destruct saved. Qed.

Lemma string_mono ctx v cur saved :
  is_Some saved → is_Some (savedError (store_string ctx v cur saved)).
Proof.
  intros Hs. destruct v; cbn; try done; try apply saveError_some.
  by destruct (unquote _).
Qed.

Lemma string_fit ctx v cur :
  Shape.clean (store_string ctx v cur None) ↔ Shape.text v = true.
Proof.
  destruct v; cbn; try (split; [by intros [_ [=]]|done]).
  destruct (unquote _); [done|]. split; [by intros [[=] _]|done].
Qed.

Lemma int_mono ctx v cur saved :
  is_Some saved → is_Some (savedError (store_int ctx v cur saved)).
Proof.
  intros Hs. destruct v; cbn; try done; try apply saveError_some.
  destruct (ParseInt _); [done|apply saveError_some].
Qed.

Lemma int_fit ctx v cur :
  Shape.clean (store_int ctx v cur None) ↔ Shape.integer v = true.
Proof.
  destruct v; cbn; try (split; [by intros [_ [=]]|done]).
  destruct (ParseInt _); [done|]. split; [by intros [_ [=]]|done].
Qed.

Lemma ptr_int_mono ctx v cur saved :
  is_Some saved → is_Some (savedError (store_ptr_int ctx v cur saved)).
Proof.
  intros Hs. destruct v; try done; apply (int_mono ctx _ (default 0 cur) _ Hs).
Qed.

Lemma ptr_int_fit ctx v cur :
  Shape.clean (store_ptr_int ctx v cur None) ↔ Shape.integer v = true.
Proof.
  destruct v; try done; apply (int_fit ctx _ (default 0 cur)).
Qed.

Lemma Time_mono v cur saved :
  is_Some saved → is_Some (savedError (store_Time parse v cur saved)).
Proof. intros Hs. destruct v; cbn; try done. by destruct (parse _). Qed.

Lemma Time_fit v cur :
  Shape.clean (store_Time parse v cur None) ↔ Shape.time parse v = true.
Proof.
  destruct v; cbn; try (split; [by intros [[=] _]|done]).
  destruct (parse _); [|done]. split; [by intros [[=] _]|done].
Qed.

Lemma Source_mono ctx v cur saved :
  is_Some saved → is_Some (savedError (store_Source ctx v cur saved)).
Proof.
  intros Hs. destruct v; cbn [store_Source]; try done;
    try apply saveError_some.
  apply members_mono; [|done].
  intros a f name w sv Hsv. destruct f; apply string_mono, Hsv.
Qed.

Lemma Source_fit ctx v cur :
  Shape.clean (store_Source ctx v cur None) ↔ Shape.source v = true.
Proof.
  destruct v; cbn [store_Source Shape.source Shape.object];
    try (split; [by intros [_ [=]]|done]).
  apply members_fit.
  - intros a f name w sv Hsv. destruct f; apply string_mono, Hsv.
  - intros a f name w. destruct f; apply string_fit.
Qed.

Lemma Article_field_mono ctx a f name v saved :
  is_Some saved →
  is_Some (savedError (store_Article_field parse ctx a f name v saved)).
Proof.
  intros Hs. destruct a, f; cbn [store_Article_field mapStored savedError];
    first [by apply string_mono | by apply Time_mono | by apply Source_mono].
Qed.

Lemma Article_field_fit ctx a f name v :
  Shape.clean (store_Article_field parse ctx a f name v None)
  ↔ match f with
    | fPublishedAt => Shape.time parse v
    | fSource => Shape.source v
    | _ => Shape.text v
    end = true.
Proof.
  destruct a, f; cbn [store_Article_field];
    first [apply string_fit | apply Time_fit | apply Source_fit].
Qed.

Lemma Article_mono ctx v cur saved :
  is_Some saved → is_Some (savedError (store_Article parse ctx v cur saved)).
Proof.
  intros Hs. destruct v; cbn [store_Article]; try done;
    try apply saveError_some.
  apply members_mono; [|done]. intros a f name w sv. apply Article_field_mono.
Qed.

Lemma Article_fit ctx v cur :
  Shape.clean (store_Article parse ctx v cur None) ↔ Shape.article parse v = true.
Proof.
  destruct v; cbn [store_Article Shape.article Shape.object];
    try (split; [by intros [_ [=]]|done]).
  apply members_fit.
  - intros a f name w sv. apply Article_field_mono.
  - intros a f name w. apply Article_field_fit.
Qed.

Lemma elems_mono ctx es :
  ∀ slots saved,
    is_Some saved →
    is_Some (savedError (store_elems parse ctx es slots saved)).
Proof.
  induction es as [|e es IH]; intros slots saved Hs; [done|].
  cbn [store_elems]. cbv zeta.
  pose proof (Article_mono ctx e (default Article.zero (head slots)) saved Hs)
    as Hm.
  destruct (failure _); [done|]. by apply IH.
Qed.

Lemma elems_fit ctx es :
  ∀ slots,
    Shape.clean (store_elems parse ctx es slots None)
    ↔ forallb (Shape.article parse) es = true.
Proof.
  induction es as [|e es IH]; intros slots; [done|].
  cbn [store_elems forallb]. cbv zeta.
  rewrite andb_true_iff,
    <- (Article_fit ctx e (default Article.zero (head slots))).
  unfold Shape.clean in *.
  destruct (failure (store_Article parse ctx e _ None)) as [x|] eqn:Hf.
  { split; [intros [H _]; cbn in H; congruence|by intros [[H _] _]]. }
  destruct (savedError (store_Article parse ctx e _ None)) as [x|] eqn:Hsv.
  - split; [|by intros [[_ [=]] _]].
    intros [_ H]. cbn [mapStored savedError] in H.
    destruct (elems_mono ctx es (tail slots) (Some x)) as [e' He'];
      [by eexists|].
    by rewrite He' in H.
  - cbn [mapStored failure savedError].
    rewrite IH. split; [intros H; by repeat split|by intros [_ H]].
Qed.

Lemma Articles_mono ctx v cur spare saved :
  is_Some saved →
  is_Some (savedError (store_Articles parse ctx v cur spare saved)).
Proof.
  intros Hs. destruct v as [| | | | |es|]; cbn [store_Articles]; try done;
    try apply saveError_some.
  destruct es; [done|]. by apply elems_mono.
Qed.

Lemma Articles_fit ctx v cur spare :
  Shape.clean (store_Articles parse ctx v cur spare None)
  ↔ Shape.articles parse v = true.
Proof.
  destruct v as [| | | | |es|]; cbn [store_Articles Shape.articles];
    try (split; [by intros [_ [=]]|done]).
  destruct es as [|e es]; [done|]. apply elems_fit.
Qed.

Lemma response_field_mono ctx rs f name v saved :
  is_Some saved →
  is_Some (savedError (store_SearchResponse_field parse ctx rs f name v saved)).
Proof.
  intros Hs. destruct rs as [[] spare], f;
    cbn [store_SearchResponse_field mapStored savedError];
    first [by apply int_mono | by apply ptr_int_mono | by apply Articles_mono].
Qed.

Lemma response_field_fit ctx rs f name v :
  Shape.clean (store_SearchResponse_field parse ctx rs f name v None)
  ↔ match f with
    | fArticles => Shape.articles parse v
    | _ => Shape.integer v
    end = true.
Proof.
  destruct rs as [[] spare], f; cbn [store_SearchResponse_field];
    first [apply int_fit | apply ptr_int_fit | apply Articles_fit].
Qed.

(** A value is stored into the response without an error exactly when it
    has the shape of the response. *)
Lemma unmarshal_fit j cur :
  snd (unmarshalValue parse j cur) = None ↔ Shape.response parse j = true.
Proof.
  unfold unmarshalValue. cbn [snd].
  transitivity (Shape.clean (store_SearchResponse parse noContext j cur None)).
  { unfold Shape.clean. destruct (failure _); [|tauto].
    split; [done|by intros [[=] _]]. }
  destruct j; cbn [store_SearchResponse Shape.response Shape.object];
    try (split; [by intros [_ [=]]|done]).
  change (Shape.clean (mapStored ?f ?r)) with (Shape.clean r).
  apply members_fit.
  - intros a f name w sv. apply response_field_mono.
  - intros a f name w. apply response_field_fit.
Qed.

End Fits.

(** *** Bodies without a first value *)

Section Unfinished.

Import json.

Lemma step_expects st ps c st' ps' :
  expectsNoSpace st → step st ps c = Cont st' ps' → expectsNoSpace st'.
Proof.
  intros Hst.
  destruct st; cbn [step];
    unfold stepBeginValue, stepBeginString, state0_step, stateESign_step,
      endNumber, stepEndValue, complete, pushParseState;
    repeat case_match; intros [= <- <-]; try done.
  cbn [expectsNoSpace Str.mem] in *. by apply orb_false_iff in Hst as [_ ?].
Qed.

Lemma scan_expects s :
  ∀ st ps n st' ps',
    expectsNoSpace st → scanBytes st ps n s = Pending st' ps' →
    expectsNoSpace st'.
Proof.
  induction s as [|c s IH]; intros st ps n st' ps' Hst; cbn [scanBytes].
  - by intros [= <- <-].
  - destruct (step st ps c) as [st1 ps1|v|ctx] eqn:Hstep; [|done|done].
    apply IH. by apply (step_expects st ps c st1 ps1).
Qed.

(** The end of the input ends a value only when it comes inside a number
    that stands alone. *)
Lemma step_space_End st ps v :
  expectsNoSpace st → step st ps " " = End v →
  ps = [] ∧ inNumber st = true.
Proof.
  intros Hst Hstep. destruct ps as [|f ps].
  2:{ by destruct (step_space_open st f ps v). }
  split; [done|].
  destruct st; try done. cbn [step] in Hstep.
  destruct expect as [|e rest]; [done|].
  cbn [expectsNoSpace Str.mem] in Hst. apply orb_false_iff in Hst as [He _].
  by rewrite He in Hstep.
Qed.

End Unfinished.

Lemma readValue_blank body :
  json.nonSpace (content body) = false → final body = io_EOF →
  json.readValue body = inl io_EOF.
Proof.
  intros Hs Hf. unfold json.readValue.
  rewrite (spaces_pending _ _ _ Hs), Hf, Hs. reflexivity.
Qed.

Section ReadFails.

Import json.

Lemma begins_no_value c :
  isSpace c = false → beginsValue c = false →
  step stateBeginValue [] c = Err "looking for beginning of value".
Proof.
  destruct c as [[] [] [] [] [] [] [] []]; intros Hs Hb;
    first [discriminate Hs | discriminate Hb | reflexivity].
Qed.

Lemma scan_no_value ws c rest :
  nonSpace ws = false → isSpace c = false → beginsValue c = false →
  ∀ n,
    scanBytes stateBeginValue [] n (ws +:+ String c rest)
    = Invalid (syntaxError c "looking for beginning of value"
                 (n + Str.len ws + 1)).
Proof.
  intros Hws Hc Hb. induction ws as [|w ws IH]; intros n.
  - change (scanBytes stateBeginValue [] n (String c rest) = Invalid
              (syntaxError c "looking for beginning of value"
                 (n + Str.len EmptyString + 1))).
    cbn [scanBytes]. rewrite (begins_no_value c Hc Hb).
    do 2 f_equal. unfold Str.len. cbn. lia.
  - cbn [nonSpace] in Hws. apply orb_false_iff in Hws as [Hw Hws].
    apply negb_false_iff in Hw.
    rewrite append_cons. cbn [scanBytes step]. rewrite Hw, (IH Hws).
    do 2 f_equal. unfold Str.len. cbn [String.length]. lia.
Qed.

Lemma readValue_Invalid body e :
  scanBytes stateBeginValue [] 0 (content body) = Invalid e →
  readValue body = inl e.
Proof. intros H. unfold readValue. by rewrite H. Qed.

Lemma readValue_unfinished body st ps :
  scanBytes stateBeginValue [] 0 (content body) = Pending st ps →
  ps ≠ [] ∨ inNumber st = false →
  nonSpace (content body) = true → final body = io_EOF →
  readValue body = inl io_ErrUnexpectedEOF.
Proof.
  intros Hscan Hopen Hns Hfinal.
  unfold readValue. rewrite Hscan, Hfinal, Hns. cbn [isEOF].
  destruct (step st ps " ") as [| v |] eqn:Hstep; [done| |done].
  assert (Hex : expectsNoSpace st)
    by exact (scan_expects _ stateBeginValue _ _ _ _ I Hscan).
  destruct (step_space_End _ _ _ Hex Hstep) as [-> Hnum].
  destruct Hopen as [|Hn]; [done|]. by rewrite Hn in Hnum.
Qed.

Lemma readValue_read_error body st ps :
  scanBytes stateBeginValue [] 0 (content body) = Pending st ps →
  final body ≠ io_EOF →
  readValue body = inl (final body).
Proof.
  intros Hscan Hfinal. unfold readValue. rewrite Hscan.
  by destruct (final body).
Qed.

End ReadFails.

Section AfterValue.

Lemma scanBytes_Value_append st ps n s v r t :
  json.scanBytes st ps n s = json.Value v r →
  json.scanBytes st ps n (s +:+ t) = json.Value v (r +:+ t).
Proof.
  revert st ps n. induction s as [|c s IH]; intros st ps n; [done|].
  rewrite append_cons. cbn [json.scanBytes].
  destruct (json.step st ps c) as [st' ps'|w|ctx]; [apply IH| |done].
  intros [= -> <-]. f_equal.
  destruct ps; [destruct (json.inNumber st)|]; reflexivity.
Qed.

End AfterValue.

(** C8, as the code has it.  When decoding the body of a 200 response
    fails, [Search] and [Headlines] fail with an error that wraps the cause,
    and the struct that decoding left behind is not returned.  Decoding
    fails when the body has no complete well-formed JSON value at its start:
    when it is empty or white space, when it ends inside a value, when the
    read fails before the value is complete, when a byte breaks the syntax,
    as the first byte does that begins no value.  Decoding fails as well
    when the value does not have the shape of the response, and only then.
    What follows the first value is not looked at: the outcome is that of
    storing the value. *)
Theorem decode_error (P : Platform) (c : Client) (options : option SearchOptions.t)
    (params : url.Values) (resp : Response) :
  Search_params c options = inr params →
  StatusCode resp = StatusOK →
  (∀ partial cause,
     unmarshal.Decode (parseStrictRFC3339 P) (Body resp) SearchResponse.zero
     = (partial, Some cause) →
     (answered P c (Search_url c params) resp →
      Search P c options
      = (None,
         Some (wrapError ("error parsing response: " +:+ Error cause) cause),
         exchange c (Search_url c params)))
     ∧ (answered P c (Headlines_url c params) resp →
        Headlines P c options
        = (None,
           Some (wrapError ("error parsing response: " +:+ Error cause) cause),
           exchange c (Headlines_url c params)))
     ∧ Unwrap (wrapError ("error parsing response: " +:+ Error cause) cause)
       = Some cause)
  ∧ (∀ e, json.readValue (Body resp) = inl e →
          unmarshal.Decode (parseStrictRFC3339 P) (Body resp) SearchResponse.zero
          = (SearchResponse.zero, Some e))
  ∧ (∀ st ps,
       json.scanBytes json.stateBeginValue [] 0 (content (Body resp))
       = json.Pending st ps →
       ps ≠ [] → final (Body resp) = io_EOF →
       unmarshal.Decode (parseStrictRFC3339 P) (Body resp) SearchResponse.zero
       = (SearchResponse.zero, Some io_ErrUnexpectedEOF))
  ∧ (json.nonSpace (content (Body resp)) = false →
     final (Body resp) = io_EOF →
     parseFailure P c options params resp io_EOF)
  ∧ (∀ st ps,
       json.scanBytes json.stateBeginValue [] 0 (content (Body resp))
       = json.Pending st ps →
       ps ≠ [] ∨ json.inNumber st = false →
       json.nonSpace (content (Body resp)) = true →
       final (Body resp) = io_EOF →
       parseFailure P c options params resp io_ErrUnexpectedEOF)
  ∧ (∀ st ps,
       json.scanBytes json.stateBeginValue [] 0 (content (Body resp))
       = json.Pending st ps →
       final (Body resp) ≠ io_EOF →
       parseFailure P c options params resp (final (Body resp)))
  ∧ (∀ e,
       json.scanBytes json.stateBeginValue [] 0 (content (Body resp))
       = json.Invalid e →
       parseFailure P c options params resp e)
  ∧ (∀ ws ch rest,
       content (Body resp) = (ws +:+ String ch rest)%string →
       json.nonSpace ws = false → json.isSpace ch = false →
       beginsValue ch = false →
       parseFailure P c options params resp
         (json.syntaxError ch "looking for beginning of value"
            (Str.len ws + 1)))
  ∧ (∀ j,
       json.readValue (Body resp) = inr j →
       (Shape.response (parseStrictRFC3339 P) j = false →
        ∃ cause,
          snd (unmarshal.Decode (parseStrictRFC3339 P) (Body resp)
                 SearchResponse.zero) = Some cause
          ∧ parseFailure P c options params resp cause)
       ∧ (Shape.response (parseStrictRFC3339 P) j = true →
          snd (unmarshal.Decode (parseStrictRFC3339 P) (Body resp)
                 SearchResponse.zero) = None))
  ∧ (∀ s t v r,
       content (Body resp) = (s +:+ t)%string →
       json.scanBytes json.stateBeginValue [] 0 s = json.Value v r →
       isContainer v = true ∨ t ≠ EmptyString ∨ final (Body resp) = io_EOF →
       unmarshal.Decode (parseStrictRFC3339 P) (Body resp) SearchResponse.zero
       = unmarshal.unmarshalValue (parseStrictRFC3339 P) v SearchResponse.zero).
Proof.
  intros Hp Hstatus.
  assert (Hok : negb (StatusCode resp =? StatusOK) = false).
  { apply negb_false_iff, Z.eqb_eq, Hstatus. }
  assert (Hwrap : ∀ partial cause,
    unmarshal.Decode (parseStrictRFC3339 P) (Body resp) SearchResponse.zero
    = (partial, Some cause) →
    parseFailure P c options params resp cause).
  { intros partial cause Hdec. split; intros Ha.
    - rewrite (Search_answered _ _ _ _ _ Hp Ha).
      by rewrite (request_answered _ _ _ _ Ha), Hok, Hdec.
    - rewrite (Headlines_answered _ _ _ _ _ Hp Ha).
      by rewrite (request_answered _ _ _ _ Ha), Hok, Hdec. }
  assert (Hread : ∀ e, json.readValue (Body resp) = inl e →
    parseFailure P c options params resp e).
  { intros e He. apply (Hwrap SearchResponse.zero).
    by apply Decode_unreadable. }
  split_and!.
  - intros partial cause Hdec.
    destruct (Hwrap partial cause Hdec) as [Hs Hh]. by split_and!.
  - intros e. apply Decode_unreadable.
  - intros st ps. apply Decode_truncated.
  - intros Hs Hf. by apply Hread, readValue_blank.
  - intros st ps Hscan Hopen Hns Hf.
    by apply Hread, (readValue_unfinished _ st ps).
  - intros st ps Hscan Hf. by apply Hread, (readValue_read_error _ st ps).
  - intros e He. by apply Hread, readValue_Invalid.
  - intros ws ch rest Hc Hws Hch Hb. apply Hread, readValue_Invalid.
    by rewrite Hc, (scan_no_value ws ch rest Hws Hch Hb).
  - intros j Hj.
    assert (Hdec : unmarshal.Decode (parseStrictRFC3339 P) (Body resp)
                     SearchResponse.zero
                   = unmarshal.unmarshalValue (parseStrictRFC3339 P) j
                       SearchResponse.zero).
    { unfold unmarshal.Decode. by rewrite Hj. }
    pose proof (unmarshal_fit (parseStrictRFC3339 P) j SearchResponse.zero)
      as Hfit.
    rewrite <- Hdec in Hfit. split.
    + intros Hshape.
      destruct (unmarshal.Decode _ _ _) as [partial [cause|]] eqn:Hd.
      * exists cause. split; [done|]. by apply (Hwrap partial).
      * cbn [snd] in Hfit. rewrite (proj1 Hfit eq_refl) in Hshape. done.
    + intros Hshape. by apply Hfit.
  - intros s t v r Hc Hs Hg.
    destruct (Body resp) as [body fin]. cbn [content final] in *.
    subst body.
    pose proof (scanBytes_Value_append _ _ _ _ _ _ t Hs) as Ht.
    unfold unmarshal.Decode, json.readValue. cbn. rewrite Ht.
    destruct Hg as [Hv|[Hne| ->]].
    + replace (json.closesItself v) with true by (by destruct v). done.
    + replace (Str.isEmpty (r +:+ t)) with false by (by destruct r, t).
      by rewrite orb_true_r.
    + by rewrite !orb_true_r.
Qed.

(** The sample body decodes to the sample response, whatever follows the
    body and whatever parser of time is at hand. *)
Lemma Decode_sample parse final :
  unmarshal.Decode parse (mkReader sampleBody final) SearchResponse.zero
  = (sampleResponse, None).
Proof. by vm_compute. Qed.

(** C9.  A 200 response with the sample body makes the call return the
    response with two articles in total, page 1, no next page and the one
    article titled A from the source named S; and whatever struct decoding
    yields without error is returned as it is. *)
Theorem success_returns_decoded (P : Platform) (c : Client)
    (options : option SearchOptions.t) (params : url.Values) (resp : Response) :
  Search_params c options = inr params →
  StatusCode resp = StatusOK →
  (content (Body resp) = sampleBody →
   (answered P c (Search_url c params) resp →
    Search P c options
    = (Some sampleResponse, None, exchange c (Search_url c params)))
   ∧ (answered P c (Headlines_url c params) resp →
      Headlines P c options
      = (Some sampleResponse, None, exchange c (Headlines_url c params))))
  ∧ (∀ r,
       unmarshal.Decode (parseStrictRFC3339 P) (Body resp) SearchResponse.zero
       = (r, None) →
       (answered P c (Search_url c params) resp →
        Search P c options = (Some r, None, exchange c (Search_url c params)))
       ∧ (answered P c (Headlines_url c params) resp →
          Headlines P c options
          = (Some r, None, exchange c (Headlines_url c params)))).
Proof.
  intros Hp Hstatus.
  assert (Hok : negb (StatusCode resp =? StatusOK) = false).
  { apply negb_false_iff, Z.eqb_eq, Hstatus. }
  assert (Hany : ∀ r,
    unmarshal.Decode (parseStrictRFC3339 P) (Body resp) SearchResponse.zero
    = (r, None) →
    (answered P c (Search_url c params) resp →
     Search P c options = (Some r, None, exchange c (Search_url c params)))
    ∧ (answered P c (Headlines_url c params) resp →
       Headlines P c options
       = (Some r, None, exchange c (Headlines_url c params)))).
  { intros r Hdec. split; intros Ha.
    - rewrite (Search_answered _ _ _ _ _ Hp Ha).
      by rewrite (request_answered _ _ _ _ Ha), Hok, Hdec.
    - rewrite (Headlines_answered _ _ _ _ _ Hp Ha).
      by rewrite (request_answered _ _ _ _ Ha), Hok, Hdec. }
  split; [|exact Hany].
  intros Hbody. apply Hany.
  destruct resp as [status [body final]]. cbn in Hbody. subst body.
  apply Decode_sample.
Qed.

(** ** The theorems at concrete inputs *)

Lemma dated_params : Search_params demoClient (Some datedOptions) = inr datedParams.
Proof. vm_compute. reflexivity. Defined.

Lemma nil_params : Search_params demoClient None = inr keyParams.
Proof. vm_compute. reflexivity. Defined.

Lemma date_options_witness :
  (otherType (StartDate datedOptions) = false
   ∧ otherType (EndDate datedOptions) = false
   ∧ ∃ params,
       Search_params demoClient (Some datedOptions) = inr params
       ∧ Headlines_params demoClient (Some datedOptions) = inr params
       ∧ params !! "startDate" = Some ["2024-01-01"%string]
       ∧ params !! "endDate" = Some ["2024-03-01T18:00:00+05:30"%string]
       ∧ (∀ k v, Wire.pair k v ∈ Wire.pieces (url.Encode params)
                 ↔ params !! k = Some [v])
       ∧ Search (mock 200 (mkReader sampleBody io_EOF)) demoClient
           (Some datedOptions)
         = Search_request (mock 200 (mkReader sampleBody io_EOF)) demoClient
             (Search_url demoClient params)
       ∧ Headlines (mock 200 (mkReader sampleBody io_EOF)) demoClient
           (Some datedOptions)
         = Headlines_request (mock 200 (mkReader sampleBody io_EOF)) demoClient
             (Headlines_url demoClient params))
  ∧ ((otherType (StartDate misusedOptions) = true
      ∨ otherType (EndDate misusedOptions) = true)
     ∧ ∃ msg,
         msg = "startDate must be string or time.Time"%string
         ∧ Search (mock 200 (mkReader sampleBody io_EOF)) demoClient
             (Some misusedOptions)
           = (None, Some (errors_New msg), [])
         ∧ Headlines (mock 200 (mkReader sampleBody io_EOF)) demoClient
             (Some misusedOptions)
           = (None, Some (errors_New msg), []))
  ∧ (0 <= RFC3339.year (mkTime 1709296200 0 19800) <= 9999
     ∧ -86400 < 19800 < 86400
     ∧ RFC3339.isDateTime "2024-03-01T18:00:00+05:30" = true
     ∧ RFC3339.instant "2024-03-01T18:00:00+05:30" = Some (1709296200, 19800)
     ∧ (Z.rem 19800 60 = 0 →
        RFC3339.instant "2024-03-01T18:00:00+05:30"
        = Some (1709296200, 19800))).
Proof.
  assert (Hy : 0 <= RFC3339.year (mkTime 1709296200 0 19800) <= 9999)
    by (vm_compute; split; discriminate).
  assert (Hz : -86400 < 19800 < 86400) by lia.
  split; [|split].
  - split; [reflexivity|]. split; [reflexivity|].
    exact (proj1 (date_options (mock 200 (mkReader sampleBody io_EOF))
                    demoClient datedOptions) eq_refl eq_refl).
  - split; [left; reflexivity|].
    exact (proj1 (proj2 (date_options (mock 200 (mkReader sampleBody io_EOF))
                           demoClient misusedOptions)) (or_introl eq_refl)).
  - split; [exact Hy|]. split; [exact Hz|].
    exact (proj2 (proj2 (date_options (mock 200 (mkReader sampleBody io_EOF))
                           demoClient datedOptions))
             (mkTime 1709296200 0 19800) Hy Hz).
Defined.

Lemma list_filters_witness :
  (Search_params demoClient (Some datedOptions) = inr datedParams
   ∨ Headlines_params demoClient (Some datedOptions) = inr datedParams)
  ∧ datedParams !! "lang" = Some ["en, fr,en"%string]
  ∧ datedParams !! "country" = None
  ∧ datedParams !! "region" = None
  ∧ datedParams !! "category" = Some ["tech"%string]
  ∧ datedParams !! "attributes" = None
  ∧ datedParams !! "publisher" = None
  ∧ (∀ k v, Wire.pair k v ∈ Wire.pieces (url.Encode datedParams)
            ↔ datedParams !! k = Some [v])
  ∧ (∀ l : list string,
       l ≠ [] → Forall (λ x, Str.mem "," x = false) l →
       strings_Split (strings_Join l ",") "," = l).
Proof.
  split; [left; exact dated_params|].
  exact (list_filters demoClient datedOptions datedParams (or_introl dated_params)).
Defined.

Lemma content_flag_witness :
  (Search_params demoClient (Some datedOptions) = inr datedParams
   ∨ Headlines_params demoClient (Some datedOptions) = inr datedParams)
  ∧ datedParams !! "content" = Some ["false"%string]
  ∧ ("content=true"%string ∈ Wire.pieces (url.Encode datedParams)
     ↔ Some false = Some true)
  ∧ ("content=false"%string ∈ Wire.pieces (url.Encode datedParams)
     ↔ Some false = Some false)
  ∧ (Some false = None →
     ∀ v, Wire.pair "content" v ∉ Wire.pieces (url.Encode datedParams)).
Proof.
  split; [left; exact dated_params|].
  exact (content_flag demoClient datedOptions datedParams (or_introl dated_params)).
Defined.

Lemma numeric_filters_witness :
  (Search_params demoClient (Some datedOptions) = inr datedParams
   ∨ Headlines_params demoClient (Some datedOptions) = inr datedParams)
  ∧ (is_Some (datedParams !! "max") ↔ 0 < 5)
  ∧ (is_Some (datedParams !! "page") ↔ 0 < 0)
  ∧ (0 < 5 → datedParams !! "max" = Some ["5"%string])
  ∧ (0 < 0 → datedParams !! "page" = Some ["0"%string])
  ∧ (5 = 5 → datedParams !! "max" = Some ["5"%string])
  ∧ (5 = 5 → "max=5"%string ∈ Wire.pieces (url.Encode datedParams))
  ∧ (5 ≤ 0 → ∀ v, Wire.pair "max" v ∉ Wire.pieces (url.Encode datedParams))
  ∧ (0 ≤ 0 → ∀ v, Wire.pair "page" v ∉ Wire.pieces (url.Encode datedParams)).
Proof.
  split; [left; exact dated_params|].
  exact (numeric_filters demoClient datedOptions datedParams
           (or_introl dated_params)).
Defined.

Lemma api_error_witness :
  Search_params demoClient None = inr keyParams
  ∧ 429 ≠ StatusOK
  ∧ (answered (mock 429 (mkReader "rate limited" io_EOF)) demoClient
       (Search_url demoClient keyParams)
       (mkResponse 429 (mkReader "rate limited" io_EOF)) →
     Search (mock 429 (mkReader "rate limited" io_EOF)) demoClient None
     = (None, Some (errors_New "API error (status 429): rate limited"),
        exchange demoClient "https://api.allnewsapi.com/v1/search?apikey=KEY"))
  ∧ (answered (mock 429 (mkReader "rate limited" io_EOF)) demoClient
       (Headlines_url demoClient keyParams)
       (mkResponse 429 (mkReader "rate limited" io_EOF)) →
     Headlines (mock 429 (mkReader "rate limited" io_EOF)) demoClient None
     = (None, Some (errors_New "API error (status 429): rate limited"),
        exchange demoClient "https://api.allnewsapi.com/v1/headlines?apikey=KEY"))
  ∧ (429 = 429 → "rate limited"%string = "rate limited"%string →
     apiError (mkResponse 429 (mkReader "rate limited" io_EOF))
     = errors_New "API error (status 429): rate limited").
Proof.
  split; [exact nil_params|]. split; [discriminate|].
  exact (api_error (mock 429 (mkReader "rate limited" io_EOF)) demoClient None
           keyParams (mkResponse 429 (mkReader "rate limited" io_EOF))
           nil_params ltac:(discriminate)).
Defined.

Lemma truncated_decode :
  unmarshal.Decode (parseStrictRFC3339 (mock 200 truncatedBody)) truncatedBody
    SearchResponse.zero
  = (SearchResponse.zero, Some io_ErrUnexpectedEOF).
Proof. vm_compute. reflexivity. Defined.

Lemma decode_error_witness :
  Search_params demoClient None = inr keyParams
  ∧ 200 = StatusOK
  ∧ unmarshal.Decode (parseStrictRFC3339 (mock 200 truncatedBody)) truncatedBody
      SearchResponse.zero
    = (SearchResponse.zero, Some io_ErrUnexpectedEOF)
  ∧ (answered (mock 200 truncatedBody) demoClient
       (Search_url demoClient keyParams) (mkResponse 200 truncatedBody) →
     Search (mock 200 truncatedBody) demoClient None
     = (None,
        Some (wrapError "error parsing response: unexpected EOF"
                io_ErrUnexpectedEOF),
        exchange demoClient "https://api.allnewsapi.com/v1/search?apikey=KEY"))
  ∧ (answered (mock 200 truncatedBody) demoClient
       (Headlines_url demoClient keyParams) (mkResponse 200 truncatedBody) →
     Headlines (mock 200 truncatedBody) demoClient None
     = (None,
        Some (wrapError "error parsing response: unexpected EOF"
                io_ErrUnexpectedEOF),
        exchange demoClient "https://api.allnewsapi.com/v1/headlines?apikey=KEY"))
  ∧ Unwrap (wrapError "error parsing response: unexpected EOF"
              io_ErrUnexpectedEOF)
    = Some io_ErrUnexpectedEOF
  ∧ json.readValue misshapenBody
    = inr (json.JObject [("totalArticles"%string, json.JString "two")])
  ∧ Shape.response (parseStrictRFC3339 (mock 200 misshapenBody))
      (json.JObject [("totalArticles"%string, json.JString "two")])
    = false
  ∧ ∃ cause,
      snd (unmarshal.Decode (parseStrictRFC3339 (mock 200 misshapenBody))
             misshapenBody SearchResponse.zero) = Some cause
      ∧ parseFailure (mock 200 misshapenBody) demoClient None keyParams
          (mkResponse 200 misshapenBody) cause.
Proof.
  split; [exact nil_params|]. split; [reflexivity|].
  split; [exact truncated_decode|].
  assert (Hread : json.readValue misshapenBody
                  = inr (json.JObject
                           [("totalArticles"%string, json.JString "two")]))
    by (vm_compute; reflexivity).
  assert (Hshape : Shape.response (parseStrictRFC3339 (mock 200 misshapenBody))
                     (json.JObject
                        [("totalArticles"%string, json.JString "two")])
                   = false)
    by (vm_compute; reflexivity).
  split_and!; try exact Hread; try exact Hshape.
  - exact (proj1 (proj1 (decode_error (mock 200 truncatedBody) demoClient None
                           keyParams (mkResponse 200 truncatedBody)
                           nil_params eq_refl)
                    SearchResponse.zero io_ErrUnexpectedEOF truncated_decode)).
  - exact (proj1 (proj2 (proj1 (decode_error (mock 200 truncatedBody)
                                  demoClient None keyParams
                                  (mkResponse 200 truncatedBody)
                                  nil_params eq_refl)
                           SearchResponse.zero io_ErrUnexpectedEOF
                           truncated_decode))).
  - reflexivity.
  - destruct (decode_error (mock 200 misshapenBody) demoClient None keyParams
                (mkResponse 200 misshapenBody) nil_params eq_refl)
      as (_ & _ & _ & _ & _ & _ & _ & _ & Hfit & _).
    exact (proj1 (Hfit _ Hread) Hshape).
Defined.

Lemma success_returns_decoded_witness :
  Search_params demoClient None = inr keyParams
  ∧ 200 = StatusOK
  ∧ (sampleBody = sampleBody →
     (answered (mock 200 (mkReader sampleBody io_EOF)) demoClient
        (Search_url demoClient keyParams)
        (mkResponse 200 (mkReader sampleBody io_EOF)) →
      Search (mock 200 (mkReader sampleBody io_EOF)) demoClient None
      = (Some sampleResponse, None,
         exchange demoClient "https://api.allnewsapi.com/v1/search?apikey=KEY"))
     ∧ (answered (mock 200 (mkReader sampleBody io_EOF)) demoClient
          (Headlines_url demoClient keyParams)
          (mkResponse 200 (mkReader sampleBody io_EOF)) →
        Headlines (mock 200 (mkReader sampleBody io_EOF)) demoClient None
        = (Some sampleResponse, None,
           exchange demoClient
             "https://api.allnewsapi.com/v1/headlines?apikey=KEY"))).
Proof.
  split; [exact nil_params|]. split; [reflexivity|].
  exact (proj1 (success_returns_decoded (mock 200 (mkReader sampleBody io_EOF))
                  demoClient None keyParams
                  (mkResponse 200 (mkReader sampleBody io_EOF))
                  nil_params eq_refl)).
Defined.

(** ** Where the code departs from the sentences of C1, C7 and C8 *)

(** C1 says that a timestamp reaches the query formatted as RFC3339.  Here
    the start date is the first second of the year 10000: its parameter has
    a year of five digits, which no date-time of RFC 3339 has, and the
    request goes out with it. *)
Lemma year_10000_is_no_date_time :
  RFC3339.year (mkTime 253402300800 0 0) = 10000
  ∧ Search_params demoClient (Some farOptions) = inr farParams
  ∧ Headlines_params demoClient (Some farOptions) = inr farParams
  ∧ farParams !! "startDate" = Some ["10000-01-01T00:00:00Z"%string]
  ∧ RFC3339.isDateTime "10000-01-01T00:00:00Z" = false
  ∧ RFC3339.instant "10000-01-01T00:00:00Z" = None
  ∧ Search (mock 200 (mkReader sampleBody io_EOF)) demoClient (Some farOptions)
    = (Some sampleResponse, None,
       exchange demoClient
         ("https://api.allnewsapi.com/v1/search?apikey=KEY"
          +:+ "&startDate=10000-01-01T00%3A00%3A00Z")).
Proof. repeat split; vm_compute; reflexivity. Qed.

(** C7 says that a failure while reading the body of an error response
    yields an empty body in the error.  Here the read fails after eight
    bytes, and the error carries those eight bytes. *)
Lemma read_failure_keeps_bytes :
  snd (io_ReadAll cutBody) = Some io_ErrUnexpectedEOF
  ∧ Search (mock 429 cutBody) demoClient None
    = (None, Some (errors_New "API error (status 429): rate lim"),
       exchange demoClient "https://api.allnewsapi.com/v1/search?apikey=KEY")
  ∧ Search (mock 429 cutBody) demoClient None
    ≠ (None, Some (errors_New "API error (status 429): "),
       exchange demoClient "https://api.allnewsapi.com/v1/search?apikey=KEY")
  ∧ Headlines (mock 429 cutBody) demoClient None
    = (None, Some (errors_New "API error (status 429): rate lim"),
       exchange demoClient "https://api.allnewsapi.com/v1/headlines?apikey=KEY").
Proof.
  split; [reflexivity|].
  assert (Hs : Search (mock 429 cutBody) demoClient None
    = (None, Some (errors_New "API error (status 429): rate lim"),
       exchange demoClient "https://api.allnewsapi.com/v1/search?apikey=KEY"))
    by (vm_compute; reflexivity).
  split; [exact Hs|]. split; [rewrite Hs; discriminate|].
  vm_compute; reflexivity.
Qed.

(** C8 says that every 200 response whose body is not valid JSON fails.
    Here the body is a JSON object followed by other bytes: it is not valid
    JSON, and the call returns the object decoded, with no error. *)
Lemma trailing_bytes_accepted :
  json.Valid (content trailingBody) = false
  ∧ Search (mock 200 trailingBody) demoClient None
    = (Some (SearchResponse.mk 2 0 None []), None,
       exchange demoClient "https://api.allnewsapi.com/v1/search?apikey=KEY")
  ∧ Headlines (mock 200 trailingBody) demoClient None
    = (Some (SearchResponse.mk 2 0 None []), None,
       exchange demoClient "https://api.allnewsapi.com/v1/headlines?apikey=KEY").
Proof. repeat split; vm_compute; reflexivity. Qed.

(** * Further properties of the code *)

(** ** The client and its options *)

Lemma fold_settings key base timeout settings :
  fold_left (λ client option, option client) (option_of <$> settings)
    (mkClient key base (mkHttpClient timeout))
  = mkClient key (lastBaseURL base settings)
      (mkHttpClient (lastTimeout timeout settings)).
Proof.
  revert base timeout.
  induction settings as [|[u|d] r IH]; intros base timeout; [done|..];
    rewrite fmap_cons; cbn [fold_left option_of lastBaseURL lastTimeout];
    apply IH.
Qed.

Lemma isEmpty_false key : key ≠ EmptyString → Str.isEmpty key = false.
Proof. by destruct key. Qed.

Lemma NewClient_settings key settings :
  key ≠ EmptyString →
  NewClient key (option_of <$> settings)
  = (Some (mkClient key (lastBaseURL defaultBaseURL settings)
             (mkHttpClient (lastTimeout (30 * Second) settings))), None).
Proof.
  intros Hkey. unfold NewClient. rewrite (isEmpty_false _ Hkey).
  cbv zeta. by rewrite fold_settings.
Qed.

(** X1.  [NewClient] fails on the empty key, with the error API key is
    required and no client, whatever the options.  On any other key it
    returns a client that has the key as given, and of its options the last
    of a kind wins: the base URL is that of the last [WithBaseURL], or else
    the address of the API, and the timeout that of the last [WithTimeout],
    or else thirty seconds. *)
Theorem NewClient_last_option_wins (key : string) (settings : list Setting) :
  NewClient key (option_of <$> settings)
  = if Str.isEmpty key
    then (None, Some (errors_New "API key is required"))
    else (Some (mkClient key
                  (lastBaseURL "https://api.allnewsapi.com" settings)
                  (mkHttpClient (lastTimeout 30000000000 settings))), None).
Proof.
  destruct key as [|a key]; [done|].
  exact (NewClient_settings (String a key) settings ltac:(done)).
Qed.

(** X2.  A client made by [NewClient] sends the request of a call without
    options to its configured base URL, with the key escaped in the query,
    through an HTTP client that has the configured timeout. *)
Theorem configured_client_requests (P : Platform) (key : string)
    (settings : list Setting) (c : Client) :
  NewClient key (option_of <$> settings) = (Some c, None) →
  Timeout (httpClient c) = lastTimeout (30 * Second) settings
  ∧ Search P c None
    = Search_request P c
        (lastBaseURL defaultBaseURL settings +:+ "/v1/search?apikey="
         +:+ url.QueryEscape key)
  ∧ Headlines P c None
    = Headlines_request P c
        (lastBaseURL defaultBaseURL settings +:+ "/v1/headlines?apikey="
         +:+ url.QueryEscape key).
Proof.
  intros Hc. destruct (decide (key = EmptyString)) as [->|Hkey]; [done|].
  rewrite (NewClient_settings _ _ Hkey) in Hc. injection Hc as <-.
  split; [done|].
  unfold Search, Headlines. change Headlines_params with Search_params.
  rewrite no_options_params. unfold Search_url, Headlines_url.
  rewrite Encode_apikey. done.
Qed.

(** ** The parameters of a call *)

(** A call without options builds the parameters of the zero options. *)
Lemma params_some c options params :
  Search_params c options = inr params ∨ Headlines_params c options = inr params →
  ∃ o, Search_params c (Some o) = inr params.
Proof.
  change Headlines_params with Search_params. intros H.
  assert (Hp : Search_params c options = inr params) by (by destruct H).
  destruct options as [o|]; [by exists o|].
  exists SearchOptions.zero. by rewrite zero_params, <- no_options_params.
Qed.

(** X3.  The texts Query, SortBy and Format are left out when empty and
    otherwise reach the query as they are, under q, sortby and format, in
    one piece each, whatever bytes they hold. *)
Theorem text_filters (c : Client) (o : SearchOptions.t) (params : url.Values) :
  Search_params c (Some o) = inr params ∨ Headlines_params c (Some o) = inr params →
  params !! "q" = given (Query o)
  ∧ params !! "sortby" = given (SortBy o)
  ∧ params !! "format" = given (Format o)
  ∧ (Query o ≠ EmptyString →
     ("q=" +:+ url.QueryEscape (Query o))%string
     ∈ Wire.pieces (url.Encode params))
  ∧ (SortBy o ≠ EmptyString →
     ("sortby=" +:+ url.QueryEscape (SortBy o))%string
     ∈ Wire.pieces (url.Encode params))
  ∧ (Format o ≠ EmptyString →
     ("format=" +:+ url.QueryEscape (Format o))%string
     ∈ Wire.pieces (url.Encode params))
  ∧ (Query o = EmptyString →
     ∀ v, Wire.pair "q" v ∉ Wire.pieces (url.Encode params))
  ∧ (SortBy o = EmptyString →
     ∀ v, Wire.pair "sortby" v ∉ Wire.pieces (url.Encode params))
  ∧ (Format o = EmptyString →
     ∀ v, Wire.pair "format" v ∉ Wire.pieces (url.Encode params)).
Proof.
  intros H. apply params_of_options in H as [Hp Hk].
  assert (Hq : params !! "q" = given (Query o)).
  { rewrite Hk by key_side. cbn. unfold Table.nonEmpty, given.
    by destruct (Str.isEmpty _). }
  assert (Hs : params !! "sortby" = given (SortBy o)).
  { rewrite Hk by key_side. cbn. unfold Table.nonEmpty, given.
    by destruct (Str.isEmpty _). }
  assert (Hf : params !! "format" = given (Format o)).
  { rewrite Hk by key_side. cbn. unfold Table.nonEmpty, given.
    by destruct (Str.isEmpty _). }
  split_and!; try done.
  - intros Hne.
    change ("q=" +:+ url.QueryEscape (Query o))%string
      with (Wire.pair "q" (Query o)).
    rewrite (piece_iff_param _ _ _ _ _ Hp), Hq. by destruct (Query o).
  - intros Hne.
    change ("sortby=" +:+ url.QueryEscape (SortBy o))%string
      with (Wire.pair "sortby" (SortBy o)).
    rewrite (piece_iff_param _ _ _ _ _ Hp), Hs. by destruct (SortBy o).
  - intros Hne.
    change ("format=" +:+ url.QueryEscape (Format o))%string
      with (Wire.pair "format" (Format o)).
    rewrite (piece_iff_param _ _ _ _ _ Hp), Hf. by destruct (Format o).
  - intros He v. rewrite (piece_iff_param _ _ _ _ _ Hp), Hq, He. done.
  - intros He v. rewrite (piece_iff_param _ _ _ _ _ Hp), Hs, He. done.
  - intros He v. rewrite (piece_iff_param _ _ _ _ _ Hp), Hf, He. done.
Qed.

Lemma omap_ext_in {A B} (f g : A → option B) (l : list A) :
  (∀ x, x ∈ l → f x = g x) → omap f l = omap g l.
Proof.
  induction l as [|x l IH]; intros H; [done|].
  cbn [omap list_omap]. rewrite (H x) by left.
  fold (@omap list _ A B). rewrite IH; [done|].
  intros y Hy. apply H. by right.
Qed.

Lemma length_omap_filter {A B} (f : A → option B) (l : list A) :
  length (omap f l) = length (filter (λ x, is_Some (f x)) l).
Proof.
  induction l as [|x l IH]; [done|].
  rewrite filter_cons. cbn [omap list_omap]. fold (@omap list _ A B).
  destruct (f x) as [y|].
  - destruct (decide (is_Some (Some y))) as [_|Hn]; [|by destruct Hn].
    cbn [length]. by rewrite IH.
  - destruct (decide (is_Some (@None B))) as [Hs|_]; [by destruct Hs|].
    exact IH.
Qed.

(** The pieces of the query of parameters built from options. *)
Lemma pieces_built c o params :
  Search_params c (Some o) = inr params →
  Wire.pieces (url.Encode params) = omap (pieceOf params) Wire.sortedKeys.
Proof.
  intros Hp. apply params_built in Hp as (sd & ed & _ & _ & ->).
  rewrite pieces_Encode_table. unfold Wire.pairs.
  apply omap_ext_in. intros k _.
  unfold pieceOf. rewrite lookup_table.
  by destruct (Table.entry k _).
Qed.

(** X4.  The API key is a parameter of every call, with or without
    options, and its piece is the first of the encoded query. *)
Theorem apikey_always_first (c : Client) (options : option SearchOptions.t)
    (params : url.Values) :
  Search_params c options = inr params ∨ Headlines_params c options = inr params →
  params !! "apikey" = Some [apiKey c]
  ∧ head (Wire.pieces (url.Encode params))
    = Some ("apikey=" +:+ url.QueryEscape (apiKey c))%string
  ∧ ∃ rest, url.Encode params
            = ("apikey=" +:+ url.QueryEscape (apiKey c) +:+ rest)%string.
Proof.
  intros H. destruct (params_some _ _ _ H) as [o Hp].
  assert (Hk : params !! "apikey" = Some [apiKey c]).
  { destruct (params_built _ _ _ Hp) as (sd & ed & _ & _ & ->).
    by rewrite lookup_table. }
  split; [done|].
  assert (Hhead : ∃ l, Wire.pieces (url.Encode params)
                       = Wire.pair "apikey" (apiKey c) :: l).
  { rewrite (pieces_built _ _ _ Hp). unfold Wire.sortedKeys.
    cbn [omap list_omap]. unfold pieceOf at 1. rewrite Hk. by eexists. }
  destruct Hhead as [l Hl]. split; [by rewrite Hl|].
  destruct (params_built _ _ _ Hp) as (sd & ed & _ & _ & ->).
  rewrite pieces_Encode_table in Hl. rewrite Encode_table, Hl.
  rewrite Join_from. eexists.
  change (Wire.pair "apikey" (apiKey c))
    with ("apikey=" +:+ url.QueryEscape (apiKey c))%string.
  by rewrite !append_assoc.
Qed.

(** X5.  The parameters hold no key but the fifteen of the API, and one text
    for each key they hold: no key is added twice. *)
Theorem params_keys_single (c : Client) (options : option SearchOptions.t)
    (params : url.Values) :
  Search_params c options = inr params ∨ Headlines_params c options = inr params →
  (∀ k vs, params !! k = Some vs → k ∈ Wire.sortedKeys ∧ ∃ v, vs = [v])
  ∧ (1 ≤ size params ≤ 15)%nat.
Proof.
  intros H. destruct (params_some _ _ _ H) as [o Hp].
  destruct (params_built _ _ _ Hp) as (sd & ed & _ & _ & ->).
  assert (Hkeys : ∀ k vs,
    Table.addAll (Table.entries c o sd ed) ∅ !! k = Some vs →
    k ∈ Wire.sortedKeys ∧ ∃ v, vs = [v]).
  { intros k vs. rewrite lookup_table. intros Hk.
    destruct (Table.entry k _) as [v|] eqn:He; [|done].
    injection Hk as <-. split; [|by eexists].
    apply (sortedKeys_keys c o sd ed), entry_present. by rewrite He. }
  split; [exact Hkeys|]. split.
  - assert (Hne : Table.addAll (Table.entries c o sd ed) ∅ ≠ ∅).
    { intros He. apply (f_equal (λ m : url.Values, m !! "apikey")) in He.
      by rewrite lookup_table, lookup_empty in He. }
    apply map_size_non_empty_iff in Hne. lia.
  - rewrite <- (size_dom (D:=gset string)).
    change (size (dom ?m)) with (length (elements (dom m))).
    change 15%nat with (length Wire.sortedKeys).
    apply submseteq_length, NoDup_submseteq; [apply NoDup_elements|].
    intros k. rewrite elem_of_elements, elem_of_dom. intros [vs Hk].
    by apply (Hkeys k vs).
Qed.

(** X6.  The encoded query lists the parameters in the byte order of their
    keys, one piece for each, so it has as many pieces as there are
    parameters; no text of an option adds a piece or an ampersand. *)
Theorem query_in_key_order (c : Client) (options : option SearchOptions.t)
    (params : url.Values) :
  Search_params c options = inr params ∨ Headlines_params c options = inr params →
  Wire.pieces (url.Encode params) = omap (pieceOf params) Wire.sortedKeys
  ∧ length (Wire.pieces (url.Encode params)) = size params
  ∧ url.Encode params = strings_Join (omap (pieceOf params) Wire.sortedKeys) "&"
  ∧ Forall (λ p, Str.mem "&" p = false) (Wire.pieces (url.Encode params)).
Proof.
  intros H. destruct (params_some _ _ _ H) as [o Hp].
  assert (Hpieces := pieces_built _ _ _ Hp).
  split; [done|].
  destruct (params_built _ _ _ Hp) as (sd & ed & _ & _ & ->).
  split; [|split].
  - rewrite pieces_Encode_table. unfold Wire.pairs.
    rewrite length_omap_filter.
    rewrite <- (size_dom (D:=gset string)).
    change (size (dom ?m)) with (length (elements (dom m))).
    rewrite <- (Permutation_length
                  (sortKeys_perm
                     (elements (dom (Table.addAll (Table.entries c o sd ed) ∅))))).
    rewrite table_keys_sorted.
    f_equal. apply list_filter_iff. intros k. by rewrite fmap_is_Some.
  - by rewrite <- Hpieces, pieces_Encode_table, Encode_table.
  - rewrite pieces_Encode_table. apply Forall_forall. intros x Hx.
    unfold Wire.pairs in Hx.
    apply list_elem_of_omap in Hx as (k & _ & Hx).
    destruct (Table.entry k _) as [v|]; [|done].
    injection Hx as <-. apply pair_no_amp.
Qed.

(** ** Decimal texts and escaping *)

Section Decimal.

Lemma digitsValue_pos d p :
  json.digitsValue (Z.pos p) (NilEmpty.string_of_uint d)
  = Z.pos (Pos.of_uint_acc d p).
Proof.
  revert p.
  induction d as [|d IH|d IH|d IH|d IH|d IH|d IH|d IH|d IH|d IH|d IH];
    intros p; [done|..];
    cbn [NilEmpty.string_of_uint json.digitsValue Pos.of_uint_acc];
    rewrite <- IH; f_equal; vm_compute (Byte.code _); lia.
Qed.

Lemma digitsValue_uint d :
  json.digitsValue 0 (NilEmpty.string_of_uint d) = Z.of_N (Pos.of_uint d).
Proof.
  induction d as [|d IH|d IH|d IH|d IH|d IH|d IH|d IH|d IH|d IH|d IH];
    [done|exact IH|..];
    cbn [NilEmpty.string_of_uint json.digitsValue Pos.of_uint Z.of_N];
    rewrite <- digitsValue_pos; f_equal.
Qed.

Lemma allDigits_uint d : json.allDigits (NilEmpty.string_of_uint d) = true.
Proof. induction d; [done|..]; exact IHd. Qed.

Lemma digit_not_minus c : Byte.isDigit c = true → Ascii.eqb c "-" = false.
Proof. destruct c as [[] [] [] [] [] [] [] []]; by vm_compute. Qed.

Lemma ParseInt_digits s :
  s ≠ EmptyString → json.allDigits s = true →
  json.digitsValue 0 s ≤ 2 ^ 63 - 1 →
  0 ≤ json.digitsValue 0 s →
  json.ParseInt s = Some (json.digitsValue 0 s).
Proof.
  intros Hne Hd Hhi Hlo. destruct s as [|c r]; [done|].
  unfold json.ParseInt. cbn [json.allDigits] in Hd.
  apply andb_true_iff in Hd as [Hc Hr].
  rewrite (digit_not_minus _ Hc). cbn [Str.isEmpty json.allDigits].
  rewrite Hc, Hr. cbn [andb negb orb]. cbv zeta.
  destruct (Z.leb_spec (- 2 ^ 63) (json.digitsValue 0 (String c r))); [|lia].
  destruct (Z.leb_spec (json.digitsValue 0 (String c r)) (2 ^ 63 - 1)); [|lia].
  done.
Qed.

Lemma ParseInt_minus s :
  s ≠ EmptyString → json.allDigits s = true →
  - 2 ^ 63 ≤ - json.digitsValue 0 s → 0 ≤ json.digitsValue 0 s →
  json.ParseInt (String "-" s) = Some (- json.digitsValue 0 s).
Proof.
  intros Hne Hd Hlo Hpos. unfold json.ParseInt.
  change (Ascii.eqb "-" "-") with true. cbv iota beta.
  destruct s as [|c r]; [done|]. cbn [Str.isEmpty]. rewrite Hd.
  cbn [andb negb orb]. cbv zeta.
  destruct (Z.leb_spec (- 2 ^ 63) (- json.digitsValue 0 (String c r))); [|lia].
  destruct (Z.leb_spec (- json.digitsValue 0 (String c r)) (2 ^ 63 - 1)); [|lia].
  done.
Qed.

Lemma uint_of_pos p :
  NilZero.string_of_uint (Pos.to_uint p) = NilEmpty.string_of_uint (Pos.to_uint p)
  ∧ NilEmpty.string_of_uint (Pos.to_uint p) ≠ EmptyString
  ∧ json.digitsValue 0 (NilEmpty.string_of_uint (Pos.to_uint p)) = Z.pos p.
Proof.
  pose proof (Unsigned.of_to p) as Hp.
  assert (Hv := digitsValue_uint (Pos.to_uint p)). rewrite Hp in Hv.
  destruct (Pos.to_uint p); by try done.
Qed.

Lemma digit_unescaped c :
  Byte.isDigit c = true → url.escapeByte c = Str.single c.
Proof. destruct c as [[] [] [] [] [] [] [] []]; by vm_compute. Qed.

Lemma QueryEscape_digits s :
  json.allDigits s = true → url.QueryEscape s = s.
Proof.
  induction s as [|c r IH]; [done|]. cbn [json.allDigits].
  intros [Hc Hr]%andb_true_iff.
  by rewrite QueryEscape_cons, (digit_unescaped _ Hc), (IH Hr).
Qed.

End Decimal.

(** X7.  The decimal text that [Sprintf] writes for an [int], as for Max
    and Page, goes into the query unescaped, and it is a number that the
    JSON decoder stores back into an [int] as the same value. *)
Theorem decimal_text_reads_back (n : Z) :
  - 2 ^ 63 ≤ n ≤ 2 ^ 63 - 1 →
  json.ParseInt (Sprintf_d n) = Some n
  ∧ url.QueryEscape (Sprintf_d n) = Sprintf_d n
  ∧ ∀ ctx cur saved,
      unmarshal.store_int ctx (json.JNumber (Sprintf_d n)) cur saved
      = unmarshal.ok n saved.
Proof.
  intros Hn.
  assert (H : json.ParseInt (Sprintf_d n) = Some n
              ∧ url.QueryEscape (Sprintf_d n) = Sprintf_d n).
  { unfold Sprintf_d. destruct n as [|p|p]; [done|..];
      destruct (uint_of_pos p) as (Hz & Hne & Hv);
      cbn [Z.to_int NilZero.string_of_int]; rewrite Hz.
    - split.
      + rewrite (ParseInt_digits _ Hne (allDigits_uint _)); rewrite Hv; [done|lia..].
      + apply QueryEscape_digits, allDigits_uint.
    - split.
      + rewrite (ParseInt_minus _ Hne (allDigits_uint _)); rewrite Hv; [done|lia..].
      + rewrite QueryEscape_cons.
        by rewrite (QueryEscape_digits _ (allDigits_uint _)). }
  destruct H as [Hparse Hesc]. split; [done|]. split; [done|].
  intros ctx cur saved. cbn [unmarshal.store_int]. by rewrite Hparse.
Qed.

Section Escape.

Lemma escapeByte_wire c : allBytes wireByte (url.escapeByte c) = true.
Proof. destruct c as [[] [] [] [] [] [] [] []]; reflexivity. Qed.

Lemma allBytes_append p a b :
  allBytes p (a +:+ b) = allBytes p a && allBytes p b.
Proof.
  induction a as [|c a IH]; [done|]. rewrite append_cons. cbn [allBytes].
  by rewrite IH, andb_assoc.
Qed.

Lemma QueryEscape_wire s : allBytes wireByte (url.QueryEscape s) = true.
Proof.
  induction s as [|c s IH]; [done|].
  by rewrite QueryEscape_cons, allBytes_append, escapeByte_wire, IH.
Qed.

Lemma allBytes_mem p c s :
  allBytes p s = true → p c = false → Str.mem c s = false.
Proof.
  intros Hs Hc. induction s as [|d s IH]; [done|].
  cbn [allBytes Str.mem] in *. apply andb_true_iff in Hs as [Hd Hs].
  rewrite (IH Hs), orb_false_r.
  destruct (Ascii.eqb_spec c d) as [->|]; [|done]. congruence.
Qed.

End Escape.

(** X8.  What [QueryEscape] writes holds only letters, digits, the marks
    - _ . ~, the percent sign and the plus sign, so none of the bytes that
    cut a URL or a query; unescaping gives back the text as it was; and two
    texts are escaped alike only when they are the same text. *)
Theorem escape_is_lossless (s : string) :
  allBytes wireByte (url.QueryEscape s) = true
  ∧ (∀ c, Str.mem c "&=;#?/ " = true → Str.mem c (url.QueryEscape s) = false)
  ∧ url.QueryUnescape (url.QueryEscape s) = Some s
  ∧ (∀ s', url.QueryEscape s = url.QueryEscape s' → s = s').
Proof.
  split; [apply QueryEscape_wire|]. split; [|split].
  - intros c Hc. apply (allBytes_mem wireByte); [apply QueryEscape_wire|].
    cbn [Str.mem] in Hc. rewrite orb_false_r in Hc.
    repeat (apply orb_true_iff in Hc as [Hc|Hc];
            [by apply Ascii.eqb_eq in Hc as ->|]).
    by apply Ascii.eqb_eq in Hc as ->.
  - apply QueryUnescape_QueryEscape.
  - intros s'. apply QueryEscape_inj.
Qed.

(** ** From the URL to the outcome, case by case *)

(** What a call returns from the URL on, case by case. *)
Lemma request_cases P c u :
  match url_Parse P u with
  | Some err =>
      Search_request P c u
      = (None, Some (Errorf_w "error creating request: " err), [])
  | None =>
      match Do P (httpClient c) (requestFor u) with
      | inl err =>
          Search_request P c u
          = (None, Some (Errorf_w "error making request: " err),
             [evDo (httpClient c) (requestFor u)])
      | inr resp =>
          answered P c u resp
          ∧ Search_request P c u
            = if negb (StatusCode resp =? StatusOK) then
                (None, Some (apiError resp), exchange c u)
              else
                match unmarshal.Decode (parseStrictRFC3339 P) (Body resp)
                        SearchResponse.zero with
                | (_, Some err) =>
                    (None, Some (Errorf_w "error parsing response: " err),
                     exchange c u)
                | (searchResponse, None) =>
                    (Some searchResponse, None, exchange c u)
                end
      end
  end.
Proof.
  destruct (url_Parse P u) as [err|] eqn:Hparse.
  - unfold Search_request, http_NewRequest. by rewrite Hparse.
  - destruct (Do P (httpClient c) (requestFor u)) as [err|resp] eqn:Hdo.
    + unfold Search_request, http_NewRequest. rewrite Hparse.
      unfold requestFor in Hdo. by rewrite Hdo.
    + assert (Ha : answered P c u resp) by done.
      split; [done|]. apply (request_answered _ _ _ _ Ha).
Qed.

(** X9.  When the text of the URL does not parse, the call fails before any
    request is made: its error wraps the error of the parse under the words
    error creating request, and nothing has gone to the network. *)
Theorem request_not_created (P : Platform) (c : Client)
    (options : option SearchOptions.t) (params : url.Values) (err : error) :
  Search_params c options = inr params →
  (url_Parse P (Search_url c params) = Some err →
   Search P c options
   = (None,
      Some (wrapError ("error creating request: " +:+ Error err) err), []))
  ∧ (url_Parse P (Headlines_url c params) = Some err →
     Headlines P c options
     = (None,
        Some (wrapError ("error creating request: " +:+ Error err) err), []))
  ∧ Unwrap (wrapError ("error creating request: " +:+ Error err) err)
    = Some err.
Proof.
  intros Hp. unfold Search, Headlines.
  change Headlines_params with Search_params.
  change Headlines_request with Search_request. rewrite Hp.
  split; [|split; [|done]]; intros Hparse.
  - pose proof (request_cases P c (Search_url c params)) as H.
    by rewrite Hparse in H.
  - pose proof (request_cases P c (Headlines_url c params)) as H.
    by rewrite Hparse in H.
Qed.

(** X10.  When the transport fails, the call fails with an error that wraps
    the error of the transport under the words error making request; the one
    request has been made, and there is no body to close. *)
Theorem transport_failure (P : Platform) (c : Client)
    (options : option SearchOptions.t) (params : url.Values) (err : error) :
  Search_params c options = inr params →
  (url_Parse P (Search_url c params) = None →
   Do P (httpClient c) (requestFor (Search_url c params)) = inl err →
   Search P c options
   = (None, Some (wrapError ("error making request: " +:+ Error err) err),
      [evDo (httpClient c) (requestFor (Search_url c params))]))
  ∧ (url_Parse P (Headlines_url c params) = None →
     Do P (httpClient c) (requestFor (Headlines_url c params)) = inl err →
     Headlines P c options
     = (None, Some (wrapError ("error making request: " +:+ Error err) err),
        [evDo (httpClient c) (requestFor (Headlines_url c params))]))
  ∧ Unwrap (wrapError ("error making request: " +:+ Error err) err) = Some err.
Proof.
  intros Hp. unfold Search, Headlines.
  change Headlines_params with Search_params.
  change Headlines_request with Search_request. rewrite Hp.
  split; [|split; [|done]]; intros Hparse Hdo.
  - pose proof (request_cases P c (Search_url c params)) as H.
    by rewrite Hparse, Hdo in H.
  - pose proof (request_cases P c (Headlines_url c params)) as H.
    by rewrite Hparse, Hdo in H.
Qed.

(** The outcome of a call on a URL: one of a response and an error, and the
    events that go with it. *)
Lemma request_outcome P c u :
  (∃ e, Search_request P c u = (None, Some e, []) ∧ is_Some (url_Parse P u))
  ∨ (∃ e err, Search_request P c u
              = (None, Some e, [evDo (httpClient c) (requestFor u)])
              ∧ Do P (httpClient c) (requestFor u) = inl err)
  ∨ (∃ e resp, Search_request P c u = (None, Some e, exchange c u)
               ∧ Do P (httpClient c) (requestFor u) = inr resp)
  ∨ (∃ r resp, Search_request P c u = (Some r, None, exchange c u)
               ∧ Do P (httpClient c) (requestFor u) = inr resp
               ∧ StatusCode resp = StatusOK
               ∧ unmarshal.Decode (parseStrictRFC3339 P) (Body resp)
                   SearchResponse.zero = (r, None)).
Proof.
  pose proof (request_cases P c u) as H.
  destruct (url_Parse P u) as [err|] eqn:Hparse.
  { left. eexists. by split. }
  destruct (Do P (httpClient c) (requestFor u)) as [err|resp] eqn:Hdo.
  { right; left. by eexists _, _. }
  destruct H as [_ H].
  destruct (negb (StatusCode resp =? StatusOK)) eqn:Hs.
  { right; right; left. by eexists _, _. }
  destruct (unmarshal.Decode _ _ _) as [r [e|]] eqn:Hd.
  { right; right; left. by eexists _, _. }
  right; right; right. eexists _, _. split; [done|]. split; [done|].
  split; [|done]. by apply negb_false_iff, Z.eqb_eq in Hs.
Qed.

(** X11.  A call returns a response or an error, never both and never
    neither; and it returns a response only when a response with status 200
    was received and decoded without error, after which the body has been
    closed. *)
Theorem response_or_error (P : Platform) (c : Client)
    (options : option SearchOptions.t) :
  (is_Some (fst (fst (Search P c options)))
   ↔ snd (fst (Search P c options)) = None)
  ∧ (is_Some (fst (fst (Headlines P c options)))
     ↔ snd (fst (Headlines P c options)) = None)
  ∧ (∀ r, fst (fst (Search P c options)) = Some r →
       ∃ params resp,
         Search_params c options = inr params
         ∧ Do P (httpClient c) (requestFor (Search_url c params)) = inr resp
         ∧ StatusCode resp = 200
         ∧ unmarshal.Decode (parseStrictRFC3339 P) (Body resp)
             SearchResponse.zero = (r, None)
         ∧ snd (Search P c options) = exchange c (Search_url c params))
  ∧ (∀ r, fst (fst (Headlines P c options)) = Some r →
       ∃ params resp,
         Headlines_params c options = inr params
         ∧ Do P (httpClient c) (requestFor (Headlines_url c params)) = inr resp
         ∧ StatusCode resp = 200
         ∧ unmarshal.Decode (parseStrictRFC3339 P) (Body resp)
             SearchResponse.zero = (r, None)
         ∧ snd (Headlines P c options) = exchange c (Headlines_url c params)).
Proof.
  unfold Search, Headlines. change Headlines_params with Search_params.
  change Headlines_request with Search_request.
  destruct (Search_params c options) as [e|params].
  { cbn. split_and!; try done; split; try done; by intros [? [=]]. }
  assert (Hone : ∀ u,
    (is_Some (Search_request P c u).1.1 ↔ (Search_request P c u).1.2 = None)
    ∧ ∀ r, (Search_request P c u).1.1 = Some r →
        ∃ resp, Do P (httpClient c) (requestFor u) = inr resp
          ∧ StatusCode resp = 200
          ∧ unmarshal.Decode (parseStrictRFC3339 P) (Body resp)
              SearchResponse.zero = (r, None)
          ∧ (Search_request P c u).2 = exchange c u).
  { intros u.
    destruct (request_outcome P c u)
      as [(e & -> & _)|[(e & err & -> & _)|[(e & resp & -> & _)
         |(r & resp & -> & Hdo & Hs & Hd)]]]; cbn.
    1-3: split; [split; [by intros [? [=]]|done]|done].
    split; [done|]. intros r' [= <-]. by exists resp. }
  split; [apply Hone|]. split; [apply Hone|]. split.
  - intros r Hr. exists params. destruct (proj2 (Hone _) r Hr) as [resp H].
    exists resp. by split.
  - intros r Hr. exists params. destruct (proj2 (Hone _) r Hr) as [resp H].
    exists resp. by split.
Qed.

(** X12.  A call makes at most one request, a GET through the HTTP client of
    the client, and closes the body exactly when the transport gave a
    response: its events are none, the request alone when the transport
    failed, or the request and the close. *)
Theorem one_request_body_closed (P : Platform) (c : Client)
    (options : option SearchOptions.t) :
  (snd (Search P c options) = []
   ∨ ∃ params,
       Search_params c options = inr params
       ∧ ((snd (Search P c options)
           = [evDo (httpClient c) (requestFor (Search_url c params))]
           ∧ ∃ err, Do P (httpClient c) (requestFor (Search_url c params))
                    = inl err)
          ∨ (snd (Search P c options)
             = [evDo (httpClient c) (requestFor (Search_url c params)); evClose]
             ∧ ∃ resp, Do P (httpClient c) (requestFor (Search_url c params))
                       = inr resp)))
  ∧ (snd (Headlines P c options) = []
     ∨ ∃ params,
         Headlines_params c options = inr params
         ∧ ((snd (Headlines P c options)
             = [evDo (httpClient c) (requestFor (Headlines_url c params))]
             ∧ ∃ err, Do P (httpClient c) (requestFor (Headlines_url c params))
                      = inl err)
            ∨ (snd (Headlines P c options)
               = [evDo (httpClient c) (requestFor (Headlines_url c params));
                  evClose]
               ∧ ∃ resp,
                   Do P (httpClient c) (requestFor (Headlines_url c params))
                   = inr resp))).
Proof.
  unfold Search, Headlines. change Headlines_params with Search_params.
  change Headlines_request with Search_request.
  destruct (Search_params c options) as [e|params]; [by split; left|].
  assert (Hone : ∀ u,
    (Search_request P c u).2 = []
    ∨ ((Search_request P c u).2 = [evDo (httpClient c) (requestFor u)]
       ∧ ∃ err, Do P (httpClient c) (requestFor u) = inl err)
    ∨ ((Search_request P c u).2 = [evDo (httpClient c) (requestFor u); evClose]
       ∧ ∃ resp, Do P (httpClient c) (requestFor u) = inr resp)).
  { intros u.
    destruct (request_outcome P c u)
      as [(e & -> & _)|[(e & err & -> & Hdo)|[(e & resp & -> & Hdo)
         |(r & resp & -> & Hdo & _)]]]; cbn.
    - by left.
    - right; left. split; [done|]. by exists err.
    - right; right. split; [done|]. by exists resp.
    - right; right. split; [done|]. by exists resp. }
  split.
  - destruct (Hone (Search_url c params)) as [H|H]; [by left|].
    right. by exists params.
  - destruct (Hone (Headlines_url c params)) as [H|H]; [by left|].
    right. by exists params.
Qed.

(** ** A comma inside an element *)

Section Joined.

Lemma Join_cons_cons x y r sep :
  strings_Join (x :: y :: r) sep = x +:+ sep +:+ strings_Join (y :: r) sep.
Proof. reflexivity. Qed.

Lemma Join_comma l1 l2 a b :
  strings_Join (l1 ++ (a +:+ "," +:+ b) :: l2) ","
  = strings_Join (l1 ++ a :: b :: l2) ",".
Proof.
  induction l1 as [|x l1 IH].
  - cbn [app]. rewrite Join_cons_cons. destruct l2 as [|y r]; [done|].
    rewrite !Join_cons_cons. by rewrite !append_assoc.
  - cbn [app]. destruct l1 as [|z l1]; cbn [app] in *;
      rewrite !(Join_cons_cons x); by rewrite IH.
Qed.

End Joined.

(** X13.  An element of a list filter that holds a comma is joined as it
    is: the parameter is the same as for the list in which that element is
    cut in two at the comma. *)
Theorem comma_in_element (l1 l2 : list string) (a b : string) :
  strings_Join (l1 ++ (a +:+ "," +:+ b) :: l2) ","
  = strings_Join (l1 ++ a :: b :: l2) ","
  ∧ joined (l1 ++ (a +:+ "," +:+ b) :: l2) = joined (l1 ++ a :: b :: l2)
  ∧ Table.listText (l1 ++ (a +:+ "," +:+ b) :: l2)
    = Table.listText (l1 ++ a :: b :: l2).
Proof.
  pose proof (Join_comma l1 l2 a b) as H. split; [done|].
  unfold joined, Table.listText.
  destruct l1 as [|x l1]; cbn [app] in *; by rewrite H.
Qed.

(** ** The errors of a call *)

Section Kinds.

Lemma params_error c options e :
  Search_params c options = inl e →
  e = errors_New "startDate must be string or time.Time"
  ∨ e = errors_New "endDate must be string or time.Time".
Proof.
  destruct options as [o|]; [|done].
  rewrite Search_params_table. unfold Table.params.
  destruct (Table.dateText "startDate" _) as [e1|sd] eqn:Hs.
  - intros [= <-]. left. unfold Table.dateText in Hs.
    destruct (StartDate o);
      first [discriminate Hs | injection Hs as <-; reflexivity].
  - destruct (Table.dateText "endDate" _) as [e2|ed] eqn:He; [|done].
    intros [= <-]. right. unfold Table.dateText in He.
    destruct (EndDate o);
      first [discriminate He | injection He as <-; reflexivity].
Qed.

Lemma request_error_kind P c u e :
  snd (fst (Search_request P c u)) = Some e →
  (∃ cause, e = wrapError ("error creating request: " +:+ Error cause) cause
            ∧ url_Parse P u = Some cause)
  ∨ (∃ cause, e = wrapError ("error making request: " +:+ Error cause) cause
              ∧ Do P (httpClient c) (requestFor u) = inl cause)
  ∨ (∃ resp, e = apiError resp ∧ StatusCode resp ≠ StatusOK
             ∧ Do P (httpClient c) (requestFor u) = inr resp)
  ∨ (∃ cause resp,
       e = wrapError ("error parsing response: " +:+ Error cause) cause
       ∧ Do P (httpClient c) (requestFor u) = inr resp
       ∧ snd (unmarshal.Decode (parseStrictRFC3339 P) (Body resp)
                SearchResponse.zero) = Some cause).
Proof.
  pose proof (request_cases P c u) as H.
  destruct (url_Parse P u) as [cause|].
  { rewrite H. intros [= <-]. left. by exists cause. }
  destruct (Do P (httpClient c) (requestFor u)) as [cause|resp].
  { rewrite H. intros [= <-]. right; left. by exists cause. }
  destruct H as [_ ->].
  destruct (negb (StatusCode resp =? StatusOK)) eqn:Hs.
  { intros [= <-]. right; right; left. exists resp. split; [done|].
    split; [|done]. by apply negb_true_iff, Z.eqb_neq in Hs. }
  destruct (unmarshal.Decode _ _ _) as [r [cause|]] eqn:Hd; [|done].
  intros [= <-]. right; right; right. exists cause, resp. by rewrite Hd.
Qed.

End Kinds.

(** X14.  Every error of a call is of one of five kinds: a date option of
    a wrong type, a request that could not be created, a transport that
    failed, a status that is not 200, a response that could not be parsed.
    The second, third and fifth wrap their cause under their own words; the
    first and the fourth wrap nothing. *)
Theorem errors_of_a_call (P : Platform) (c : Client)
    (options : option SearchOptions.t) (e : error) :
  snd (fst (Search P c options)) = Some e
  ∨ snd (fst (Headlines P c options)) = Some e →
  ((e = errors_New "startDate must be string or time.Time"
    ∨ e = errors_New "endDate must be string or time.Time"
    ∨ ∃ resp, e = apiError resp ∧ StatusCode resp ≠ 200)
   ∧ Unwrap e = None)
  ∨ ∃ cause,
      (e = wrapError ("error creating request: " +:+ Error cause) cause
       ∨ e = wrapError ("error making request: " +:+ Error cause) cause
       ∨ e = wrapError ("error parsing response: " +:+ Error cause) cause)
      ∧ Unwrap e = Some cause.
Proof.
  unfold Search, Headlines. change Headlines_params with Search_params.
  change Headlines_request with Search_request.
  destruct (Search_params c options) as [e'|params] eqn:Hp.
  { cbn. intros He. assert (e' = e) as -> by (destruct He; congruence).
    left. destruct (params_error _ _ _ Hp) as [->| ->]; split; auto. }
  assert (Hone : ∀ u, snd (fst (Search_request P c u)) = Some e →
    ((e = errors_New "startDate must be string or time.Time"
      ∨ e = errors_New "endDate must be string or time.Time"
      ∨ ∃ resp, e = apiError resp ∧ StatusCode resp ≠ 200)
     ∧ Unwrap e = None)
    ∨ ∃ cause,
        (e = wrapError ("error creating request: " +:+ Error cause) cause
         ∨ e = wrapError ("error making request: " +:+ Error cause) cause
         ∨ e = wrapError ("error parsing response: " +:+ Error cause) cause)
        ∧ Unwrap e = Some cause).
  { intros u Hu.
    destruct (request_error_kind _ _ _ _ Hu)
      as [(cause & -> & _)|[(cause & -> & _)|[(resp & -> & Hs & _)
         |(cause & resp & -> & _)]]].
    - right. exists cause. auto.
    - right. exists cause. auto.
    - left. split; [|done]. right; right. by exists resp.
    - right. exists cause. auto. }
  intros [H|H]; by apply Hone in H.
Qed.

(** ** Decoding the body of a 200 response *)

(** What a call returns when its request is answered with status 200. *)
Lemma answered_200 P c options params resp :
  Search_params c options = inr params →
  StatusCode resp = StatusOK →
  (answered P c (Search_url c params) resp →
   Search P c options
   = match unmarshal.Decode (parseStrictRFC3339 P) (Body resp)
             SearchResponse.zero with
     | (_, Some err) =>
         (None, Some (Errorf_w "error parsing response: " err),
          exchange c (Search_url c params))
     | (r, None) => (Some r, None, exchange c (Search_url c params))
     end)
  ∧ (answered P c (Headlines_url c params) resp →
     Headlines P c options
     = match unmarshal.Decode (parseStrictRFC3339 P) (Body resp)
               SearchResponse.zero with
       | (_, Some err) =>
           (None, Some (Errorf_w "error parsing response: " err),
            exchange c (Headlines_url c params))
       | (r, None) => (Some r, None, exchange c (Headlines_url c params))
       end).
Proof.
  intros Hp Hstatus.
  assert (Hok : negb (StatusCode resp =? StatusOK) = false).
  { apply negb_false_iff, Z.eqb_eq, Hstatus. }
  split; intros Ha.
  - rewrite (Search_answered _ _ _ _ _ Hp Ha).
    by rewrite (request_answered _ _ _ _ Ha), Hok.
  - rewrite (Headlines_answered _ _ _ _ _ Hp Ha).
    by rewrite (request_answered _ _ _ _ Ha), Hok.
Qed.

(** X15.  A 200 response whose body is empty or holds white space only
    makes the call fail with an error that wraps [io.EOF], under the words
    error parsing response. *)
Theorem blank_body_is_EOF (P : Platform) (c : Client)
    (options : option SearchOptions.t) (params : url.Values) (resp : Response) :
  Search_params c options = inr params →
  StatusCode resp = StatusOK →
  json.nonSpace (content (Body resp)) = false →
  final (Body resp) = io_EOF →
  (answered P c (Search_url c params) resp →
   Search P c options
   = (None, Some (wrapError "error parsing response: EOF" io_EOF),
      exchange c (Search_url c params)))
  ∧ (answered P c (Headlines_url c params) resp →
     Headlines P c options
     = (None, Some (wrapError "error parsing response: EOF" io_EOF),
        exchange c (Headlines_url c params))).
Proof.
  intros Hp Hstatus Hs Hf.
  destruct (answered_200 P c options params resp Hp Hstatus) as [H1 H2].
  rewrite (Decode_unreadable _ _ _ _ (readValue_blank _ Hs Hf)) in H1, H2.
  by split.
Qed.

(** X16.  A 200 response whose body, read to its end, starts with a JSON
    value that is not an object: with null the call succeeds and returns the
    zero response; with a number, a string, a boolean or an array it fails
    with the type error of that kind of value, wrapped. *)
Theorem top_level_value (P : Platform) (c : Client)
    (options : option SearchOptions.t) (params : url.Values) (resp : Response)
    (j : json.value) :
  Search_params c options = inr params →
  StatusCode resp = StatusOK →
  final (Body resp) = io_EOF →
  json.readValue (Body resp) = inr j →
  (j = json.JNull →
   (answered P c (Search_url c params) resp →
    Search P c options
    = (Some SearchResponse.zero, None, exchange c (Search_url c params)))
   ∧ (answered P c (Headlines_url c params) resp →
      Headlines P c options
      = (Some SearchResponse.zero, None, exchange c (Headlines_url c params))))
  ∧ (misfit j = true →
     (answered P c (Search_url c params) resp →
      Search P c options
      = (None,
         Some (wrapError
                 ("error parsing response: json: cannot unmarshal "
                  +:+ unmarshal.kindName j
                  +:+ " into Go value of type allnewsapi.SearchResponse")
                 (misfitError j)),
         exchange c (Search_url c params)))
     ∧ (answered P c (Headlines_url c params) resp →
        Headlines P c options
        = (None,
           Some (wrapError
                   ("error parsing response: json: cannot unmarshal "
                    +:+ unmarshal.kindName j
                    +:+ " into Go value of type allnewsapi.SearchResponse")
                   (misfitError j)),
           exchange c (Headlines_url c params)))).
Proof.
  intros Hp Hstatus _ Hread.
  destruct (answered_200 P c options params resp Hp Hstatus) as [H1 H2].
  unfold unmarshal.Decode in H1, H2. rewrite Hread in H1, H2.
  split.
  - intros ->. by split.
  - intros Hm. destruct j; try done; by split.
Qed.

(** ** Keys that name no field *)

Section Members.

Context {A F : Type} (fields : list (string * F))
  (storeField : A → F → string → json.value → option error → unmarshal.stored A).

Lemma storeMembers_skip ms1 ms2 rawkey key v cur saved :
  json.unquote rawkey = Some key →
  json.findField fields key = None →
  unmarshal.storeMembers fields storeField (ms1 ++ (rawkey, v) :: ms2) cur saved
  = unmarshal.storeMembers fields storeField (ms1 ++ ms2) cur saved.
Proof.
  intros Hq Hf. revert cur saved.
  induction ms1 as [|[k w] ms1 IH]; intros cur saved.
  - cbn [app unmarshal.storeMembers]. by rewrite Hq, Hf.
  - cbn [app unmarshal.storeMembers].
    destruct (json.unquote k) as [key'|]; [|done].
    destruct (json.findField fields key') as [[name f]|]; [|apply IH].
    cbv zeta. destruct (unmarshal.failure _); [done|apply IH].
Qed.

End Members.

(** X17.  A member of an object whose key names no field is skipped with
    its value, whatever the value is: the response, an article and a source
    decode as they do without it. *)
Theorem unknown_key_ignored (parse : string → error + Time)
    (ms1 ms2 : list (string * json.value)) (rawkey key : string)
    (v : json.value) :
  json.unquote rawkey = Some key →
  (json.findField unmarshal.SearchResponse_fields key = None →
   ∀ cur,
     unmarshal.unmarshalValue parse (json.JObject (ms1 ++ (rawkey, v) :: ms2)) cur
     = unmarshal.unmarshalValue parse (json.JObject (ms1 ++ ms2)) cur)
  ∧ (json.findField unmarshal.Article_fields key = None →
     ∀ ctx cur saved,
       unmarshal.store_Article parse ctx
         (json.JObject (ms1 ++ (rawkey, v) :: ms2)) cur saved
       = unmarshal.store_Article parse ctx (json.JObject (ms1 ++ ms2)) cur saved)
  ∧ (json.findField unmarshal.Source_fields key = None →
     ∀ ctx cur saved,
       unmarshal.store_Source ctx
         (json.JObject (ms1 ++ (rawkey, v) :: ms2)) cur saved
       = unmarshal.store_Source ctx (json.JObject (ms1 ++ ms2)) cur saved).
Proof.
  intros Hq. split; [|split]; intros Hf.
  - intros cur. unfold unmarshal.unmarshalValue, unmarshal.store_SearchResponse.
    by rewrite (storeMembers_skip _ _ _ _ _ _ _ _ _ Hq Hf).
  - intros ctx cur saved. unfold unmarshal.store_Article.
    by rewrite (storeMembers_skip _ _ _ _ _ _ _ _ _ Hq Hf).
  - intros ctx cur saved. unfold unmarshal.store_Source.
    by rewrite (storeMembers_skip _ _ _ _ _ _ _ _ _ Hq Hf).
Qed.

(** ** Keys and the names of fields *)

Section Fields.

Context {F : Type}.



End Fields.


Section Elements.

Variable parse : string → error + Time.

Lemma elems_stored ctx es :
  ∀ slots saved,
    unmarshal.failure (unmarshal.store_elems parse ctx es slots saved) = None →
    length (unmarshal.val (unmarshal.store_elems parse ctx es slots saved))
    = length es
    ∧ ∀ i e,
        es !! i = Some e →
        ∃ saved',
          unmarshal.val (unmarshal.store_elems parse ctx es slots saved) !! i
          = Some (unmarshal.val
                    (unmarshal.store_Article parse ctx e
                       (default Article.zero (slots !! i)) saved')).
Proof.
  induction es as [|e es IH]; intros slots saved Hf; [by split|].
  cbn [unmarshal.store_elems] in *. cbv zeta in *. revert Hf.
  destruct (unmarshal.failure (unmarshal.store_Article parse ctx e _ saved))
    eqn:He; cbn [unmarshal.mapStored unmarshal.failure unmarshal.val];
    intros Hf; [by rewrite He in Hf|].
  destruct (IH _ _ Hf) as [Hlen Hnth]. split; [cbn; by rewrite Hlen|].
  intros [|i] e' Hi.
  - injection Hi as <-. exists saved. by rewrite <- (head_lookup slots).
  - destruct (Hnth i e' Hi) as [saved' Hs].
    exists saved'. rewrite lookup_cons_Some. right. split; [lia|].
    replace (S i - 1)%nat with i by lia. by rewrite Hs, lookup_tail.
Qed.

End Elements.

(** X19.  An array of articles decodes element by element: unless decoding
    stops on an error, the slice has one article for each element of the
    array, in their order.  The element at an index is stored into the
    article that the backing array of the slice has at that index, within
    the length of the slice or beyond it, and into a zero article when the
    array has none there: a field that the element leaves out keeps what an
    earlier array under the same key had put at that index, even after a
    shorter array in between.  What the backing array holds beyond the new
    length stays, except after the empty array, which leaves a slice without
    a backing array. *)
Theorem one_article_per_element (parse : string → error + Time)
    (ctx : unmarshal.errorContext) (es : list json.value)
    (cur spare : list Article.t) (saved : option error) :
  unmarshal.failure
    (unmarshal.store_Articles parse ctx (json.JArray es) cur spare saved)
  = None →
  length (fst (unmarshal.val
                 (unmarshal.store_Articles parse ctx (json.JArray es)
                    cur spare saved)))
  = length es
  ∧ (∀ i e,
       es !! i = Some e →
       ∃ saved',
         fst (unmarshal.val
                (unmarshal.store_Articles parse ctx (json.JArray es)
                   cur spare saved)) !! i
         = Some (unmarshal.val
                   (unmarshal.store_Article parse ctx e
                      (default Article.zero ((cur ++ spare) !! i)) saved')))
  ∧ snd (unmarshal.val
           (unmarshal.store_Articles parse ctx (json.JArray es)
              cur spare saved))
    = match es with
      | [] => []
      | _ :: _ => drop (length es) (cur ++ spare)
      end.
Proof.
  destruct es as [|e0 es0].
  { intros _. split_and!; [done| |done]. intros i e Hi.
    by rewrite lookup_nil in Hi. }
  cbn [unmarshal.store_Articles]. unfold unmarshal.setLength.
  cbn [unmarshal.mapStored unmarshal.failure unmarshal.val fst snd].
  intros Hf. rewrite Hf.
  destruct (elems_stored parse ctx (e0 :: es0) _ _ Hf) as [Hlen Hnth].
  by rewrite Hlen.
Qed.

(** ** What follows the first value *)

(** X21.  Once the first JSON value of a body is complete, nothing that
    comes after it matters: when the value is an object or an array, or
    bytes follow it, or the body ends well, then with any bytes after the
    value, and however the read of the body ends, decoding gives what it
    gives for the value alone. *)
Theorem after_first_value_ignored (parse : string → error + Time)
    (s t : string) (final : error) (cur : SearchResponse.t)
    (v : json.value) (r : string) :
  json.scanBytes json.stateBeginValue [] 0 s = json.Value v r →
  isContainer v = true ∨ t ≠ EmptyString ∨ final = io_EOF →
  json.readValue (mkReader (s +:+ t) final) = inr v
  ∧ unmarshal.Decode parse (mkReader (s +:+ t) final) cur
    = unmarshal.Decode parse (mkReader s io_EOF) cur
  ∧ unmarshal.Decode parse (mkReader (s +:+ t) final) cur
    = unmarshal.unmarshalValue parse v cur.
Proof.
  intros Hs Hg. pose proof (scanBytes_Value_append _ _ _ _ _ _ t Hs) as Ht.
  assert (Hlong : json.readValue (mkReader (s +:+ t) final) = inr v).
  { unfold json.readValue. cbn. rewrite Ht.
    destruct Hg as [Hc|[Hne| ->]].
    - replace (json.closesItself v) with true by (by destruct v). done.
    - replace (Str.isEmpty (r +:+ t)) with false by (by destruct r, t).
      by rewrite orb_true_r.
    - by rewrite !orb_true_r. }
  assert (Hshort : json.readValue (mkReader s io_EOF) = inr v).
  { unfold json.readValue. cbn. rewrite Hs. by rewrite !orb_true_r. }
  unfold unmarshal.Decode. by rewrite Hlong, Hshort.
Qed.

(** ** The bytes of a query *)

Section QueryBytes.

Lemma allBytes_weaken (p q : ascii → bool) s :
  (∀ c, p c = true → q c = true) →
  allBytes p s = true → allBytes q s = true.
Proof.
  intros Hpq. induction s as [|c s IH]; [done|]. cbn [allBytes].
  intros [Hc Hs]%andb_true_iff. by rewrite (Hpq _ Hc), (IH Hs).
Qed.

Lemma QueryEscape_query s : allBytes queryByte (url.QueryEscape s) = true.
Proof.
  apply (allBytes_weaken wireByte); [|apply QueryEscape_wire].
  intros c Hc. unfold queryByte. by rewrite Hc.
Qed.

Lemma pair_query k v : allBytes queryByte (Wire.pair k v) = true.
Proof.
  unfold Wire.pair. by rewrite !allBytes_append, !QueryEscape_query.
Qed.

Lemma Join_query l :
  Forall (λ x, allBytes queryByte x = true) l →
  allBytes queryByte (strings_Join l "&") = true.
Proof.
  induction 1 as [|x l Hx Hl IH]; [done|].
  destruct l as [|y l]; [done|].
  change (strings_Join (x :: y :: l) "&")
    with (x +:+ "&" +:+ strings_Join (y :: l) "&").
  by rewrite !allBytes_append, Hx, IH.
Qed.

End QueryBytes.

(** X24.  The encoded form of any parameters, not only of those a call
    builds, holds nothing but the bytes that escaping writes, the ampersand
    and the equals sign: whatever the keys and the values are, there is no
    space, no number sign and no byte above 127 in a query. *)
Theorem query_is_well_formed (m : url.Values) :
  allBytes queryByte (url.Encode m) = true
  ∧ (∀ c, queryByte c = false → Str.mem c (url.Encode m) = false)
  ∧ (∀ c, 127 < Byte.code c → Str.mem c (url.Encode m) = false)
  ∧ (∀ c, Str.mem c " #?/;" = true → Str.mem c (url.Encode m) = false).
Proof.
  assert (H : allBytes queryByte (url.Encode m) = true).
  { rewrite Encode_Join. apply Join_query, Forall_forall. intros x Hx.
    unfold Wire.piecesOf in Hx.
    apply list_elem_of_In, in_flat_map in Hx as (k & _ & Hx).
    apply in_map_iff in Hx as (v & <- & _). apply pair_query. }
  split; [done|]. split; [|split].
  - intros c Hc. by apply (allBytes_mem queryByte).
  - intros c Hc. apply (allBytes_mem queryByte); [done|].
    destruct c as [[] [] [] [] [] [] [] []]; try reflexivity;
      vm_compute in Hc; discriminate.
  - intros c Hc. apply (allBytes_mem queryByte); [done|].
    cbn [Str.mem] in Hc. rewrite orb_false_r in Hc.
    repeat (apply orb_true_iff in Hc as [Hc|Hc];
            [by apply Ascii.eqb_eq in Hc as ->|]).
    by apply Ascii.eqb_eq in Hc as ->.
Qed.

(** ** Fields that the object leaves out *)

Section Absent.

Variable parse : string → error + Time.

Lemma field_kept ctx r spare f name v saved :
  let r' := fst (unmarshal.val
                   (unmarshal.store_SearchResponse_field parse ctx (r, spare)
                      f name v saved)) in
  (sameField f unmarshal.fTotalArticles = false →
   SearchResponse.TotalArticles r' = SearchResponse.TotalArticles r)
  ∧ (sameField f unmarshal.fCurrentPage = false →
     SearchResponse.CurrentPage r' = SearchResponse.CurrentPage r)
  ∧ (sameField f unmarshal.fNextPage = false →
     SearchResponse.NextPage r' = SearchResponse.NextPage r)
  ∧ (sameField f unmarshal.fArticles = false →
     SearchResponse.Articles r' = SearchResponse.Articles r).
Proof. destruct r, f; cbn; by repeat split. Qed.

Lemma members_kept ctx ms f :
  namesField ms f = false →
  ∀ cur saved,
    let r' := fst (unmarshal.val
                     (unmarshal.storeMembers unmarshal.SearchResponse_fields
                        (unmarshal.store_SearchResponse_field parse ctx)
                        ms cur saved)) in
    (f = unmarshal.fTotalArticles →
     SearchResponse.TotalArticles r' = SearchResponse.TotalArticles (fst cur))
    ∧ (f = unmarshal.fCurrentPage →
       SearchResponse.CurrentPage r' = SearchResponse.CurrentPage (fst cur))
    ∧ (f = unmarshal.fNextPage →
       SearchResponse.NextPage r' = SearchResponse.NextPage (fst cur))
    ∧ (f = unmarshal.fArticles →
       SearchResponse.Articles r' = SearchResponse.Articles (fst cur)).
Proof.
  induction ms as [|[k v] ms IH]; intros Hn [cur spare] saved;
    [by repeat split|].
  cbn [namesField existsb fst] in Hn. apply orb_false_iff in Hn as [Hk Hn].
  specialize (IH Hn). cbn [unmarshal.storeMembers].
  destruct (json.unquote k) as [key|]; [|by repeat split].
  destruct (json.findField _ key) as [[name f']|]; [|apply IH].
  cbv zeta.
  pose proof (field_kept ctx cur spare f' name v saved) as Hf. cbv zeta in Hf.
  destruct Hf as (H1 & H2 & H3 & H4). cbn [fst].
  destruct (unmarshal.failure _).
  - split_and!; intros ->; auto.
  - specialize (IH (unmarshal.val
                      (unmarshal.store_SearchResponse_field parse ctx
                         (cur, spare) f' name v saved))
                   (unmarshal.savedError
                      (unmarshal.store_SearchResponse_field parse ctx
                         (cur, spare) f' name v saved))).
    cbv zeta in IH. destruct IH as (I1 & I2 & I3 & I4).
    split_and!; intros ->; [rewrite I1|rewrite I2|rewrite I3|rewrite I4]; auto.
Qed.

End Absent.

(** X25.  A field of the response that no member of the object names keeps
    the value it had: decoded into the zero response, an object without the
    key of a field leaves the count and the page at 0, the next page nil and
    the articles empty. *)
Theorem absent_field_keeps_value (parse : string → error + Time)
    (ms : list (string * json.value)) (cur : SearchResponse.t) :
  (namesField ms unmarshal.fTotalArticles = false →
   SearchResponse.TotalArticles
     (fst (unmarshal.unmarshalValue parse (json.JObject ms) cur))
   = SearchResponse.TotalArticles cur)
  ∧ (namesField ms unmarshal.fCurrentPage = false →
     SearchResponse.CurrentPage
       (fst (unmarshal.unmarshalValue parse (json.JObject ms) cur))
     = SearchResponse.CurrentPage cur)
  ∧ (namesField ms unmarshal.fNextPage = false →
     SearchResponse.NextPage
       (fst (unmarshal.unmarshalValue parse (json.JObject ms) cur))
     = SearchResponse.NextPage cur)
  ∧ (namesField ms unmarshal.fArticles = false →
     SearchResponse.Articles
       (fst (unmarshal.unmarshalValue parse (json.JObject ms) cur))
     = SearchResponse.Articles cur).
Proof.
  unfold unmarshal.unmarshalValue, unmarshal.store_SearchResponse.
  cbn [fst unmarshal.val unmarshal.mapStored].
  split_and!; intros Hn;
    pose proof (members_kept parse unmarshal.noContext ms _ Hn (cur, []) None)
      as H;
    cbv zeta in H; destruct H as (H1 & H2 & H3 & H4); auto.
Qed.

(** ** The further properties at concrete inputs *)

Lemma configured_client_requests_witness :
  NewClient "KEY" (option_of <$> localSettings) = (Some localClient, None)
  ∧ Timeout (httpClient localClient) = 10 * Second
  ∧ Search (mock 200 (mkReader sampleBody io_EOF)) localClient None
    = Search_request (mock 200 (mkReader sampleBody io_EOF)) localClient
        "http://localhost:8080/v1/search?apikey=KEY"
  ∧ Headlines (mock 200 (mkReader sampleBody io_EOF)) localClient None
    = Headlines_request (mock 200 (mkReader sampleBody io_EOF)) localClient
        "http://localhost:8080/v1/headlines?apikey=KEY".
Proof.
  split; [reflexivity|].
  exact (configured_client_requests (mock 200 (mkReader sampleBody io_EOF))
           "KEY" localSettings localClient eq_refl).
Defined.

Lemma text_filters_witness :
  (Search_params demoClient (Some datedOptions) = inr datedParams
   ∨ Headlines_params demoClient (Some datedOptions) = inr datedParams)
  ∧ datedParams !! "q" = Some ["bit coin"%string]
  ∧ datedParams !! "sortby" = Some ["relevance"%string]
  ∧ datedParams !! "format" = None
  ∧ ("bit coin"%string ≠ EmptyString →
     "q=bit+coin"%string ∈ Wire.pieces (url.Encode datedParams))
  ∧ ("relevance"%string ≠ EmptyString →
     "sortby=relevance"%string ∈ Wire.pieces (url.Encode datedParams))
  ∧ (EmptyString ≠ EmptyString →
     "format="%string ∈ Wire.pieces (url.Encode datedParams))
  ∧ ("bit coin"%string = EmptyString →
     ∀ v, Wire.pair "q" v ∉ Wire.pieces (url.Encode datedParams))
  ∧ ("relevance"%string = EmptyString →
     ∀ v, Wire.pair "sortby" v ∉ Wire.pieces (url.Encode datedParams))
  ∧ (EmptyString = EmptyString →
     ∀ v, Wire.pair "format" v ∉ Wire.pieces (url.Encode datedParams)).
Proof.
  split; [left; exact dated_params|].
  exact (text_filters demoClient datedOptions datedParams (or_introl dated_params)).
Defined.

Lemma apikey_always_first_witness :
  (Search_params demoClient (Some datedOptions) = inr datedParams
   ∨ Headlines_params demoClient (Some datedOptions) = inr datedParams)
  ∧ datedParams !! "apikey" = Some ["KEY"%string]
  ∧ head (Wire.pieces (url.Encode datedParams)) = Some "apikey=KEY"%string
  ∧ ∃ rest, url.Encode datedParams = ("apikey=KEY" +:+ rest)%string.
Proof.
  split; [left; exact dated_params|].
  exact (apikey_always_first demoClient (Some datedOptions) datedParams
           (or_introl dated_params)).
Defined.

Lemma params_keys_single_witness :
  (Search_params demoClient (Some datedOptions) = inr datedParams
   ∨ Headlines_params demoClient (Some datedOptions) = inr datedParams)
  ∧ (∀ k vs, datedParams !! k = Some vs →
             k ∈ Wire.sortedKeys ∧ ∃ v, vs = [v])
  ∧ (1 ≤ size datedParams ≤ 15)%nat.
Proof.
  split; [left; exact dated_params|].
  exact (params_keys_single demoClient (Some datedOptions) datedParams
           (or_introl dated_params)).
Defined.

Lemma query_in_key_order_witness :
  (Search_params demoClient (Some datedOptions) = inr datedParams
   ∨ Headlines_params demoClient (Some datedOptions) = inr datedParams)
  ∧ Wire.pieces (url.Encode datedParams)
    = omap (pieceOf datedParams) Wire.sortedKeys
  ∧ length (Wire.pieces (url.Encode datedParams)) = size datedParams
  ∧ url.Encode datedParams
    = strings_Join (omap (pieceOf datedParams) Wire.sortedKeys) "&"
  ∧ Forall (λ p, Str.mem "&" p = false) (Wire.pieces (url.Encode datedParams)).
Proof.
  split; [left; exact dated_params|].
  exact (query_in_key_order demoClient (Some datedOptions) datedParams
           (or_introl dated_params)).
Defined.

Lemma decimal_text_reads_back_witness :
  - 2 ^ 63 ≤ 42 ≤ 2 ^ 63 - 1
  ∧ json.ParseInt "42" = Some 42
  ∧ url.QueryEscape "42" = "42"%string
  ∧ ∀ ctx cur saved,
      unmarshal.store_int ctx (json.JNumber "42") cur saved
      = unmarshal.ok 42 saved.
Proof.
  assert (H : - 2 ^ 63 ≤ 42 ≤ 2 ^ 63 - 1) by (vm_compute; split; discriminate).
  split; [exact H|]. exact (decimal_text_reads_back 42 H).
Defined.

Lemma request_not_created_witness :
  Search_params demoClient None = inr keyParams
  ∧ (url_Parse (noParse refused) (Search_url demoClient keyParams) = Some refused →
     Search (noParse refused) demoClient None
     = (None,
        Some (wrapError
                "error creating request: net/url: invalid control character in URL"
                refused), []))
  ∧ (url_Parse (noParse refused) (Headlines_url demoClient keyParams)
     = Some refused →
     Headlines (noParse refused) demoClient None
     = (None,
        Some (wrapError
                "error creating request: net/url: invalid control character in URL"
                refused), []))
  ∧ Unwrap (wrapError
              "error creating request: net/url: invalid control character in URL"
              refused) = Some refused.
Proof.
  split; [exact nil_params|].
  exact (request_not_created (noParse refused) demoClient None keyParams refused
           nil_params).
Defined.

Lemma transport_failure_witness :
  Search_params demoClient None = inr keyParams
  ∧ (url_Parse (noRoute unreachableHost) (Search_url demoClient keyParams) = None →
     Do (noRoute unreachableHost) (httpClient demoClient)
       (requestFor (Search_url demoClient keyParams)) = inl unreachableHost →
     Search (noRoute unreachableHost) demoClient None
     = (None,
        Some (wrapError
                ("error making request: " +:+ Error unreachableHost)
                unreachableHost),
        [evDo (httpClient demoClient)
           (requestFor "https://api.allnewsapi.com/v1/search?apikey=KEY")]))
  ∧ (url_Parse (noRoute unreachableHost) (Headlines_url demoClient keyParams)
     = None →
     Do (noRoute unreachableHost) (httpClient demoClient)
       (requestFor (Headlines_url demoClient keyParams)) = inl unreachableHost →
     Headlines (noRoute unreachableHost) demoClient None
     = (None,
        Some (wrapError
                ("error making request: " +:+ Error unreachableHost)
                unreachableHost),
        [evDo (httpClient demoClient)
           (requestFor "https://api.allnewsapi.com/v1/headlines?apikey=KEY")]))
  ∧ Unwrap (wrapError ("error making request: " +:+ Error unreachableHost)
              unreachableHost) = Some unreachableHost.
Proof.
  split; [exact nil_params|].
  exact (transport_failure (noRoute unreachableHost) demoClient None keyParams
           unreachableHost nil_params).
Defined.

Lemma errors_of_a_call_witness :
  (snd (fst (Search (mock 429 (mkReader "rate limited" io_EOF)) demoClient None))
   = Some (errors_New "API error (status 429): rate limited")
   ∨ snd (fst (Headlines (mock 429 (mkReader "rate limited" io_EOF))
                 demoClient None))
     = Some (errors_New "API error (status 429): rate limited"))
  ∧ (((errors_New "API error (status 429): rate limited"
       = errors_New "startDate must be string or time.Time"
       ∨ errors_New "API error (status 429): rate limited"
         = errors_New "endDate must be string or time.Time"
       ∨ ∃ resp, errors_New "API error (status 429): rate limited"
                 = apiError resp ∧ StatusCode resp ≠ 200)
      ∧ Unwrap (errors_New "API error (status 429): rate limited") = None)
     ∨ ∃ cause,
         (errors_New "API error (status 429): rate limited"
          = wrapError ("error creating request: " +:+ Error cause) cause
          ∨ errors_New "API error (status 429): rate limited"
            = wrapError ("error making request: " +:+ Error cause) cause
          ∨ errors_New "API error (status 429): rate limited"
            = wrapError ("error parsing response: " +:+ Error cause) cause)
         ∧ Unwrap (errors_New "API error (status 429): rate limited")
           = Some cause).
Proof.
  assert (H : snd (fst (Search (mock 429 (mkReader "rate limited" io_EOF))
                          demoClient None))
              = Some (errors_New "API error (status 429): rate limited"))
    by (vm_compute; reflexivity).
  split; [left; exact H|].
  exact (errors_of_a_call (mock 429 (mkReader "rate limited" io_EOF)) demoClient
           None (errors_New "API error (status 429): rate limited")
           (or_introl H)).
Defined.

Lemma blank_body_is_EOF_witness :
  Search_params demoClient None = inr keyParams
  ∧ 200 = StatusOK
  ∧ json.nonSpace (content blankBody) = false
  ∧ final blankBody = io_EOF
  ∧ (answered (mock 200 blankBody) demoClient (Search_url demoClient keyParams)
       (mkResponse 200 blankBody) →
     Search (mock 200 blankBody) demoClient None
     = (None, Some (wrapError "error parsing response: EOF" io_EOF),
        exchange demoClient "https://api.allnewsapi.com/v1/search?apikey=KEY"))
  ∧ (answered (mock 200 blankBody) demoClient
       (Headlines_url demoClient keyParams) (mkResponse 200 blankBody) →
     Headlines (mock 200 blankBody) demoClient None
     = (None, Some (wrapError "error parsing response: EOF" io_EOF),
        exchange demoClient "https://api.allnewsapi.com/v1/headlines?apikey=KEY")).
Proof.
  split; [exact nil_params|]. split; [reflexivity|].
  split; [reflexivity|]. split; [reflexivity|].
  exact (blank_body_is_EOF (mock 200 blankBody) demoClient None keyParams
           (mkResponse 200 blankBody) nil_params eq_refl eq_refl eq_refl).
Defined.

Lemma top_level_value_witness :
  Search_params demoClient None = inr keyParams
  ∧ 200 = StatusOK
  ∧ final arrayBody = io_EOF
  ∧ json.readValue arrayBody
    = inr (json.JArray [json.JNumber "1"; json.JNumber "2"])
  ∧ (json.JArray [json.JNumber "1"; json.JNumber "2"] = json.JNull →
     (answered (mock 200 arrayBody) demoClient (Search_url demoClient keyParams)
        (mkResponse 200 arrayBody) →
      Search (mock 200 arrayBody) demoClient None
      = (Some SearchResponse.zero, None,
         exchange demoClient (Search_url demoClient keyParams)))
     ∧ (answered (mock 200 arrayBody) demoClient
          (Headlines_url demoClient keyParams) (mkResponse 200 arrayBody) →
        Headlines (mock 200 arrayBody) demoClient None
        = (Some SearchResponse.zero, None,
           exchange demoClient (Headlines_url demoClient keyParams))))
  ∧ (misfit (json.JArray [json.JNumber "1"; json.JNumber "2"]) = true →
     (answered (mock 200 arrayBody) demoClient (Search_url demoClient keyParams)
        (mkResponse 200 arrayBody) →
      Search (mock 200 arrayBody) demoClient None
      = (None,
         Some (wrapError
                 "error parsing response: json: cannot unmarshal array into Go value of type allnewsapi.SearchResponse"
                 (json_UnmarshalTypeError "array" T_SearchResponse
                    EmptyString EmptyString)),
         exchange demoClient (Search_url demoClient keyParams)))
     ∧ (answered (mock 200 arrayBody) demoClient
          (Headlines_url demoClient keyParams) (mkResponse 200 arrayBody) →
        Headlines (mock 200 arrayBody) demoClient None
        = (None,
           Some (wrapError
                   "error parsing response: json: cannot unmarshal array into Go value of type allnewsapi.SearchResponse"
                   (json_UnmarshalTypeError "array" T_SearchResponse
                      EmptyString EmptyString)),
           exchange demoClient (Headlines_url demoClient keyParams)))).
Proof.
  assert (H : json.readValue arrayBody
              = inr (json.JArray [json.JNumber "1"; json.JNumber "2"]))
    by (vm_compute; reflexivity).
  split; [exact nil_params|]. split; [reflexivity|]. split; [reflexivity|].
  split; [exact H|].
  exact (top_level_value (mock 200 arrayBody) demoClient None keyParams
           (mkResponse 200 arrayBody) _ nil_params eq_refl eq_refl H).
Defined.

Lemma unknown_key_ignored_witness :
  json.unquote "status" = Some "status"%string
  ∧ (json.findField unmarshal.SearchResponse_fields "status" = None →
     ∀ cur,
       unmarshal.unmarshalValue noTime
         (json.JObject (knownMembers ++ ("status"%string, json.JString "ok") :: []))
         cur
       = unmarshal.unmarshalValue noTime (json.JObject (knownMembers ++ [])) cur)
  ∧ (json.findField unmarshal.Article_fields "status" = None →
     ∀ ctx cur saved,
       unmarshal.store_Article noTime ctx
         (json.JObject (knownMembers ++ ("status"%string, json.JString "ok") :: []))
         cur saved
       = unmarshal.store_Article noTime ctx (json.JObject (knownMembers ++ []))
           cur saved)
  ∧ (json.findField unmarshal.Source_fields "status" = None →
     ∀ ctx cur saved,
       unmarshal.store_Source ctx
         (json.JObject (knownMembers ++ ("status"%string, json.JString "ok") :: []))
         cur saved
       = unmarshal.store_Source ctx (json.JObject (knownMembers ++ [])) cur saved).
Proof.
  assert (H : json.unquote "status" = Some "status"%string)
    by (vm_compute; reflexivity).
  split; [exact H|].
  exact (unknown_key_ignored noTime knownMembers [] "status" "status"
           (json.JString "ok") H).
Defined.

Lemma one_article_per_element_witness :
  unmarshal.failure
    (unmarshal.store_Articles noTime unmarshal.noContext
       (json.JArray twoElements) [keptArticle] [staleArticle] None) = None
  ∧ length (fst (unmarshal.val
                   (unmarshal.store_Articles noTime unmarshal.noContext
                      (json.JArray twoElements) [keptArticle] [staleArticle]
                      None)))
    = 2%nat
  ∧ (∀ i e,
       twoElements !! i = Some e →
       ∃ saved',
         fst (unmarshal.val
                (unmarshal.store_Articles noTime unmarshal.noContext
                   (json.JArray twoElements) [keptArticle] [staleArticle]
                   None)) !! i
         = Some (unmarshal.val
                   (unmarshal.store_Article noTime unmarshal.noContext e
                      (default Article.zero
                         (([keptArticle] ++ [staleArticle]) !! i)) saved')))
  ∧ snd (unmarshal.val
           (unmarshal.store_Articles noTime unmarshal.noContext
              (json.JArray twoElements) [keptArticle] [staleArticle] None))
    = drop 2 ([keptArticle] ++ [staleArticle]).
Proof.
  assert (H : unmarshal.failure
                (unmarshal.store_Articles noTime unmarshal.noContext
                   (json.JArray twoElements) [keptArticle] [staleArticle]
                   None) = None)
    by (vm_compute; reflexivity).
  split; [exact H|].
  exact (one_article_per_element noTime unmarshal.noContext twoElements
           [keptArticle] [staleArticle] None H).
Defined.

Lemma after_first_value_ignored_witness :
  json.scanBytes json.stateBeginValue [] 0 (Str.q "{'totalArticles':2}")
  = json.Value (json.JObject [("totalArticles"%string, json.JNumber "2")])
      EmptyString
  ∧ (isContainer (json.JObject [("totalArticles"%string, json.JNumber "2")])
     = true
     ∨ " and more"%string ≠ EmptyString ∨ io_ErrUnexpectedEOF = io_EOF)
  ∧ json.readValue
      (mkReader (Str.q "{'totalArticles':2}" +:+ " and more") io_ErrUnexpectedEOF)
    = inr (json.JObject [("totalArticles"%string, json.JNumber "2")])
  ∧ unmarshal.Decode noTime
      (mkReader (Str.q "{'totalArticles':2}" +:+ " and more") io_ErrUnexpectedEOF)
      SearchResponse.zero
    = unmarshal.Decode noTime (mkReader (Str.q "{'totalArticles':2}") io_EOF)
        SearchResponse.zero
  ∧ unmarshal.Decode noTime
      (mkReader (Str.q "{'totalArticles':2}" +:+ " and more") io_ErrUnexpectedEOF)
      SearchResponse.zero
    = unmarshal.unmarshalValue noTime
        (json.JObject [("totalArticles"%string, json.JNumber "2")])
        SearchResponse.zero.
Proof.
  assert (H : json.scanBytes json.stateBeginValue [] 0
                (Str.q "{'totalArticles':2}")
              = json.Value
                  (json.JObject [("totalArticles"%string, json.JNumber "2")])
                  EmptyString)
    by (vm_compute; reflexivity).
  split; [exact H|]. split; [left; reflexivity|].
  exact (after_first_value_ignored noTime (Str.q "{'totalArticles':2}")
           " and more" io_ErrUnexpectedEOF SearchResponse.zero _ _ H
           (or_introl eq_refl)).
Defined.
